(** * OMNICANON core pipeline: a shallow embedding of the TypeScript sources

    The development follows the layout of [omnicanon/src]:
    - [Num]: the JavaScript [number] type and the [Math] helpers of
      [utils/math.ts];
    - [CircularBuffer]: [utils/circularBuffer.ts];
    - [PerceptionMatrix], [MetaController], [StrategyPool],
      [RiskGovernance], [ExecutionEngine] and [FractalMemory]: the classes
      of [core/].

    Numbers.  A JavaScript number is modelled as an exact rational or one of
    the three IEEE special values [Infinity], [-Infinity] and [NaN].  The
    special values follow the IEEE rules ([NaN] is absorbing, comparisons with
    [NaN] are false, [x / 0] is infinite or [NaN]); arithmetic on finite
    values is exact, so rounding and overflow are abstracted away, and the two
    IEEE zeros are identified (a zero divisor counts as [+0]).  [Math.sqrt]
    and [Math.exp] are parameters of the model; [binary64Builtins] gives them
    their binary64 values, and examples run on it. *)

From Stdlib Require Import ZArith QArith Qabs Qround Lqa Lia List Bool String.
From stdpp Require Import base option list gmap strings pretty sorting.

Set Default Proof Using "Type".
Local Open Scope Z_scope.
Local Open Scope nat_scope.

(** ** JavaScript numbers *)

Inductive num : Type :=
  | Fin (q : Q)
  | PInf
  | NInf
  | NaN.

Declare Scope num_scope.
Delimit Scope num_scope with num.
Bind Scope num_scope with num.

Module Num.

Definition Qltb (a b : Q) : bool :=
  match (a ?= b)%Q with Lt => true | _ => false end.

Definition inf_signed (c : comparison) : num :=
  match c with Gt => PInf | Lt => NInf | Eq => NaN end.

Definition of_Z (z : Z) : num := Fin (inject_Z z).
Definition of_nat (n : nat) : num := of_Z (Z.of_nat n).

Definition zero : num := of_Z 0.
Definition one : num := of_Z 1.

Definition neg (x : num) : num :=
  match x with
  | Fin a => Fin (- a)
  | PInf => NInf
  | NInf => PInf
  | NaN => NaN
  end.

Definition add (x y : num) : num :=
  match x, y with
  | NaN, _ | _, NaN => NaN
  | Fin a, Fin b => Fin (a + b)
  | PInf, NInf | NInf, PInf => NaN
  | PInf, _ | _, PInf => PInf
  | NInf, _ | _, NInf => NInf
  end.

Definition sub (x y : num) : num := add x (neg y).

Definition mul (x y : num) : num :=
  match x, y with
  | NaN, _ | _, NaN => NaN
  | Fin a, Fin b => Fin (a * b)
  | Fin a, PInf | PInf, Fin a => inf_signed (a ?= 0)%Q
  | Fin a, NInf | NInf, Fin a => inf_signed (CompOpp (a ?= 0)%Q)
  | PInf, PInf | NInf, NInf => PInf
  | PInf, NInf | NInf, PInf => NInf
  end.

Definition div (x y : num) : num :=
  match x, y with
  | NaN, _ | _, NaN => NaN
  | Fin a, Fin b =>
      if Qeq_bool b 0 then inf_signed (a ?= 0)%Q else Fin (a / b)
  | Fin _, PInf | Fin _, NInf => Fin 0
  | PInf, Fin b => match (b ?= 0)%Q with Lt => NInf | _ => PInf end
  | NInf, Fin b => match (b ?= 0)%Q with Lt => PInf | _ => NInf end
  | _, _ => NaN
  end.

(** [x < y], [x > y], [x <= y], [x >= y], [x === y], [x !== y] *)
Definition ltb (x y : num) : bool :=
  match x, y with
  | NaN, _ | _, NaN => false
  | Fin a, Fin b => Qltb a b
  | Fin _, PInf => true
  | Fin _, NInf => false
  | PInf, _ => false
  | NInf, NInf => false
  | NInf, _ => true
  end.

Definition gtb (x y : num) : bool := ltb y x.

Definition is_nan (x : num) : bool :=
  match x with NaN => true | _ => false end.

Definition leb (x y : num) : bool :=
  negb (is_nan x) && negb (is_nan y) && negb (ltb y x).

Definition geb (x y : num) : bool := leb y x.

Definition eqb (x y : num) : bool :=
  match x, y with
  | Fin a, Fin b => Qeq_bool a b
  | PInf, PInf | NInf, NInf => true
  | _, _ => false
  end.

Definition neqb (x y : num) : bool := negb (eqb x y).

Definition is_finite (x : num) : bool :=
  match x with Fin _ => true | _ => false end.

(** Truthiness of a number ([if (x)], [x || y]): false for 0 and NaN. *)
Definition truthy (x : num) : bool :=
  match x with
  | Fin a => negb (Qeq_bool a 0)
  | NaN => false
  | _ => true
  end.

Definition or_else (x y : num) : num := if truthy x then x else y.

(** [Math.abs], [Math.sign], [Math.min], [Math.max] *)
Definition abs (x : num) : num :=
  match x with
  | Fin a => Fin (Qabs a)
  | PInf | NInf => PInf
  | NaN => NaN
  end.

Definition sign (x : num) : num :=
  match x with
  | Fin a =>
      match (a ?= 0)%Q with Gt => of_Z 1 | Lt => of_Z (-1) | Eq => of_Z 0 end
  | PInf => of_Z 1
  | NInf => of_Z (-1)
  | NaN => NaN
  end.

Definition min2 (x y : num) : num :=
  match x, y with
  | NaN, _ | _, NaN => NaN
  | _, _ => if ltb y x then y else x
  end.

Definition max2 (x y : num) : num :=
  match x, y with
  | NaN, _ | _, NaN => NaN
  | _, _ => if ltb x y then y else x
  end.

(** [Math.min(...xs)] and [Math.max(...xs)]; the empty spread gives
    [Infinity] and [-Infinity]. *)
Definition min_list (xs : list num) : num := fold_left min2 xs PInf.
Definition max_list (xs : list num) : num := fold_left max2 xs NInf.


(** [arr.reduce((a, b) => a + b, 0)] *)
Definition sum (xs : list num) : num := fold_left add xs zero.


(** Membership in the unit interval [[0, 1]]. *)
Definition inUnit (x : num) : bool := leb (Fin 0) x && leb x (Fin 1).

End Num.

Notation "x + y" := (Num.add x y) : num_scope.
Notation "x - y" := (Num.sub x y) : num_scope.
Notation "x * y" := (Num.mul x y) : num_scope.
Notation "x / y" := (Num.div x y) : num_scope.
Notation "- x" := (Num.neg x) : num_scope.
Notation "x <? y" := (Num.ltb x y) : num_scope.
Notation "x >? y" := (Num.gtb x y) : num_scope.
Notation "x <=? y" := (Num.leb x y) : num_scope.
Notation "x >=? y" := (Num.geb x y) : num_scope.
Notation "x === y" := (Num.eqb x y) (at level 70) : num_scope.
Notation "x !== y" := (Num.neqb x y) (at level 70) : num_scope.

(** Decimal literals of the source, written [$0.25]. *)
Notation "$ q" := (Fin q%Q) (at level 5, q at level 1, format "$ q") : num_scope.


(** ** [utils/circularBuffer.ts] *)

Module CircularBuffer.

(** A JavaScript array with holes: a hole (or an index out of range) reads
    as [undefined], here [None]. *)
Definition array_get {T : Type} (l : list (option T)) (i : nat) : option T :=
  mjoin (l !! i).

(** [l[i] = v]: in range it replaces the cell, out of range it extends the
    array with holes up to [i]. *)
Definition array_set {T : Type} (l : list (option T)) (i : nat) (v : T)
  : list (option T) :=
  if decide (i < length l) then <[i := Some v]> l
  else l ++ replicate (i - length l) None ++ [Some v].

Record t (T : Type) : Type := mk {
  capacity : nat;
  items : list (option T);
  head : nat;
  tail : nat;
  count : nat;
}.
Arguments mk {T}.
Arguments capacity {T}.
Arguments items {T}.
Arguments head {T}.
Arguments tail {T}.
Arguments count {T}.

Section Ops.
Context {T : Type}.

(** [new CircularBuffer(capacity)]: [new Array(capacity)] holds only holes. *)
Definition new (capacity : nat) : t T :=
  mk capacity (replicate capacity None) 0 0 0.

Definition add (b : t T) (item : T) : t T :=
  let items' := array_set (items b) (tail b) item in
  let tail' := (tail b + 1) mod capacity b in
  if decide (count b < capacity b)
  then mk (capacity b) items' (head b) tail' (count b + 1)
  else mk (capacity b) items' ((head b + 1) mod capacity b) tail' (count b).

(** The loop [for (let i = 0; i < n; i++) result.push(f(i))]. *)
Definition tabulate {A : Type} (n : nat) (f : nat → A) : list A :=
  map f (seq 0 n).
Global Arguments tabulate : simpl never.

Definition getRecent (b : t T) (n : nat) : list (option T) :=
  let actualN := Nat.min n (count b) in
  tabulate actualN (λ i,
    let index := Z.rem (Z.of_nat (tail b) - 1 - Z.of_nat i + Z.of_nat (capacity b))
                       (Z.of_nat (capacity b)) in
    if decide (index < 0)%Z then None
    else array_get (items b) (Z.to_nat index)).

Definition getOldest (b : t T) (n : nat) : list (option T) :=
  let actualN := Nat.min n (count b) in
  tabulate actualN (λ i, array_get (items b) ((head b + i) mod capacity b)).

Definition get (b : t T) (index : nat) : option T :=
  if decide (count b ≤ index) then None
  else array_get (items b) ((head b + index) mod capacity b).

Definition toArray (b : t T) : list (option T) :=
  tabulate (count b) (λ i, array_get (items b) ((head b + i) mod capacity b)).

Definition clear (b : t T) : t T := new (capacity b).

Definition size (b : t T) : nat := count b.
Definition isFull (b : t T) : bool := bool_decide (count b = capacity b).
Definition isEmpty (b : t T) : bool := bool_decide (count b = 0).

(** [for (const x of xs) b.add(x)] *)
Definition add_all (b : t T) (xs : list T) : t T := fold_left add xs b.

(** The representation invariant kept by [add]: the array has [capacity]
    cells, the live window [head .. head + count) wraps inside it, [tail] is
    the cell after the window and every cell of the window is filled. *)
Definition wf (b : t T) : Prop :=
  0 < capacity b ∧
  length (items b) = capacity b ∧
  head b < capacity b ∧
  count b ≤ capacity b ∧
  tail b = (head b + count b) mod capacity b ∧
  ∀ i, i < count b → is_Some (array_get (items b) ((head b + i) mod capacity b)).

End Ops.
End CircularBuffer.

(** ** [CircularBuffer<number>]: [average], [min] and [max]

    The three summaries run the same loop over the live window as
    [toArray]; [typeof value === 'number'] holds of a filled cell (also of
    [NaN] and the infinities) and fails on a hole. *)

Module NumberBuffer.
Import CircularBuffer.
Local Open Scope num_scope.

(** The cell read in round [i] of the loops. *)
Definition cell (b : CircularBuffer.t num) (i : nat) : option num :=
  array_get (items b) ((head b + i) mod capacity b).

Definition average (b : CircularBuffer.t num) : num :=
  if decide (count b = 0%nat) then $0
  else
    let sum :=
      fold_left (λ sum i,
        match cell b i with
        | Some value => sum + value
        | None => sum
        end) (seq 0 (count b)) $0 in
    sum / Num.of_nat (count b).

Definition min (b : CircularBuffer.t num) : num :=
  if decide (count b = 0%nat) then PInf
  else
    fold_left (λ minVal i,
      match cell b i with
      | Some value => if value <? minVal then value else minVal
      | None => minVal
      end) (seq 0 (count b)) PInf.

Definition max (b : CircularBuffer.t num) : num :=
  if decide (count b = 0%nat) then NInf
  else
    fold_left (λ maxVal i,
      match cell b i with
      | Some value => if value >? maxVal then value else maxVal
      | None => maxVal
      end) (seq 0 (count b)) NInf.

End NumberBuffer.

(** ** Built-in functions taken as parameters

    [Math.sqrt] and [Math.exp] have no exact counterpart on rationals; the
    model takes the two as parameters. *)


(** *** A runtime, on which examples are run

    [Math.sqrt] is the correctly rounded square root of IEEE 754 binary64.
    [Math.exp] is an approximation that the language leaves to the
    implementation; the instance sums the series up to its 30th term and
    rounds the sum to binary64. *)










(** ** [Number.prototype.toFixed]

    [x.toFixed(d)] for [|x| < 10^21]: the decimal expansion of the integer
    nearest to [|x| * 10^d] (the larger one on a tie), with the point [d]
    digits from the right. *)

Fixpoint repeat_string (n : nat) (s : string) : string :=
  match n with
  | O => ""
  | S n' => s +:+ repeat_string n' s
  end.

Definition toFixed (x : num) (d : nat) : string :=
  match x with
  | NaN => "NaN"
  | PInf => "Infinity"
  | NInf => "-Infinity"
  | Fin q =>
      let n := Qfloor (Qabs q * inject_Z (10 ^ Z.of_nat d) + (1 # 2))%Q in
      let digits := pretty n in
      let padded := repeat_string (S d - String.length digits) "0" +:+ digits in
      let split := (String.length padded - d)%nat in
      (if Num.Qltb q 0 then "-" else "")
      +:+ substring 0 split padded
      +:+ (if decide (d = 0%nat) then "" else "." +:+ substring split d padded)
  end.

(** ** [utils/math.ts] *)

Module MathUtil.
Section WithBuiltins.
Context `{Builtins}.
Local Open Scope num_scope.


Definition clamp (value min max : num) : num :=
  Num.min2 (Num.max2 value min) max.

Definition length_num {A : Type} (arr : list A) : num :=
  Num.of_nat (length arr).


Definition mean (arr : list num) : num :=
  if decide (length arr = 0%nat) then $0
  else Num.sum arr / length_num arr.

Definition kellyCriterion (winRate avgWin avgLoss : num) : num :=
  if avgLoss === $0 then $0
  else
    let winLossRatio := avgWin / avgLoss in
    winRate - ($1 - winRate) / winLossRatio.



Definition normalize (arr : list num) : list num :=
  let min := Num.min_list arr in
  let max := Num.max_list arr in
  let range := max - min in
  if range === $0 then map (λ _, $0.5) arr
  else map (λ x, (x - min) / range) arr.

End WithBuiltins.

(** [arr.sort(cmp)]: a stable insertion sort; [y] stays before [x] unless
    [cmp y x > 0] (a [NaN] comparison counts as equal). *)
Section Sort.
Context {A : Type} (cmp : A → A → num).

Fixpoint sort_insert (x : A) (l : list A) : list A :=
  match l with
  | [] => [x]
  | y :: l' =>
      if Num.gtb (cmp y x) (Fin 0) then x :: y :: l' else y :: sort_insert x l'
  end.

Definition sort (l : list A) : list A :=
  fold_left (λ acc x, sort_insert x acc) l [].

(** [y] may stay before [x]: the comparator does not ask for a swap. *)
Definition stays_before (y x : A) : Prop := Num.gtb (cmp y x) (Fin 0) = false.

End Sort.

(** [arr.slice(0, n)] and [arr.slice(-n)] *)
Definition slice_to {A : Type} (n : nat) (l : list A) : list A := take n l.
Definition slice_last {A : Type} (n : nat) (l : list A) : list A :=
  drop (length l - n) l.

(** [Math.floor] *)
Definition Math_floor (x : num) : num :=
  match x with
  | Fin q => Fin (inject_Z (Qfloor q))
  | _ => x
  end.

(** [arr.slice(0, end)] for a number [end]: it is truncated to an integer,
    [NaN] counts as 0, and a negative [end] counts from the end of the
    array. *)
Definition slice_until {A : Type} (end_ : num) (l : list A) : list A :=
  match end_ with
  | Fin q =>
      let k := (Qnum q ÷ Zpos (Qden q))%Z in
      if (k <? 0)%Z then take (Z.to_nat (Z.of_nat (length l) + k)) l
      else take (Z.to_nat k) l
  | PInf => l
  | NInf | NaN => []
  end.

(** [s.includes(sub)] *)
Definition string_includes (s sub : string) : bool :=
  match String.index 0 sub s with Some _ => true | None => false end.

(** [arr[i]] on an array of numbers used arithmetically: [undefined]
    becomes [NaN]. *)
Definition nth_num (l : list num) (i : nat) : num := default NaN (l !! i).

(** *** Series helpers *)
Section Series.
Local Open Scope num_scope.

(** The loop of [maxDrawdown] with its accumulators [(maxValue, maxDD)]. *)
Definition drawdown_step (acc : num * num) (value : num) : num * num :=
  let '(maxValue, maxDD) := acc in
  let maxValue := if value >? maxValue then value else maxValue in
  let dd := (maxValue - value) / maxValue in
  (maxValue, if dd >? maxDD then dd else maxDD).

Definition maxDrawdown (equity : list num) : num :=
  match equity with
  | [] => $0
  | first :: _ => (fold_left drawdown_step equity (first, $0)).2
  end.

End Series.


End MathUtil.

(** ** [core/types.ts] *)

Inductive OptionType := call | put.
Inductive VolatilityRegime := low | normal | elevated | high | extreme.
Inductive Trend := up | down | sideways.
Inductive FlowDirection := buying | selling | neutral_flow.
Inductive MarketPhase := accumulation | markup | distribution | markdown.
Inductive SignalDirection := long | short | neutral.
Inductive PositionSide := side_long | side_short.
Inductive AttractorType := gamma_max | liquidity_pocket | volume_node.
Inductive GammaFlipType := positive_to_negative | negative_to_positive.
Inductive Urgency := urgency_low | urgency_medium | urgency_high.
Inductive OrderType := order_limit | order_market | order_stop.
Inductive TimeInForce := tif_day | tif_gtc | tif_ioc | tif_fok.
Inductive OutcomeType := positive | negative.

Inductive RegimeType :=
  | trending_bullish
  | trending_bearish
  | range_bound
  | breakout
  | breakdown
  | consolidation
  | high_volatility
  | low_volatility
  | gamma_squeeze
  | mean_reversion.

Inductive StrategyType :=
  | st_gamma_scalp
  | st_momentum_follow
  | st_mean_reversion
  | st_volatility_expansion
  | st_volatility_contraction
  | st_liquidity_hunt
  | st_flow_alignment
  | st_structural_break
  | st_pattern_recognition
  | st_fractal_resonance.

Global Instance VolatilityRegime_eq_dec : EqDecision VolatilityRegime.
Proof. solve_decision. Defined.
Global Instance Trend_eq_dec : EqDecision Trend.
Proof. solve_decision. Defined.
Global Instance FlowDirection_eq_dec : EqDecision FlowDirection.
Proof. solve_decision. Defined.
Global Instance SignalDirection_eq_dec : EqDecision SignalDirection.
Proof. solve_decision. Defined.
Global Instance PositionSide_eq_dec : EqDecision PositionSide.
Proof. solve_decision. Defined.
Global Instance OptionType_eq_dec : EqDecision OptionType.
Proof. solve_decision. Defined.
Global Instance RegimeType_eq_dec : EqDecision RegimeType.
Proof. solve_decision. Defined.
Global Instance OutcomeType_eq_dec : EqDecision OutcomeType.
Proof. solve_decision. Defined.
Global Instance Urgency_eq_dec : EqDecision Urgency.
Proof. solve_decision. Defined.

Module OptionData.
Record t := mk {
  strike : num;
  expiry : num;
  type : OptionType;
  bid : num;
  ask : num;
  last : num;
  volume : num;
  openInterest : num;
  impliedVolatility : num;
  delta : num;
  gamma : num;
  theta : num;
  vega : num;
  rho : num;
}.
End OptionData.

Module GammaSurface.
Record t := mk {
  strikes : list num;
  expiries : list num;
  values : list (list num);
  maxGamma : num;
  minGamma : num;
  netGamma : num;
}.
End GammaSurface.

Module GammaFlip.
Record t := mk {
  price : num;
  strength : num;
  type : GammaFlipType;
  expiry : num;
}.
End GammaFlip.

Module Attractor.
Record t := mk {
  price : num;
  strength : num;
  type : AttractorType;
}.
End Attractor.

Module GravitationalPull.
Record t := mk {
  direction : num;
  magnitude : num;
  attractors : list Attractor.t;
}.
End GravitationalPull.

Module LiquidityLevel.
Record t := mk {
  price : num;
  volume : num;
  is_bid : bool;
  flowRate : num;
  persistence : num;
}.
End LiquidityLevel.

Module LiquidityMap.
Record t := mk {
  levels : list LiquidityLevel.t;
  imbalance : num;
  depth : num;
  absorptionRate : num;
}.
End LiquidityMap.

Module VolatilityState.
Record t := mk {
  regime : VolatilityRegime;
  historicalVol : num;
  impliedVol : num;
  volSpread : num;
  volOfVol : num;
  skew : num;
  term : num;
}.
End VolatilityState.

Module DealerPositioning.
Record t := mk {
  netGammaExposure : num;
  netDeltaExposure : num;
  hedgingPressure : num;
  flowDirection : FlowDirection;
  confidence : num;
}.
End DealerPositioning.

Module PriceHistory.
Record t := mk {
  prices : list num;
  timestamps : list Z;
  momentum : num;
  trend : Trend;
  trendStrength : num;
}.
End PriceHistory.

(** [constraintField] repeats the five components under other names and is
    read nowhere in the modelled code; it is left out of the record. *)
Module StructuralFeatures.
Record t := mk {
  gammaSurface : GammaSurface.t;
  gammaFlips : list GammaFlip.t;
  gammaPull : GravitationalPull.t;
  liquidityMap : LiquidityMap.t;
  volatilityRegime : VolatilityState.t;
  dealerPositioning : DealerPositioning.t;
  priceHistory : PriceHistory.t;
  timestamp : Z;
}.
End StructuralFeatures.

Module RegimeCharacteristics.
Record t := mk {
  volatility : VolatilityRegime;
  trend : Trend;
  momentum : num;
  marketPhase : MarketPhase;
}.
End RegimeCharacteristics.

Module Regime.
Record t := mk {
  type : RegimeType;
  confidence : num;
  duration : nat;
  transitionProbability : num;
  characteristics : RegimeCharacteristics.t;
}.
End Regime.

Module CoherenceComponents.
Record t := mk {
  marketSystemAlignment : num;
  signalConsistency : num;
  timeframeHarmony : num;
  patternRecognition : num;
}.
End CoherenceComponents.

Module CoherenceScore.
Record t := mk {
  total : num;
  confidence : num;
  structural : num;
  regime : num;
  temporal : num;
  fractal : num;
  convergence : num;
  components : CoherenceComponents.t;
}.
End CoherenceScore.

Module StrategyTemplate.
Record t := mk {
  id : string;
  name : string;
  type : StrategyType;
  description : string;
  validRegimes : list RegimeType;
  activationThreshold : num;
  parameters : gmap string num;
  expectedWinRate : num;
  expectedRiskReward : num;
  timeframe : num;
}.
End StrategyTemplate.

Module StrategyPerformance.
Record t := mk {
  totalTrades : num;
  winRate : num;
  profitFactor : num;
  sharpeRatio : num;
  maxDrawdown : num;
  recentPerformance : num;
  adaptationScore : num;
}.
End StrategyPerformance.

Module StructuralContext.
Record t := mk {
  gammaLevel : num;
  liquiditySupport : num;
  volatilityState : VolatilityRegime;
  dealerFlow : FlowDirection;
}.
End StructuralContext.

Module Signal.
Record t := mk {
  id : string;
  strategyId : string;
  timestamp : Z;
  direction : SignalDirection;
  strength : num;
  confidence : num;
  entryPrice : num;
  stopLoss : num;
  targets : list num;
  timeframe : num;
  rationale : string;
  structuralContext : StructuralContext.t;
}.
End Signal.

Module StrategyContext.
Record t := mk {
  structuralFeatures : StructuralFeatures.t;
  regime : Regime.t;
  coherence : CoherenceScore.t;
}.
End StrategyContext.

Module ActiveStrategy.
Record t := mk {
  template : StrategyTemplate.t;
  activationScore : num;
  parameters : gmap string num;
  context : StrategyContext.t;
  currentSignal : option Signal.t;
  performance : StrategyPerformance.t;
  isActive : bool;
}.
End ActiveStrategy.

Module RiskMetrics.
Record t := mk {
  correlation : num;
  gammaExposure : num;
  varContribution : num;
  maxLoss : num;
  marginRequired : num;
}.
End RiskMetrics.

Module ExecutionConstraints.
Record t := mk {
  maxSlippage : num;
  urgency : Urgency;
  orderType : OrderType;
  icebergRatio : num;
  timeInForce : TimeInForce;
}.
End ExecutionConstraints.

Module ApprovedSignal.
Record t := mk {
  originalSignal : Signal.t;
  approvedSize : num;
  riskMetrics : RiskMetrics.t;
  executionConstraints : ExecutionConstraints.t;
  approvalTimestamp : Z;
  riskScore : num;
}.
End ApprovedSignal.

Module Position.
Record t := mk {
  id : string;
  symbol : string;
  side : PositionSide;
  size : num;
  entryPrice : num;
  currentPrice : num;
  unrealizedPnL : num;
  realizedPnL : num;
  stopLoss : num;
  takeProfit : list num;
  entryTime : Z;
  strategyId : string;
}.
End Position.

Module Portfolio.
Record t := mk {
  positions : list Position.t;
  totalValue : num;
  cashBalance : num;
  marginUsed : num;
  marginAvailable : num;
  unrealizedPnL : num;
  realizedPnL : num;
  dailyPnL : num;
  maxDrawdown : num;
  currentDrawdown : num;
}.
End Portfolio.

(** The two structural-features snapshots of a trade outcome are carried
    along unchanged by the pattern store. *)
Module TradeOutcome.
Record t := mk {
  tradeId : string;
  signalId : string;
  strategyId : string;
  entryPrice : num;
  exitPrice : num;
  size : num;
  pnl : num;
  pnlPercent : num;
  holdingPeriod : num;
  maxDrawdown : num;
  maxRunup : num;
  structuralFeaturesAtEntry : StructuralFeatures.t;
  structuralFeaturesAtExit : StructuralFeatures.t;
  wasCorrectDirection : bool;
  executionQuality : num;
  timestamp : Z;
}.
End TradeOutcome.

Module HistoricalPattern.
Record t := mk {
  id : string;
  timestamp : Z;
  structuralFingerprint : list num;
  outcome : TradeOutcome.t;
  regime : Regime.t;
  similarity : num;
}.
End HistoricalPattern.

Module OrderBookLevel.
Record t := mk {
  price : num;
  size : num;
  is_bid : bool;
  orders : num;
}.
End OrderBookLevel.

Module OrderBook.
Record t := mk {
  timestamp : Z;
  bids : list OrderBookLevel.t;
  asks : list OrderBookLevel.t;
  spread : num;
  midPrice : num;
}.
End OrderBook.

Module Trade.
Record t := mk {
  timestamp : Z;
  price : num;
  size : num;
  is_buy : bool;
  exchange : string;
}.
End Trade.

(** ** [core/perception]: gamma surface, gamma flips, gravitational pull *)

Module PerceptionMatrix.
Local Open Scope num_scope.
Import MathUtil.

(** [[...new Set(xs)]]: the distinct values in order of first occurrence;
    a [Set] compares numbers by value and takes [NaN] equal to [NaN]. *)
Definition same_value (x y : num) : bool :=
  (x === y) || (Num.is_nan x && Num.is_nan y).

Fixpoint unique_from (seen xs : list num) : list num :=
  match xs with
  | [] => []
  | x :: xs' =>
      if existsb (same_value x) seen then unique_from seen xs'
      else x :: unique_from (seen ++ [x]) xs'
  end.

Definition unique (xs : list num) : list num := unique_from [] xs.

(** The gamma summed over the options at one strike and expiry, each
    weighted by open interest and 100 shares per contract. *)
Definition cellGamma (optionsChain : list OptionData.t) (strike expiry : num) : num :=
  let options :=
    List.filter (λ o, (OptionData.strike o === strike)
                      && (OptionData.expiry o === expiry)) optionsChain in
  fold_left (λ totalGamma opt,
    let weightedGamma := OptionData.gamma opt * OptionData.openInterest opt * $100 in
    totalGamma + weightedGamma) options $0.

(** The running aggregates of [calculateGammaSurface]:
    [maxGamma], [minGamma], [netGamma]. *)
Definition aggregates : Type := num * num * num.

Definition surfaceRow (optionsChain : list OptionData.t) (strikes : list num)
    (expiry : num) (agg : aggregates) : list num * aggregates :=
  fold_left (λ '(row, (maxGamma, minGamma, netGamma)) strike,
    let totalGamma := cellGamma optionsChain strike expiry in
    (row ++ [totalGamma],
     (if totalGamma >? maxGamma then totalGamma else maxGamma,
      if totalGamma <? minGamma then totalGamma else minGamma,
      netGamma + totalGamma)))
    strikes ([], agg).

Definition calculateGammaSurface (optionsChain : list OptionData.t)
    (spotPrice : num) : GammaSurface.t :=
  (* Get unique strikes and expiries *)
  let strikes := sort (λ a b, a - b) (unique (map OptionData.strike optionsChain)) in
  let expiries := sort (λ a b, a - b) (unique (map OptionData.expiry optionsChain)) in
  (* Build gamma matrix *)
  let '(values, (maxGamma, minGamma, netGamma)) :=
    fold_left (λ '(values, agg) expiry,
      let '(row, agg') := surfaceRow optionsChain strikes expiry agg in
      (values ++ [row], agg'))
      expiries ([], (NInf, PInf, $0)) in
  {| GammaSurface.strikes := strikes;
     GammaSurface.expiries := expiries;
     GammaSurface.values := values;
     GammaSurface.maxGamma := maxGamma;
     GammaSurface.minGamma := minGamma;
     GammaSurface.netGamma := netGamma |}.

(** The rows [values[e]] for [e < expiries.length]; [None] when one is
    missing, where the source throws on [row.length]. *)
Definition surfaceRows (gammaSurface : GammaSurface.t) : option (list (list num)) :=
  mapM (λ e, GammaSurface.values gammaSurface !! e)
       (seq 0 (length (GammaSurface.expiries gammaSurface))).

(** [f(i, l[i])] for every index in order, keeping the results that are
    not [None]. *)
Definition ifilter_map {A B : Type} (f : nat → A → option B) (l : list A) : list B :=
  omap (λ '(i, x), f i x) (imap pair l).

Definition flipsOfRow (gammaSurface : GammaSurface.t) (e : nat) (row : list num)
  : list GammaFlip.t :=
  ifilter_map (λ s currGamma,
    if decide (s = 0%nat) then None
    else
      let prevGamma := nth_num row (s - 1) in
      (* Check for sign change *)
      if prevGamma * currGamma <? $0 then
        let price :=
          (nth_num (GammaSurface.strikes gammaSurface) (s - 1)
           + nth_num (GammaSurface.strikes gammaSurface) s) / $2 in
        let strength := Num.abs (currGamma - prevGamma) in
        let type :=
          if prevGamma >? $0 then positive_to_negative else negative_to_positive in
        Some {| GammaFlip.price := price;
                GammaFlip.strength := strength;
                GammaFlip.type := type;
                GammaFlip.expiry := nth_num (GammaSurface.expiries gammaSurface) e |}
      else None) row.

Definition findGammaFlips (gammaSurface : GammaSurface.t) : option (list GammaFlip.t) :=
  rows ← surfaceRows gammaSurface;
  let flips := concat (imap (flipsOfRow gammaSurface) rows) in
  Some (sort (λ a b, GammaFlip.strength b - GammaFlip.strength a) flips).

(** The attractors found in one row: the cells whose absolute gamma exceeds
    a tenth of the surface's gamma range. *)
Definition attractorsOfRow (gammaSurface : GammaSurface.t) (row : list num)
  : list Attractor.t :=
  ifilter_map (λ s gamma,
    let strike := nth_num (GammaSurface.strikes gammaSurface) s in
    (* Only consider significant gamma concentrations *)
    if Num.abs gamma
       >? Num.abs (GammaSurface.maxGamma gammaSurface
                   - GammaSurface.minGamma gammaSurface) * $0.1
    then Some {| Attractor.price := strike;
                 Attractor.strength := gamma;
                 Attractor.type := gamma_max |}
    else None) row.

(** The loop over the attractors with its accumulators
    [(totalPull, weightedSum)]. *)
Definition netPull (attractors : list Attractor.t) (spotPrice : num) : num * num :=
  fold_left (λ '(totalPull, weightedSum) attractor,
    let distance := Attractor.price attractor - spotPrice in
    if distance !== $0 then
      (* Inverse square law with gamma as mass *)
      let pull := Attractor.strength attractor / (distance * distance) in
      (totalPull + Num.abs pull, weightedSum + pull * Num.sign distance)
    else (totalPull, weightedSum))
    attractors ($0, $0).

Definition calculateGravitationalPull (gammaSurface : GammaSurface.t)
    (spotPrice : num) : option GravitationalPull.t :=
  rows ← surfaceRows gammaSurface;
  (* Find gamma concentrations (attractors) *)
  let attractors := concat (map (attractorsOfRow gammaSurface) rows) in
  (* Calculate net gravitational pull direction and magnitude *)
  let '(totalPull, weightedSum) := netPull attractors spotPrice in
  let direction :=
    if weightedSum >? $0 then $1
    else if weightedSum <? $0 then $(-1) else $0 in
  let magnitude :=
    Num.min2 (Num.abs weightedSum / Num.or_else totalPull $1) $1 in
  Some {| GravitationalPull.direction := direction;
          GravitationalPull.magnitude := magnitude;
          GravitationalPull.attractors := slice_to 10 attractors |}.

(** One entry of [levels]: an order-book level with the flow of the trades
    within 0.1% of its price. *)
Definition liquidityLevel (trades : list Trade.t) (is_bid : bool)
    (level : OrderBookLevel.t) : LiquidityLevel.t :=
  (* Calculate flow rate from recent trades near this level *)
  let nearbyTrades :=
    List.filter (λ t,
      Num.abs (Trade.price t - OrderBookLevel.price level)
      <? OrderBookLevel.price level * $0.001) trades in
  let flowRate := fold_left (λ sum t, sum + Trade.size t) nearbyTrades $0 in
  {| LiquidityLevel.price := OrderBookLevel.price level;
     LiquidityLevel.volume := OrderBookLevel.size level;
     LiquidityLevel.is_bid := is_bid;
     LiquidityLevel.flowRate := flowRate;
     LiquidityLevel.persistence := $1 |}.

(** [levels.reduce((sum, l) => sum + l.size, 0)] *)
Definition totalSize (levels : list OrderBookLevel.t) : num :=
  fold_left (λ sum l, sum + OrderBookLevel.size l) levels $0.

Definition buildLiquidityMap (orderBook : OrderBook.t) (trades : list Trade.t)
  : LiquidityMap.t :=
  (* Process bids, then asks *)
  let levels :=
    map (liquidityLevel trades true) (OrderBook.bids orderBook)
    ++ map (liquidityLevel trades false) (OrderBook.asks orderBook) in
  (* Calculate imbalance *)
  let bidVolume := totalSize (OrderBook.bids orderBook) in
  let askVolume := totalSize (OrderBook.asks orderBook) in
  let totalVolume := bidVolume + askVolume in
  let imbalance :=
    if totalVolume >? $0 then (bidVolume - askVolume) / totalVolume else $0 in
  (* Calculate depth (volume within 1% of mid) *)
  let midPrice := OrderBook.midPrice orderBook in
  let threshold := midPrice * $0.01 in
  let nearBids :=
    List.filter (λ b, midPrice - OrderBookLevel.price b <=? threshold)
      (OrderBook.bids orderBook) in
  let nearAsks :=
    List.filter (λ a, OrderBookLevel.price a - midPrice <=? threshold)
      (OrderBook.asks orderBook) in
  let depth := totalSize nearBids + totalSize nearAsks in
  (* Calculate absorption rate (how quickly liquidity is consumed) *)
  let recentVolume :=
    fold_left (λ sum t, sum + Trade.size t) (slice_last 100 trades) $0 in
  let absorptionRate :=
    if totalVolume >? $0 then recentVolume / totalVolume else $0 in
  {| LiquidityMap.levels := levels;
     LiquidityMap.imbalance := imbalance;
     LiquidityMap.depth := depth;
     LiquidityMap.absorptionRate := absorptionRate |}.

(** *** Vocabulary of the properties *)

(** One step of the aggregates of [calculateGammaSurface]. *)
Definition aggregate_step (agg : aggregates) (totalGamma : num) : aggregates :=
  let '(maxGamma, minGamma, netGamma) := agg in
  (if totalGamma >? maxGamma then totalGamma else maxGamma,
   if totalGamma <? minGamma then totalGamma else minGamma,
   netGamma + totalGamma).

(** The matrix of gamma cells: one row per expiry, one cell per strike. *)
Definition cells (optionsChain : list OptionData.t) (strikes expiries : list num)
  : list (list num) :=
  map (λ expiry, map (λ strike, cellGamma optionsChain strike expiry) strikes) expiries.

(** The size of an order-book level is a number that is not negative. *)
Definition sizeOk (level : OrderBookLevel.t) : Prop :=
  (Fin 0 <=? OrderBookLevel.size level) = true.

(** "The kept attractors are the strongest": no attractor that was found
    and dropped is stronger than one that was kept. *)
Definition keepsStrongest (found kept : list Attractor.t) : Prop :=
  ∀ a b, a ∈ kept → b ∈ found → b ∉ kept →
         (Attractor.strength b >? Attractor.strength a) = false.

(** All the cells over the threshold, in scan order. *)
Definition attractorsFound (gammaSurface : GammaSurface.t) : option (list Attractor.t) :=
  rows ← surfaceRows gammaSurface;
  Some (concat (map (attractorsOfRow gammaSurface) rows)).

End PerceptionMatrix.

(** ** [core/risk-governance]: position sizing, correlation checking and
    kill switch

    The class's private fields are the record [RiskGovernance.t]; a method
    that mutates them returns the new record.  The [console.warn] and
    [console.error] lines have no effect on the fields or results and are not
    modelled.  [Date.now()] is read once per call ([now]). *)

Module RiskLimits.
Record t := mk {
  maxPositionSize : num;
  maxPortfolioRisk : num;
  maxCorrelation : num;
  maxDrawdown : num;
  maxDailyLoss : num;
  maxConcentration : num;
}.
End RiskLimits.

(** The result of [getRiskSummary]. *)
Module RiskSummary.
Record t := mk {
  currentDrawdown : num;
  dailyPnL : num;
  utilizationRate : num;
  riskCapacity : num;
}.
End RiskSummary.

Module RiskGovernance.
Local Open Scope num_scope.
Import MathUtil.

Record t := mk {
  limits : RiskLimits.t;
  killSwitchActive : bool;
  killSwitchReason : string;
  dailyPnL : num;
  peakEquity : num;
}.

Definition defaultLimits : RiskLimits.t :=
  {| RiskLimits.maxPositionSize := $0.1;
     RiskLimits.maxPortfolioRisk := $0.02;
     RiskLimits.maxCorrelation := $0.7;
     RiskLimits.maxDrawdown := $0.15;
     RiskLimits.maxDailyLoss := $0.05;
     RiskLimits.maxConcentration := $0.3 |}.

(** [new RiskGovernance(limits)], with the defaults already merged in. *)
Definition new (limits : RiskLimits.t) : t :=
  mk limits false "" $0 $0.

Definition activateKillSwitch (g : t) (reason : string) : t :=
  mk (limits g) true reason (dailyPnL g) (peakEquity g).

Definition deactivateKillSwitch (g : t) : t :=
  mk (limits g) false "" (dailyPnL g) (peakEquity g).

Definition isKillSwitchActive (g : t) : bool := killSwitchActive g.

Definition updateRiskState (g : t) (portfolio : Portfolio.t) : t :=
  (* Update peak equity *)
  let g1 :=
    if Portfolio.totalValue portfolio >? peakEquity g
    then mk (limits g) (killSwitchActive g) (killSwitchReason g) (dailyPnL g)
            (Portfolio.totalValue portfolio)
    else g in
  (* Check drawdown *)
  let currentDrawdown :=
    (peakEquity g1 - Portfolio.totalValue portfolio) / peakEquity g1 in
  let g2 :=
    if currentDrawdown >? RiskLimits.maxDrawdown (limits g1)
    then activateKillSwitch g1
           ("Max drawdown exceeded: " +:+ toFixed (currentDrawdown * $100) 2 +:+ "%")
    else g1 in
  (* Check daily loss *)
  let g3 :=
    mk (limits g2) (killSwitchActive g2) (killSwitchReason g2)
       (Portfolio.dailyPnL portfolio) (peakEquity g2) in
  if dailyPnL g3 <? - RiskLimits.maxDailyLoss (limits g3) * Portfolio.totalValue portfolio
  then activateKillSwitch g3
         ("Max daily loss exceeded: " +:+ toFixed (dailyPnL g3) 2)
  else g3.

Definition checkGlobalRiskLimits (g : t) (portfolio : Portfolio.t) : bool :=
  if Portfolio.marginAvailable portfolio <? Portfolio.totalValue portfolio * $0.1
  then false
  else
    forallb (λ position,
      let concentration :=
        Num.abs (Position.size position * Position.currentPrice position)
        / Portfolio.totalValue portfolio in
      negb (concentration >? RiskLimits.maxConcentration (limits g)))
      (Portfolio.positions portfolio).

Definition getVolatilityMultiplier (structuralFeatures : StructuralFeatures.t) : num :=
  match VolatilityState.regime (StructuralFeatures.volatilityRegime structuralFeatures) with
  | low => $1.2
  | normal => $1.0
  | elevated => $0.8
  | high => $0.5
  | extreme => $0.25
  end.

Definition calculatePositionSize (g : t) (signal : Signal.t)
    (portfolio : Portfolio.t) (structuralFeatures : StructuralFeatures.t) : num :=
  (* Base size from Kelly criterion *)
  let estimatedWinRate := Signal.confidence signal in
  let avgWin :=
    Num.abs (nth_num (Signal.targets signal) 0 - Signal.entryPrice signal)
    / Signal.entryPrice signal in
  let avgLoss :=
    Num.abs (Signal.entryPrice signal - Signal.stopLoss signal)
    / Signal.entryPrice signal in
  let kellyFraction := kellyCriterion estimatedWinRate avgWin avgLoss in
  let kellyFraction := clamp kellyFraction $0 $0.25 in
  (* Half-Kelly for conservatism *)
  let halfKelly := kellyFraction / $2 in
  (* Adjust for volatility regime *)
  let volMultiplier := getVolatilityMultiplier structuralFeatures in
  (* Calculate position value *)
  let baseSize := Portfolio.totalValue portfolio * halfKelly * volMultiplier in
  (* Apply max position limit *)
  let maxSize :=
    Portfolio.totalValue portfolio * RiskLimits.maxPositionSize (limits g) in
  (* Apply available margin constraint *)
  let marginConstrained :=
    Num.min2 baseSize (Portfolio.marginAvailable portfolio / $0.5) in
  Num.min_list [baseSize; maxSize; marginConstrained].

Definition calculateCorrelationRisk (signal : Signal.t) (portfolio : Portfolio.t) : num :=
  if decide (length (Portfolio.positions portfolio) = 0%nat) then $0
  else
    let sameDirectionPositions :=
      filter (λ p,
        (Position.side p = side_long ∧ Signal.direction signal = long) ∨
        (Position.side p = side_short ∧ Signal.direction signal = short))
        (Portfolio.positions portfolio) in
    let totalSameDirection :=
      fold_left (λ sum p,
        sum + Num.abs (Position.size p * Position.currentPrice p))
        sameDirectionPositions $0 in
    totalSameDirection / Portfolio.totalValue portfolio.

Definition calculateRiskMetrics (signal : Signal.t) (portfolio : Portfolio.t)
  : RiskMetrics.t :=
  let correlationRisk := calculateCorrelationRisk signal portfolio in
  let gammaExposure :=
    StructuralContext.gammaLevel (Signal.structuralContext signal) * $0.01 in
  let signalRisk :=
    Num.abs (Signal.entryPrice signal - Signal.stopLoss signal)
    / Signal.entryPrice signal in
  let varContribution := signalRisk * Signal.confidence signal in
  let maxLoss := signalRisk in
  let marginRequired := Signal.entryPrice signal * $0.5 in
  {| RiskMetrics.correlation := correlationRisk;
     RiskMetrics.gammaExposure := gammaExposure;
     RiskMetrics.varContribution := varContribution;
     RiskMetrics.maxLoss := maxLoss;
     RiskMetrics.marginRequired := marginRequired |}.

Definition determineExecutionConstraints (signal : Signal.t)
    (structuralFeatures : StructuralFeatures.t) : ExecutionConstraints.t :=
  let liquidityMap := StructuralFeatures.liquidityMap structuralFeatures in
  let volatilityRegime := StructuralFeatures.volatilityRegime structuralFeatures in
  let urgency :=
    if (Signal.strength signal >? $0.8)
       && bool_decide (VolatilityState.regime volatilityRegime ≠ extreme)
    then urgency_high
    else if Signal.strength signal >? $0.5 then urgency_medium
    else urgency_low in
  let orderType :=
    if bool_decide (urgency = urgency_high) then order_market
    else if bool_decide (VolatilityState.regime volatilityRegime = high)
            || bool_decide (VolatilityState.regime volatilityRegime = extreme)
    then order_limit
    else order_limit in
  let baseSlippage := $0.001 in
  let volAdjustment := VolatilityState.impliedVol volatilityRegime / $100 in
  let liquidityAdjustment := $1 / (LiquidityMap.depth liquidityMap + $1) in
  let maxSlippage := baseSlippage * ($1 + volAdjustment + liquidityAdjustment) in
  let icebergRatio := if Signal.strength signal >? $0.7 then $0.2 else $0.5 in
  {| ExecutionConstraints.maxSlippage := maxSlippage;
     ExecutionConstraints.urgency := urgency;
     ExecutionConstraints.orderType := orderType;
     ExecutionConstraints.icebergRatio := icebergRatio;
     ExecutionConstraints.timeInForce :=
       if bool_decide (urgency = urgency_high) then tif_ioc else tif_day |}.

Definition calculateRiskScore (riskMetrics : RiskMetrics.t)
    (structuralFeatures : StructuralFeatures.t) : num :=
  let score := $0 in
  let score := score + RiskMetrics.correlation riskMetrics * $0.3 in
  let score := score + Num.abs (RiskMetrics.gammaExposure riskMetrics) * $0.001 * $0.2 in
  let score := score + RiskMetrics.varContribution riskMetrics * $0.3 in
  let volScore :=
    match VolatilityState.regime (StructuralFeatures.volatilityRegime structuralFeatures) with
    | extreme => $1
    | high => $0.7
    | elevated => $0.4
    | _ => $0.2
    end in
  let score := score + volScore * $0.2 in
  clamp score $0 $1.

(** The loop of [applyPortfolioConstraints] over the sorted signals, with
    its accumulators [totalRisk] and [totalMargin]. *)
Fixpoint applyPortfolioConstraints_loop (g : t) (portfolio : Portfolio.t)
    (signals : list ApprovedSignal.t) (totalRisk totalMargin : num)
  : list ApprovedSignal.t :=
  match signals with
  | [] => []
  | signal :: rest =>
      let newTotalRisk :=
        totalRisk + RiskMetrics.varContribution (ApprovedSignal.riskMetrics signal) in
      if newTotalRisk >? RiskLimits.maxPortfolioRisk (limits g)
      then applyPortfolioConstraints_loop g portfolio rest totalRisk totalMargin
      else
        let newMargin :=
          totalMargin + RiskMetrics.marginRequired (ApprovedSignal.riskMetrics signal) in
        if newMargin >? Portfolio.marginAvailable portfolio + Portfolio.marginUsed portfolio
        then applyPortfolioConstraints_loop g portfolio rest totalRisk totalMargin
        else signal :: applyPortfolioConstraints_loop g portfolio rest newTotalRisk newMargin
  end.

Definition applyPortfolioConstraints (g : t) (signals : list ApprovedSignal.t)
    (portfolio : Portfolio.t) : list ApprovedSignal.t :=
  if decide (length signals = 0%nat) then []
  else
    let sorted :=
      sort (λ a b, ApprovedSignal.riskScore a - ApprovedSignal.riskScore b) signals in
    applyPortfolioConstraints_loop g portfolio sorted $0 (Portfolio.marginUsed portfolio).

(** The body of the [for (const signal of signals)] loop of [filterSignals]:
    [None] where the source says [continue].  [now] is the reading of
    [Date.now()] that stamps the approved signal; the source takes one
    reading per approved signal, and [filterSignals] below passes a single
    one, so nothing is said about how the stamps of one call differ. *)
Definition approveSignal (g : t) (portfolio : Portfolio.t)
    (structuralFeatures : StructuralFeatures.t) (now : Z) (signal : Signal.t)
  : option ApprovedSignal.t :=
  let positionSize := calculatePositionSize g signal portfolio structuralFeatures in
  if positionSize <=? $0 then None
  else
    let riskMetrics := calculateRiskMetrics signal portfolio in
    if RiskMetrics.correlation riskMetrics >? RiskLimits.maxCorrelation (limits g)
    then None
    else
      let maxGammaExposure := Portfolio.totalValue portfolio * $0.01 in
      if Num.abs (RiskMetrics.gammaExposure riskMetrics) >? maxGammaExposure
      then None
      else
        let executionConstraints :=
          determineExecutionConstraints signal structuralFeatures in
        let riskScore := calculateRiskScore riskMetrics structuralFeatures in
        Some {| ApprovedSignal.originalSignal := signal;
                ApprovedSignal.approvedSize := positionSize;
                ApprovedSignal.riskMetrics := riskMetrics;
                ApprovedSignal.executionConstraints := executionConstraints;
                ApprovedSignal.approvalTimestamp := now;
                ApprovedSignal.riskScore := riskScore |}.

Definition filterSignals (g : t) (signals : list Signal.t)
    (portfolio : Portfolio.t) (structuralFeatures : StructuralFeatures.t)
    (now : Z) : t * list ApprovedSignal.t :=
  (* Check kill switch first *)
  if killSwitchActive g then (g, [])
  else
    (* Update risk state *)
    let g' := updateRiskState g portfolio in
    (* Check global risk limits *)
    if negb (checkGlobalRiskLimits g' portfolio) then (g', [])
    else
      let approved :=
        omap (approveSignal g' portfolio structuralFeatures now) signals in
      (* Apply portfolio-level constraints *)
      (g', applyPortfolioConstraints g' approved portfolio).

Definition resetDailyRisk (g : t) : t :=
  let g' := mk (limits g) (killSwitchActive g) (killSwitchReason g) $0 (peakEquity g) in
  if string_includes (killSwitchReason g') "daily loss"
  then deactivateKillSwitch g'
  else g'.

Definition getKillSwitchReason (g : t) : string := killSwitchReason g.

Definition getRiskSummary (g : t) (portfolio : Portfolio.t) : RiskSummary.t :=
  let currentDrawdown :=
    if peakEquity g >? $0
    then (peakEquity g - Portfolio.totalValue portfolio) / peakEquity g
    else $0 in
  let utilizationRate :=
    Portfolio.marginUsed portfolio
    / (Portfolio.marginUsed portfolio + Portfolio.marginAvailable portfolio) in
  let riskCapacity := $1 - currentDrawdown / RiskLimits.maxDrawdown (limits g) in
  {| RiskSummary.currentDrawdown := currentDrawdown;
     RiskSummary.dailyPnL := dailyPnL g;
     RiskSummary.utilizationRate := utilizationRate;
     RiskSummary.riskCapacity := riskCapacity |}.

(** *** Vocabulary of the properties *)

(** The drawdown from the running peak that [updateRiskState] compares with
    [maxDrawdown]; the peak is raised to the portfolio value first. *)
Definition drawdownSeen (g : t) (portfolio : Portfolio.t) : num :=
  let peak :=
    if Portfolio.totalValue portfolio >? peakEquity g
    then Portfolio.totalValue portfolio else peakEquity g in
  (peak - Portfolio.totalValue portfolio) / peak.

Definition drawdownBreached (g : t) (portfolio : Portfolio.t) : bool :=
  drawdownSeen g portfolio >? RiskLimits.maxDrawdown (limits g).

Definition dailyLossBreached (g : t) (portfolio : Portfolio.t) : bool :=
  Portfolio.dailyPnL portfolio
  <? - RiskLimits.maxDailyLoss (limits g) * Portfolio.totalValue portfolio.





(** The totals that the loop of [applyPortfolioConstraints] has reached
    after approving the signals of [approved]: [totalRisk] starts at 0 and
    [totalMargin] at the margin in use. *)
Definition riskTaken (approved : list ApprovedSignal.t) : num :=
  fold_left (λ totalRisk signal,
    totalRisk + RiskMetrics.varContribution (ApprovedSignal.riskMetrics signal))
    approved $0.

Definition marginTaken (portfolio : Portfolio.t) (approved : list ApprovedSignal.t) : num :=
  fold_left (λ totalMargin signal,
    totalMargin + RiskMetrics.marginRequired (ApprovedSignal.riskMetrics signal))
    approved (Portfolio.marginUsed portfolio).

End RiskGovernance.

(** ** [core/execution]: orders and their simulated execution

    The identifier of a new order ([uuidv4()]), the clock readings and the
    draws of [Math.random()] are arguments.  The simulated latency of
    [simulateExecution] delays the result and does not change it. *)

Inductive OrderStatus :=
  | status_pending
  | status_submitted
  | status_partial
  | status_filled
  | status_cancelled
  | status_rejected.

Inductive OrderSide := side_buy | side_sell.

Inductive OrderKind := kind_limit | kind_market | kind_stop | kind_stop_limit.

Global Instance OrderStatus_eq_dec : EqDecision OrderStatus.
Proof. solve_decision. Defined.
Global Instance OrderSide_eq_dec : EqDecision OrderSide.
Proof. solve_decision. Defined.
Global Instance OrderKind_eq_dec : EqDecision OrderKind.
Proof. solve_decision. Defined.

Module Order.
Record t := mk {
  id : string;
  signalId : string;
  symbol : string;
  side : OrderSide;
  type : OrderKind;
  size : num;
  price : num;
  stopPrice : option num;
  status : OrderStatus;
  filledSize : num;
  avgFillPrice : num;
  submittedAt : Z;
  filledAt : option Z;
  fees : num;
}.
End Order.

Module ExecutionEngine.
Local Open Scope num_scope.

(** The order type of the execution constraints as an order's [type]. *)
Definition orderKind (orderType : OrderType) : OrderKind :=
  match orderType with
  | order_limit => kind_limit
  | order_market => kind_market
  | order_stop => kind_stop
  end.

Definition createOrder (signal : ApprovedSignal.t) (id : string) (now : Z) : Order.t :=
  let originalSignal := ApprovedSignal.originalSignal signal in
  let approvedSize := ApprovedSignal.approvedSize signal in
  let executionConstraints := ApprovedSignal.executionConstraints signal in
  {| Order.id := id;
     Order.signalId := Signal.id originalSignal;
     Order.symbol := "SPY";
     Order.side :=
       if bool_decide (Signal.direction originalSignal = long) then side_buy else side_sell;
     Order.type := orderKind (ExecutionConstraints.orderType executionConstraints);
     Order.size := approvedSize / Signal.entryPrice originalSignal;
     Order.price := Signal.entryPrice originalSignal;
     Order.stopPrice := None;
     Order.status := status_pending;
     Order.filledSize := $0;
     Order.avgFillPrice := $0;
     Order.submittedAt := now;
     Order.filledAt := None;
     Order.fees := $0 |}.

Definition simulateFillRate (order : Order.t) (signal : ApprovedSignal.t)
    (randomFactor : num) : num :=
  (* Market orders always fill *)
  if bool_decide (Order.type order = kind_market) then $1
  else
    let urgency :=
      ExecutionConstraints.urgency (ApprovedSignal.executionConstraints signal) in
    (* Higher urgency = more aggressive pricing = higher fill rate *)
    if bool_decide (urgency = urgency_high) then
      if randomFactor >? $0.1 then $1 else $0.8
    else if bool_decide (urgency = urgency_medium) then
      if randomFactor >? $0.2 then $1 else if randomFactor >? $0.4 then $0.7 else $0
    else
      if randomFactor >? $0.4 then $1 else if randomFactor >? $0.6 then $0.5 else $0.

Definition simulateExecution (order : Order.t) (signal : ApprovedSignal.t)
    (predictedSlippage randomFill randomSlippage : num) (now : Z) : Order.t :=
  (* Simulate fill based on order type *)
  let fillRate := simulateFillRate order signal randomFill in
  if fillRate === $0 then
    {| Order.id := Order.id order;
       Order.signalId := Order.signalId order;
       Order.symbol := Order.symbol order;
       Order.side := Order.side order;
       Order.type := Order.type order;
       Order.size := Order.size order;
       Order.price := Order.price order;
       Order.stopPrice := Order.stopPrice order;
       Order.status := status_cancelled;
       Order.filledSize := Order.filledSize order;
       Order.avgFillPrice := Order.avgFillPrice order;
       Order.submittedAt := Order.submittedAt order;
       Order.filledAt := Order.filledAt order;
       Order.fees := Order.fees order |}
  else
    (* Calculate fill price with slippage *)
    let slippageDirection :=
      if bool_decide (Order.side order = side_buy) then $1 else $(-1) in
    let actualSlippage := predictedSlippage * ($0.5 + randomSlippage) in
    let fillPrice := Order.price order * ($1 + slippageDirection * actualSlippage) in
    (* Calculate fees (simplified) *)
    let fees := Order.size order * fillPrice * $0.0001 in
    {| Order.id := Order.id order;
       Order.signalId := Order.signalId order;
       Order.symbol := Order.symbol order;
       Order.side := Order.side order;
       Order.type := Order.type order;
       Order.size := Order.size order;
       Order.price := Order.price order;
       Order.stopPrice := Order.stopPrice order;
       Order.status := if fillRate === $1 then status_filled else status_partial;
       Order.filledSize := Order.size order * fillRate;
       Order.avgFillPrice := fillPrice;
       Order.submittedAt := Order.submittedAt order;
       Order.filledAt := Some now;
       Order.fees := fees |}.

Definition calculateActualSlippage (originalOrder executedOrder : Order.t) : num :=
  if Order.filledSize executedOrder === $0 then $0
  else
    let slippage :=
      (Order.avgFillPrice executedOrder - Order.price originalOrder)
      / Order.price originalOrder in
    (* Adjust sign based on side *)
    if bool_decide (Order.side originalOrder = side_buy) then slippage else - slippage.

End ExecutionEngine.

(** ** JavaScript [Map]

    A [Map] iterates in insertion order and [set] on a present key keeps the
    key's place; it is modelled as an association list with distinct keys. *)

Module JSMap.
Section Ops.
Context {K V : Type} `{EqDecision K}.

Definition t : Type := list (K * V).

Definition empty : t := [].

Fixpoint get (m : t) (k : K) : option V :=
  match m with
  | [] => None
  | (k', v) :: m' => if decide (k = k') then Some v else get m' k
  end.

Fixpoint set (m : t) (k : K) (v : V) : t :=
  match m with
  | [] => [(k, v)]
  | (k', v') :: m' =>
      if decide (k = k') then (k, v) :: m' else (k', v') :: set m' k v
  end.

Fixpoint delete (m : t) (k : K) : t :=
  match m with
  | [] => []
  | (k', v') :: m' =>
      if decide (k = k') then m' else (k', v') :: delete m' k
  end.

Definition size (m : t) : nat := length m.
Definition entries (m : t) : list (K * V) := m.
Definition keys (m : t) : list K := map fst m.
Definition values (m : t) : list V := map snd m.

End Ops.
Global Arguments t : clear implicits.
End JSMap.

(** ** [core/strategy-pool]: templates, their activation and their signals *)

Module StrategyPool.
Local Open Scope num_scope.

(** [if (params[key]) params[key] *= volMultiplier]: an absent key reads as
    [undefined] and a zero or [NaN] value is falsy; both leave the map as it
    is. *)
Definition scaleParameter (key : string) (volMultiplier : num)
    (params : gmap string num) : gmap string num :=
  match params !! key with
  | Some v => if Num.truthy v then <[key := v * volMultiplier]> params else params
  | None => params
  end.

Definition adaptParameters (template : StrategyTemplate.t) (regime : Regime.t)
  : gmap string num :=
  let params := StrategyTemplate.parameters template in
  (* Adjust based on volatility *)
  let volatility := RegimeCharacteristics.volatility (Regime.characteristics regime) in
  let volMultiplier :=
    if bool_decide (volatility = high) || bool_decide (volatility = extreme)
    then $1.5
    else if bool_decide (volatility = low) then $0.7
    else $1.0 in
  (* Widen stops in high vol *)
  let params := scaleParameter "stopLoss" volMultiplier params in
  let params := scaleParameter "trailingStop" volMultiplier params in
  (* Adjust targets *)
  let params := scaleParameter "targetProfit" volMultiplier params in
  params.

(** Two of the default templates of [initializeDefaultTemplates]. *)
Definition gamma_scalp_v1 : StrategyTemplate.t :=
  {| StrategyTemplate.id := "gamma_scalp_v1";
     StrategyTemplate.name := "Gamma Scalp";
     StrategyTemplate.type := st_gamma_scalp;
     StrategyTemplate.description :=
       "Scalp around gamma flip levels exploiting dealer hedging";
     StrategyTemplate.validRegimes := [range_bound; low_volatility; consolidation];
     StrategyTemplate.activationThreshold := $0.6;
     StrategyTemplate.parameters :=
       <["minGammaConcentration" := $0.3]>
       (<["maxHoldingPeriod" := $30]>
       (<["targetProfit" := $0.005]>
       (<["stopLoss" := $0.003]> ∅)));
     StrategyTemplate.expectedWinRate := $0.55;
     StrategyTemplate.expectedRiskReward := $1.5;
     StrategyTemplate.timeframe := $5 |}.

Definition momentum_follow_v1 : StrategyTemplate.t :=
  {| StrategyTemplate.id := "momentum_follow_v1";
     StrategyTemplate.name := "Momentum Follow";
     StrategyTemplate.type := st_momentum_follow;
     StrategyTemplate.description :=
       "Follow strong momentum with trend confirmation";
     StrategyTemplate.validRegimes :=
       [trending_bullish; trending_bearish; breakout; breakdown];
     StrategyTemplate.activationThreshold := $0.65;
     StrategyTemplate.parameters :=
       <["minMomentum" := $0.015]>
       (<["minTrendStrength" := $0.5]>
       (<["trailingStop" := $0.02]>
       (<["targetMultiple" := $2.5]> ∅)));
     StrategyTemplate.expectedWinRate := $0.45;
     StrategyTemplate.expectedRiskReward := $2.5;
     StrategyTemplate.timeframe := $15 |}.

(** *** The pool, activation scores and signal generation

    [uuidv4()] and [Date.now()] are inputs of [generateSignal];
    [activateStrategies] takes them per template, by the position of the
    template in [templates.values()]. *)

Record t := mk {
  templates : JSMap.t string StrategyTemplate.t;
  activeStrategies : JSMap.t string ActiveStrategy.t;
  performanceHistory : JSMap.t string (list StrategyPerformance.t);
}.

(** [template.parameters.key] read as a number: a missing key is
    [undefined], which compares and multiplies as [NaN]. *)
Definition parameter (template : StrategyTemplate.t) (key : string) : num :=
  default NaN (StrategyTemplate.parameters template !! key).

(** [parameters.key ?? fallback] *)
Definition parameterOr (parameters : gmap string num) (key : string)
    (fallback : num) : num :=
  default fallback (parameters !! key).

(** [features.priceHistory.prices[features.priceHistory.prices.length - 1] ?? 0] *)
Definition latestPrice (features : StructuralFeatures.t) : num :=
  default $0 (last (PriceHistory.prices (StructuralFeatures.priceHistory features))).

Definition getLatestPerformance (pool : t) (strategyId : string)
  : StrategyPerformance.t :=
  let history := default [] (JSMap.get (performanceHistory pool) strategyId) in
  match last history with
  | None =>
      {| StrategyPerformance.totalTrades := $0;
         StrategyPerformance.winRate := $0.5;
         StrategyPerformance.profitFactor := $1;
         StrategyPerformance.sharpeRatio := $0;
         StrategyPerformance.maxDrawdown := $0;
         StrategyPerformance.recentPerformance := $0;
         StrategyPerformance.adaptationScore := $0.5 |}
  | Some performance => performance
  end.

Definition updatePerformance (pool : t) (strategyId : string)
    (performance : StrategyPerformance.t) : t :=
  let history := default [] (JSMap.get (performanceHistory pool) strategyId) in
  let history := history ++ [performance] in
  let history := if decide (100 < length history)%nat then drop 1 history else history in
  mk (templates pool) (activeStrategies pool)
     (JSMap.set (performanceHistory pool) strategyId history).

Definition getTemplate (pool : t) (id : string) : option StrategyTemplate.t :=
  JSMap.get (templates pool) id.

Definition getAllTemplates (pool : t) : list StrategyTemplate.t :=
  JSMap.values (templates pool).

Definition getActiveStrategies (pool : t) : list ActiveStrategy.t :=
  JSMap.values (activeStrategies pool).

Definition addTemplate (pool : t) (template : StrategyTemplate.t) : t :=
  mk (JSMap.set (templates pool) (StrategyTemplate.id template) template)
     (activeStrategies pool)
     (JSMap.set (performanceHistory pool) (StrategyTemplate.id template) []).

Definition removeTemplate (pool : t) (id : string) : t :=
  mk (JSMap.delete (templates pool) id)
     (JSMap.delete (activeStrategies pool) id)
     (JSMap.delete (performanceHistory pool) id).

Definition scoreGammaScalp (template : StrategyTemplate.t)
    (features : StructuralFeatures.t) : num :=
  let gammaPull := StructuralFeatures.gammaPull features in
  let gammaFlips := StructuralFeatures.gammaFlips features in
  let score := $0 in
  (* Strong gamma concentration nearby *)
  let score :=
    if GravitationalPull.magnitude gammaPull >? parameter template "minGammaConcentration"
    then score + $0.3 else score in
  (* Gamma flip level nearby (within 1%) *)
  let latestPrice := latestPrice features in
  let nearbyFlip :=
    List.find (λ f, Num.abs (GammaFlip.price f - latestPrice) / latestPrice <? $0.01)
      gammaFlips in
  let score := match nearbyFlip with Some _ => score + $0.2 | None => score end in
  score.

Definition scoreMomentumFollow (template : StrategyTemplate.t)
    (features : StructuralFeatures.t) : num :=
  let priceHistory := StructuralFeatures.priceHistory features in
  let score := $0 in
  let score :=
    if Num.abs (PriceHistory.momentum priceHistory) >? parameter template "minMomentum"
    then score + $0.25 else score in
  let score :=
    if PriceHistory.trendStrength priceHistory >? parameter template "minTrendStrength"
    then score + $0.25 else score in
  score.

Definition scoreMeanReversion (template : StrategyTemplate.t)
    (features : StructuralFeatures.t) : num :=
  let priceHistory := StructuralFeatures.priceHistory features in
  let volatilityRegime := StructuralFeatures.volatilityRegime features in
  let score := $0 in
  (* High volatility but low momentum = mean reversion setup *)
  let score :=
    if (VolatilityState.impliedVol volatilityRegime >? $25)
       && (Num.abs (PriceHistory.momentum priceHistory) <? $0.01)
    then score + $0.3 else score in
  (* Price away from mean *)
  let score :=
    if PriceHistory.trendStrength priceHistory >? $0.6 then score + $0.2 else score in
  score.

Definition scoreVolatilityExpansion (template : StrategyTemplate.t)
    (features : StructuralFeatures.t) : num :=
  let volatilityRegime := StructuralFeatures.volatilityRegime features in
  let score := $0 in
  (* IV expanding vs HV *)
  let score :=
    if VolatilityState.volSpread volatilityRegime >? $5 then score + $0.25 else score in
  (* Vol of vol high *)
  let score :=
    if VolatilityState.volOfVol volatilityRegime >? $0.2 then score + $0.25 else score in
  score.

Definition scoreVolatilityContraction (template : StrategyTemplate.t)
    (features : StructuralFeatures.t) : num :=
  let volatilityRegime := StructuralFeatures.volatilityRegime features in
  let score := $0 in
  (* Low IV *)
  let score :=
    if VolatilityState.impliedVol volatilityRegime
       <? parameter template "maxImpliedVol" * $100
    then score + $0.3 else score in
  (* IV below HV *)
  let score :=
    if VolatilityState.volSpread volatilityRegime <? $0 then score + $0.2 else score in
  score.

Definition scoreLiquidityHunt (template : StrategyTemplate.t)
    (features : StructuralFeatures.t) : num :=
  let liquidityMap := StructuralFeatures.liquidityMap features in
  let score := $0 in
  (* Strong liquidity imbalance *)
  let score :=
    if Num.abs (LiquidityMap.imbalance liquidityMap) >? $0.3
    then score + $0.25 else score in
  (* Price approaching liquidity pocket *)
  let latestPrice := latestPrice features in
  let nearbyLiquidity :=
    List.find
      (λ l, (LiquidityLevel.volume l >? parameter template "minLiquidityPocket")
            && (Num.abs (LiquidityLevel.price l - latestPrice) / latestPrice
                <? parameter template "proximityThreshold"))
      (LiquidityMap.levels liquidityMap) in
  let score := match nearbyLiquidity with Some _ => score + $0.25 | None => score end in
  score.

Definition scoreFlowAlignment (template : StrategyTemplate.t)
    (features : StructuralFeatures.t) : num :=
  let dealerPositioning := StructuralFeatures.dealerPositioning features in
  let gammaSurface := StructuralFeatures.gammaSurface features in
  let score := $0 in
  (* Strong dealer hedging flow *)
  let score :=
    if Num.abs (DealerPositioning.hedgingPressure dealerPositioning)
       >? parameter template "minFlowStrength"
    then score + $0.25 else score in
  (* Significant gamma exposure *)
  let score :=
    if Num.abs (GammaSurface.netGamma gammaSurface) >? parameter template "gammaThreshold"
    then score + $0.25 else score in
  score.

Definition scoreStructuralBreak (template : StrategyTemplate.t)
    (features : StructuralFeatures.t) : num :=
  let priceHistory := StructuralFeatures.priceHistory features in
  let volatilityRegime := StructuralFeatures.volatilityRegime features in
  let score := $0 in
  (* Strong trend *)
  let score :=
    if PriceHistory.trendStrength priceHistory >? parameter template "minBreakStrength"
    then score + $0.25 else score in
  (* Volatility expanding *)
  let score :=
    if VolatilityState.volOfVol volatilityRegime >? $0.2 then score + $0.25 else score in
  score.

Definition scorePatternRecognition (template : StrategyTemplate.t)
    (features : StructuralFeatures.t) : num :=
  $0.25.

Definition scoreFractalResonance (template : StrategyTemplate.t)
    (features : StructuralFeatures.t) (coherence : CoherenceScore.t) : num :=
  let score := $0 in
  (* Temporal coherence high = timeframe alignment *)
  let score :=
    if CoherenceScore.temporal coherence >? parameter template "resonanceThreshold"
    then score + $0.3 else score in
  (* Fractal similarity high *)
  let score :=
    if CoherenceScore.fractal coherence >? parameter template "resonanceThreshold"
    then score + $0.2 else score in
  score.

Definition calculateActivationScore (pool : t) (template : StrategyTemplate.t)
    (structuralFeatures : StructuralFeatures.t) (regime : Regime.t)
    (coherence : CoherenceScore.t) : num :=
  let score := $0 in
  (* Base score from regime match *)
  let score := score + Regime.confidence regime * $0.3 in
  (* Coherence contribution *)
  let score := score + CoherenceScore.total coherence * $0.2 in
  (* Strategy-specific conditions *)
  let score :=
    score +
    match StrategyTemplate.type template with
    | st_gamma_scalp => scoreGammaScalp template structuralFeatures
    | st_momentum_follow => scoreMomentumFollow template structuralFeatures
    | st_mean_reversion => scoreMeanReversion template structuralFeatures
    | st_volatility_expansion => scoreVolatilityExpansion template structuralFeatures
    | st_volatility_contraction => scoreVolatilityContraction template structuralFeatures
    | st_liquidity_hunt => scoreLiquidityHunt template structuralFeatures
    | st_flow_alignment => scoreFlowAlignment template structuralFeatures
    | st_structural_break => scoreStructuralBreak template structuralFeatures
    | st_pattern_recognition => scorePatternRecognition template structuralFeatures
    | st_fractal_resonance => scoreFractalResonance template structuralFeatures coherence
    end in
  (* Recent performance adjustment *)
  let performance := getLatestPerformance pool (StrategyTemplate.id template) in
  let score := score + StrategyPerformance.recentPerformance performance * $0.1 in
  MathUtil.clamp score $0 $1.

Definition directionName (direction : SignalDirection) : string :=
  match direction with
  | long => "long"
  | short => "short"
  | neutral => "neutral"
  end.

Definition generateSignal (strategy : ActiveStrategy.t)
    (features : StructuralFeatures.t) (id : string) (now : Z) : option Signal.t :=
  let template := ActiveStrategy.template strategy in
  let parameters := ActiveStrategy.parameters strategy in
  let context := ActiveStrategy.context strategy in
  let latestPrice := latestPrice features in
  if latestPrice === $0 then None
  else
    let idle : SignalDirection * num * num * list num := (neutral, $0, $0, []) in
    let '(direction, strength, stopLoss, targets) :=
      match StrategyTemplate.type template with
      | st_gamma_scalp =>
          let gammaPull := StructuralFeatures.gammaPull features in
          if (GravitationalPull.direction gammaPull >? $0)
             && (GravitationalPull.magnitude gammaPull >? $0.3)
          then
            (long, GravitationalPull.magnitude gammaPull,
             latestPrice * ($1 - parameterOr parameters "stopLoss" $0.003),
             [latestPrice * ($1 + parameterOr parameters "targetProfit" $0.005)])
          else if (GravitationalPull.direction gammaPull <? $0)
                  && (GravitationalPull.magnitude gammaPull >? $0.3)
          then
            (short, GravitationalPull.magnitude gammaPull,
             latestPrice * ($1 + parameterOr parameters "stopLoss" $0.003),
             [latestPrice * ($1 - parameterOr parameters "targetProfit" $0.005)])
          else idle
      | st_momentum_follow =>
          let priceHistory := StructuralFeatures.priceHistory features in
          if PriceHistory.momentum priceHistory
             >? parameterOr parameters "minMomentum" $0.015
          then
            let targetDist :=
              parameterOr parameters "targetMultiple" $2.5
              * parameterOr parameters "trailingStop" $0.02 in
            (long, Num.min2 (PriceHistory.momentum priceHistory * $20) $1,
             latestPrice * ($1 - parameterOr parameters "trailingStop" $0.02),
             [latestPrice * ($1 + targetDist)])
          else if PriceHistory.momentum priceHistory
                  <? - parameterOr parameters "minMomentum" $0.015
          then
            let targetDist :=
              parameterOr parameters "targetMultiple" $2.5
              * parameterOr parameters "trailingStop" $0.02 in
            (short, Num.min2 (- PriceHistory.momentum priceHistory * $20) $1,
             latestPrice * ($1 + parameterOr parameters "trailingStop" $0.02),
             [latestPrice * ($1 - targetDist)])
          else idle
      | st_mean_reversion =>
          let priceHistory := StructuralFeatures.priceHistory features in
          (* Simplified mean reversion logic *)
          if PriceHistory.trendStrength priceHistory >? $0.6 then
            let direction :=
              if bool_decide (PriceHistory.trend priceHistory = up) then short else long in
            let strength := PriceHistory.trendStrength priceHistory * $0.8 in
            let stopMult := parameterOr parameters "stopLossMultiple" $1.5 in
            if bool_decide (direction = long) then
              (direction, strength, latestPrice * ($1 - $0.02 * stopMult),
               [latestPrice * $1.01; latestPrice * $1.02])
            else
              (direction, strength, latestPrice * ($1 + $0.02 * stopMult),
               [latestPrice * $0.99; latestPrice * $0.98])
          else idle
      | st_flow_alignment =>
          let dealerPositioning := StructuralFeatures.dealerPositioning features in
          if bool_decide (DealerPositioning.flowDirection dealerPositioning = buying)
             && (DealerPositioning.confidence dealerPositioning >? $0.5)
          then
            (long, DealerPositioning.confidence dealerPositioning,
             latestPrice * $0.98, [latestPrice * $1.02; latestPrice * $1.04])
          else if bool_decide (DealerPositioning.flowDirection dealerPositioning = selling)
                  && (DealerPositioning.confidence dealerPositioning >? $0.5)
          then
            (short, DealerPositioning.confidence dealerPositioning,
             latestPrice * $1.02, [latestPrice * $0.98; latestPrice * $0.96])
          else idle
      | _ =>
          (* Generic signal based on regime and trend *)
          let regime := StrategyContext.regime context in
          if bool_decide (RegimeCharacteristics.trend (Regime.characteristics regime) = up)
             && (Regime.confidence regime >? $0.6)
          then
            (long, Regime.confidence regime * $0.7, latestPrice * $0.97,
             [latestPrice * $1.02])
          else if bool_decide
                    (RegimeCharacteristics.trend (Regime.characteristics regime) = down)
                  && (Regime.confidence regime >? $0.6)
          then
            (short, Regime.confidence regime * $0.7, latestPrice * $1.03,
             [latestPrice * $0.98])
          else idle
      end in
    if bool_decide (direction = neutral) || (strength <? $0.3) then None
    else
      Some
        {| Signal.id := id;
           Signal.strategyId := StrategyTemplate.id template;
           Signal.timestamp := now;
           Signal.direction := direction;
           Signal.strength := strength;
           Signal.confidence := ActiveStrategy.activationScore strategy;
           Signal.entryPrice := latestPrice;
           Signal.stopLoss := stopLoss;
           Signal.targets := targets;
           Signal.timeframe := StrategyTemplate.timeframe template;
           Signal.rationale :=
             StrategyTemplate.name template +:+ " signal: " +:+ directionName direction
             +:+ " with strength " +:+ toFixed strength 2;
           Signal.structuralContext :=
             {| StructuralContext.gammaLevel :=
                  GammaSurface.netGamma (StructuralFeatures.gammaSurface features);
                StructuralContext.liquiditySupport :=
                  LiquidityMap.depth (StructuralFeatures.liquidityMap features);
                StructuralContext.volatilityState :=
                  VolatilityState.regime (StructuralFeatures.volatilityRegime features);
                StructuralContext.dealerFlow :=
                  DealerPositioning.flowDirection
                    (StructuralFeatures.dealerPositioning features) |} |}.

(** One pass of the loop of [activateStrategies] over the template at
    position [i]. *)
Definition activateTemplate (structuralFeatures : StructuralFeatures.t)
    (regime : Regime.t) (coherence : CoherenceScore.t)
    (uuid : nat → string) (clock : nat → Z)
    (state : t * list ActiveStrategy.t) (entry : nat * StrategyTemplate.t)
  : t * list ActiveStrategy.t :=
  let '(pool, active) := state in
  let '(i, template) := entry in
  (* Check if strategy is valid for current regime *)
  if negb (bool_decide (Regime.type regime ∈ StrategyTemplate.validRegimes template))
  then (pool, active)
  else
    (* Calculate activation score *)
    let activationScore :=
      calculateActivationScore pool template structuralFeatures regime coherence in
    (* Apply confidence threshold *)
    if activationScore >=? StrategyTemplate.activationThreshold template then
      let performance := getLatestPerformance pool (StrategyTemplate.id template) in
      let activeStrategy :=
        {| ActiveStrategy.template := template;
           ActiveStrategy.activationScore := activationScore;
           ActiveStrategy.parameters := adaptParameters template regime;
           ActiveStrategy.context :=
             {| StrategyContext.structuralFeatures := structuralFeatures;
                StrategyContext.regime := regime;
                StrategyContext.coherence := coherence |};
           ActiveStrategy.currentSignal := None;
           ActiveStrategy.performance := performance;
           ActiveStrategy.isActive := true |} in
      (* Generate signal for this strategy *)
      let activeStrategy :=
        {| ActiveStrategy.template := ActiveStrategy.template activeStrategy;
           ActiveStrategy.activationScore := ActiveStrategy.activationScore activeStrategy;
           ActiveStrategy.parameters := ActiveStrategy.parameters activeStrategy;
           ActiveStrategy.context := ActiveStrategy.context activeStrategy;
           ActiveStrategy.currentSignal :=
             generateSignal activeStrategy structuralFeatures (uuid i) (clock i);
           ActiveStrategy.performance := ActiveStrategy.performance activeStrategy;
           ActiveStrategy.isActive := ActiveStrategy.isActive activeStrategy |} in
      (mk (templates pool)
          (JSMap.set (activeStrategies pool) (StrategyTemplate.id template) activeStrategy)
          (performanceHistory pool),
       active ++ [activeStrategy])
    else (pool, active).

Definition activateStrategies (pool : t) (structuralFeatures : StructuralFeatures.t)
    (regime : Regime.t) (coherence : CoherenceScore.t)
    (uuid : nat → string) (clock : nat → Z) : t * list ActiveStrategy.t :=
  let '(pool, active) :=
    fold_left (activateTemplate structuralFeatures regime coherence uuid clock)
      (imap pair (JSMap.values (templates pool))) (pool, []) in
  (* Sort by activation score *)
  let active :=
    MathUtil.sort
      (λ a b, ActiveStrategy.activationScore b - ActiveStrategy.activationScore a)
      active in
  (* Limit number of active strategies based on coherence *)
  let maxActive :=
    Num.min2 $10 (MathUtil.Math_floor (CoherenceScore.confidence coherence * $20)) in
  (pool, MathUtil.slice_until maxActive active).

(** *** Vocabulary of the properties *)

(** The multiplier table of the claim (the one [RiskGovernance] uses for
    position sizes). *)
Definition claimedMultiplier (volatility : VolatilityRegime) : num :=
  match volatility with
  | low => $1.2
  | normal => $1.0
  | elevated => $0.8
  | high => $0.5
  | extreme => $0.25
  end.

(** The multiplier [adaptParameters] applies. *)
Definition stopMultiplier (volatility : VolatilityRegime) : num :=
  match volatility with
  | high | extreme => $1.5
  | low => $0.7
  | normal | elevated => $1.0
  end.

Definition adaptedKeys : list string := ["stopLoss"; "trailingStop"; "targetProfit"].

(** What the loop of [activateStrategies] establishes for each strategy it
    collects. *)
Definition activatedBy (pool : t) (structuralFeatures : StructuralFeatures.t)
    (regime : Regime.t) (coherence : CoherenceScore.t)
    (uuid : nat → string) (clock : nat → Z) (strategy : ActiveStrategy.t) : Prop :=
  let template := ActiveStrategy.template strategy in
  template ∈ getAllTemplates pool ∧
  Regime.type regime ∈ StrategyTemplate.validRegimes template ∧
  ActiveStrategy.activationScore strategy
  = calculateActivationScore pool template structuralFeatures regime coherence ∧
  (ActiveStrategy.activationScore strategy
   >=? StrategyTemplate.activationThreshold template) = true ∧
  ActiveStrategy.parameters strategy = adaptParameters template regime ∧
  ActiveStrategy.performance strategy
  = getLatestPerformance pool (StrategyTemplate.id template) ∧
  ActiveStrategy.isActive strategy = true ∧
  ∃ i, ActiveStrategy.currentSignal strategy
       = generateSignal
           {| ActiveStrategy.template := template;
              ActiveStrategy.activationScore := ActiveStrategy.activationScore strategy;
              ActiveStrategy.parameters := ActiveStrategy.parameters strategy;
              ActiveStrategy.context := ActiveStrategy.context strategy;
              ActiveStrategy.currentSignal := None;
              ActiveStrategy.performance := ActiveStrategy.performance strategy;
              ActiveStrategy.isActive := true |}
           structuralFeatures (uuid i) (clock i).

(** No performance history is longer than the 100 entries
    [updatePerformance] keeps. *)
Definition historiesBounded (pool : t) : Prop :=
  Forall (λ entry, (length entry.2 ≤ 100)%nat) (JSMap.entries (performanceHistory pool)).

(** The parameters from which [generateSignal] computes stops and targets. *)
Definition stopParameters : list string :=
  ["stopLoss"; "targetProfit"; "trailingStop"; "targetMultiple"; "stopLossMultiple"].

(** Each of them that is present is a positive number. *)
Definition positiveStops (parameters : gmap string num) : Prop :=
  ∀ key value,
    key ∈ stopParameters → parameters !! key = Some value →
    ∃ q, value = Fin q ∧ (0 < q)%Q.

End StrategyPool.

(** ** [core/meta-controller]: regime classification and coherence

    A method that dereferences an entry of a history array returns [None]
    where the source would throw on [undefined]; [Date.now()] is the
    argument [now]. *)

Module RegimeFeatures.
Record t := mk {
  momentum : num;
  trendStrength : num;
  volatility : num;
  volOfVol : num;
  volSpread : num;
  skew : num;
  gammaDirection : num;
  gammaMagnitude : num;
  liquidityImbalance : num;
  absorptionRate : num;
}.

(** [Object.values(features)]: the values in the order the keys were
    written. *)
Definition values (f : t) : list num :=
  [momentum f; trendStrength f; volatility f; volOfVol f; volSpread f; skew f;
   gammaDirection f; gammaMagnitude f; liquidityImbalance f; absorptionRate f].
End RegimeFeatures.

Module RegimeHistory.
Record t := mk {
  regime : Regime.t;
  timestamp : Z;
  features : list num;
}.
End RegimeHistory.

Module MetaController.
Section WithBuiltins.
Context `{Builtins}.
Local Open Scope num_scope.
Import MathUtil.

Record t := mk {
  regimeHistory : CircularBuffer.t RegimeHistory.t;
  coherenceHistory : CircularBuffer.t num;
  featureHistory : JSMap.t string (CircularBuffer.t num);
}.

Definition featureNames : list string :=
  ["momentum"; "volatility"; "gamma"; "liquidity"; "trend"].

Definition new : t :=
  mk (CircularBuffer.new 100) (CircularBuffer.new 100)
     (fold_left (λ m name, JSMap.set m name (CircularBuffer.new 100))
        featureNames JSMap.empty).


Definition extractRegimeFeatures (structuralFeatures : StructuralFeatures.t)
  : RegimeFeatures.t :=
  let priceHistory := StructuralFeatures.priceHistory structuralFeatures in
  let volatilityRegime := StructuralFeatures.volatilityRegime structuralFeatures in
  let gammaPull := StructuralFeatures.gammaPull structuralFeatures in
  let liquidityMap := StructuralFeatures.liquidityMap structuralFeatures in
  {| RegimeFeatures.momentum := PriceHistory.momentum priceHistory;
     RegimeFeatures.trendStrength := PriceHistory.trendStrength priceHistory;
     RegimeFeatures.volatility := VolatilityState.impliedVol volatilityRegime / $100;
     RegimeFeatures.volOfVol := VolatilityState.volOfVol volatilityRegime;
     RegimeFeatures.volSpread := VolatilityState.volSpread volatilityRegime / $100;
     RegimeFeatures.skew := VolatilityState.skew volatilityRegime / $100;
     RegimeFeatures.gammaDirection := GravitationalPull.direction gammaPull;
     RegimeFeatures.gammaMagnitude := GravitationalPull.magnitude gammaPull;
     RegimeFeatures.liquidityImbalance := LiquidityMap.imbalance liquidityMap;
     RegimeFeatures.absorptionRate := LiquidityMap.absorptionRate liquidityMap |}.

(** [this.featureHistory.get(name)?.add(value)] *)
Definition addFeature (m : JSMap.t string (CircularBuffer.t num))
    (name : string) (value : num) : JSMap.t string (CircularBuffer.t num) :=
  match JSMap.get m name with
  | Some buffer => JSMap.set m name (CircularBuffer.add buffer value)
  | None => m
  end.

Definition updateFeatureHistory (c : t) (features : RegimeFeatures.t) : t :=
  let m := featureHistory c in
  let m := addFeature m "momentum" (RegimeFeatures.momentum features) in
  let m := addFeature m "volatility" (RegimeFeatures.volatility features) in
  let m := addFeature m "gamma" (RegimeFeatures.gammaMagnitude features) in
  let m := addFeature m "liquidity" (RegimeFeatures.liquidityImbalance features) in
  let m := addFeature m "trend" (RegimeFeatures.trendStrength features) in
  mk (regimeHistory c) (coherenceHistory c) m.

Definition determineRegimeType (features : RegimeFeatures.t)
    (structuralFeatures : StructuralFeatures.t) : RegimeType :=
  let momentum := RegimeFeatures.momentum features in
  let trendStrength := RegimeFeatures.trendStrength features in
  let volatility := RegimeFeatures.volatility features in
  let volOfVol := RegimeFeatures.volOfVol features in
  let gammaMagnitude := RegimeFeatures.gammaMagnitude features in
  (* High volatility regimes *)
  if volatility >? $0.4 then high_volatility
  (* Low volatility regimes *)
  else if volatility <? $0.15 then low_volatility
  (* Gamma squeeze detection *)
  else if (gammaMagnitude >? $0.7)
          && (Num.abs (GammaSurface.netGamma
                         (StructuralFeatures.gammaSurface structuralFeatures))
              >? $1000000)
  then gamma_squeeze
  (* Trending regimes *)
  else if (momentum >? $0.02) && (trendStrength >? $0.6) then trending_bullish
  else if (momentum <? $(-0.02)) && (trendStrength >? $0.6) then trending_bearish
  else
    (* Breakout/breakdown detection *)
    let volExpanding := volOfVol >? $0.3 in
    if volExpanding && (momentum >? $0.01) then breakout
    else if volExpanding && (momentum <? $(-0.01)) then breakdown
    (* Mean reversion conditions *)
    else if (Num.abs momentum <? $0.005) && (volatility >? $0.2) then mean_reversion
    (* Range bound *)
    else if (trendStrength <? $0.3) && (Num.abs momentum <? $0.01) then range_bound
    (* Consolidation *)
    else if (volatility <? $0.2) && (trendStrength <? $0.4) then consolidation
    else range_bound.

Definition calculateRegimeConfidence (features : RegimeFeatures.t)
    (regimeType : RegimeType) : num :=
  let confidence :=
    match regimeType with
    | trending_bullish =>
        $0.5 + $0.3 * clamp (RegimeFeatures.momentum features * $10) $0 $1
        + $0.2 * RegimeFeatures.trendStrength features
    | trending_bearish =>
        $0.5 + $0.3 * clamp (- RegimeFeatures.momentum features * $10) $0 $1
        + $0.2 * RegimeFeatures.trendStrength features
    | high_volatility =>
        $0.5 + $0.5 * clamp (RegimeFeatures.volatility features - $0.3) $0 $1
    | low_volatility =>
        $0.5 + $0.5 * clamp ($0.2 - RegimeFeatures.volatility features) $0 $1
    | gamma_squeeze => $0.5 + $0.5 * RegimeFeatures.gammaMagnitude features
    | range_bound =>
        $0.5 + $0.3 * ($1 - RegimeFeatures.trendStrength features)
        + $0.2 * ($1 - Num.abs (RegimeFeatures.momentum features) * $20)
    | _ => $0.5
    end in
  clamp confidence $0 $1.

(** The backward loop of [calculateRegimeDuration] on the reversed
    history. *)
Fixpoint durationFrom (newestFirst : list (option RegimeHistory.t))
    (regimeType : RegimeType) : option nat :=
  match newestFirst with
  | [] => Some 0%nat
  | None :: _ => None
  | Some h :: older =>
      if decide (Regime.type (RegimeHistory.regime h) = regimeType)
      then S <$> durationFrom older regimeType
      else Some 0%nat
  end.

Definition calculateRegimeDuration (c : t) (regimeType : RegimeType) : option nat :=
  let history := CircularBuffer.toArray (regimeHistory c) in
  durationFrom (reverse history) regimeType.

(** The loop [for (let i = 1; i < history.length; i++)] of
    [calculateTransitionProbability], on [history[i - 1]] and the entries
    from [history[i]] on; it yields [(transitions, sameRegimeCount)]. *)
Fixpoint countTransitions (prev : option RegimeHistory.t)
    (rest : list (option RegimeHistory.t)) (currentRegime : RegimeType)
    (transitions sameRegimeCount : nat) : option (nat * nat) :=
  match rest with
  | [] => Some (transitions, sameRegimeCount)
  | cur :: rest' =>
      h ← cur;
      if decide (Regime.type (RegimeHistory.regime h) = currentRegime) then
        p ← prev;
        if decide (Regime.type (RegimeHistory.regime p) ≠ currentRegime)
        then countTransitions cur rest' currentRegime
               (S transitions) (S sameRegimeCount)
        else countTransitions cur rest' currentRegime
               transitions (S sameRegimeCount)
      else countTransitions cur rest' currentRegime transitions sameRegimeCount
  end.

Definition calculateTransitionProbability (c : t) (currentRegime : RegimeType)
    (features : RegimeFeatures.t) : option num :=
  let history := CircularBuffer.toArray (regimeHistory c) in
  if decide (length history < 10)%nat then Some $0.1
  else
    counts ←
      match history with
      | [] => Some (0%nat, 0%nat)
      | first :: rest => countTransitions first rest currentRegime 0 0
      end;
    let '(transitions, sameRegimeCount) := counts in
    (* Base transition probability *)
    let baseProb :=
      if decide (0 < sameRegimeCount)%nat
      then Num.of_nat transitions / Num.of_nat sameRegimeCount
      else $0.1 in
    (* Adjust based on volatility of volatility *)
    let volAdjustment := RegimeFeatures.volOfVol features * $0.5 in
    Some (clamp (baseProb + volAdjustment) $0 $0.9).

Definition determineMarketPhase (features : RegimeFeatures.t)
    (structuralFeatures : StructuralFeatures.t) : MarketPhase :=
  let momentum := RegimeFeatures.momentum features in
  let trendStrength := RegimeFeatures.trendStrength features in
  let liquidityImbalance := RegimeFeatures.liquidityImbalance features in
  (* Wyckoff market phases *)
  if (momentum >? $0.01) && (trendStrength >? $0.5) then markup
  else if (momentum <? $(-0.01)) && (trendStrength >? $0.5) then markdown
  else if (liquidityImbalance >? $0.2) && (Num.abs momentum <? $0.01)
  then accumulation
  else if (liquidityImbalance <? $(-0.2)) && (Num.abs momentum <? $0.01)
  then distribution
  (* Default based on trend *)
  else if momentum >=? $0 then accumulation else distribution.

Definition classifyRegime (c : t) (structuralFeatures : StructuralFeatures.t)
    (now : Z) : option (Regime.t * t) :=
  (* Extract key features for classification *)
  let features := extractRegimeFeatures structuralFeatures in
  (* Update feature history *)
  let c1 := updateFeatureHistory c features in
  (* Classify using rule-based + statistical approach *)
  let regimeType := determineRegimeType features structuralFeatures in
  (* Calculate confidence *)
  let confidence := calculateRegimeConfidence features regimeType in
  (* Calculate duration (how long we've been in similar regime) *)
  duration ← calculateRegimeDuration c1 regimeType;
  (* Calculate transition probability *)
  transitionProbability ← calculateTransitionProbability c1 regimeType features;
  let regime :=
    {| Regime.type := regimeType;
       Regime.confidence := confidence;
       Regime.duration := duration;
       Regime.transitionProbability := transitionProbability;
       Regime.characteristics :=
         {| RegimeCharacteristics.volatility :=
              VolatilityState.regime (StructuralFeatures.volatilityRegime structuralFeatures);
            RegimeCharacteristics.trend :=
              PriceHistory.trend (StructuralFeatures.priceHistory structuralFeatures);
            RegimeCharacteristics.momentum :=
              PriceHistory.momentum (StructuralFeatures.priceHistory structuralFeatures);
            RegimeCharacteristics.marketPhase :=
              determineMarketPhase features structuralFeatures |} |} in
  (* Store in history *)
  let entry :=
    {| RegimeHistory.regime := regime;
       RegimeHistory.timestamp := now;
       RegimeHistory.features := RegimeFeatures.values features |} in
  Some (regime,
        mk (CircularBuffer.add (regimeHistory c1) entry)
           (coherenceHistory c1) (featureHistory c1)).








End WithBuiltins.

(** *** Histories of finite numbers *)

Definition finiteEntry (o : option num) : bool :=
  match o with Some x => Num.is_finite x | None => false end.

Definition finiteHistoryEntry (o : option RegimeHistory.t) : bool :=
  match o with
  | Some h => forallb Num.is_finite (RegimeHistory.features h)
  | None => false
  end.

(** A buffer built by [add] all of whose live entries satisfy [ok]. *)
Definition bufferOk {T : Type} (ok : option T → bool) (b : CircularBuffer.t T) : Prop :=
  CircularBuffer.wf b ∧ forallb ok (CircularBuffer.toArray b) = true.

(** The snapshot's ten regime features are finite numbers. *)
Definition featuresFinite (structuralFeatures : StructuralFeatures.t) : bool :=
  forallb Num.is_finite (RegimeFeatures.values (extractRegimeFeatures structuralFeatures)).

(** The invariant of the controller's histories: every buffer is well
    formed and holds finite numbers only.  It holds initially and is kept by
    [classifyRegime] on finite features and by [calculateCoherence]. *)
Definition stateOk (c : MetaController.t) : Prop :=
  bufferOk finiteHistoryEntry (regimeHistory c) ∧
  ∀ name buffer,
    JSMap.get (featureHistory c) name = Some buffer → bufferOk finiteEntry buffer.


End MetaController.

(** ** [core/memory]: the fractal memory

    [Date.now()] and the generated pattern id are inputs of [storePattern]:
    [patternId] stands for [generatePatternId()], [fingerprintNow] for the
    clock read in [createFingerprint] and [patternNow] for the one read when
    the pattern record is built. *)

Module PatternFingerprint.
Record t := mk {
  features : list num;
  timestamp : Z;
  regime : RegimeType;
}.
End PatternFingerprint.

Module MemoryIndex.
Record t := mk {
  byRegime : JSMap.t RegimeType (list string);
  byOutcome : JSMap.t OutcomeType (list string);
  byTimeframe : JSMap.t Z (list string);
}.
End MemoryIndex.

Module FractalMemory.
Local Open Scope num_scope.
Import MathUtil.

Record t := mk {
  patterns : JSMap.t string HistoricalPattern.t;
  fingerprints : JSMap.t string PatternFingerprint.t;
  recentPatterns : CircularBuffer.t string;
  index : MemoryIndex.t;
  maxPatterns : nat;
}.

Definition emptyIndex : MemoryIndex.t :=
  {| MemoryIndex.byRegime := JSMap.empty;
     MemoryIndex.byOutcome :=
       JSMap.set (JSMap.set JSMap.empty positive []) negative [];
     MemoryIndex.byTimeframe := JSMap.empty |}.

Definition new (maxPatterns : nat) : t :=
  mk JSMap.empty JSMap.empty (CircularBuffer.new 1000) emptyIndex maxPatterns.

Definition createFingerprint (features : StructuralFeatures.t) (regime : Regime.t)
    (now : Z) : PatternFingerprint.t :=
  (* Extract key features into a numerical vector *)
  let featureVector :=
    [ PriceHistory.momentum (StructuralFeatures.priceHistory features);
      PriceHistory.trendStrength (StructuralFeatures.priceHistory features);
      VolatilityState.impliedVol (StructuralFeatures.volatilityRegime features) / $100;
      VolatilityState.volSpread (StructuralFeatures.volatilityRegime features) / $100;
      VolatilityState.skew (StructuralFeatures.volatilityRegime features) / $100;
      GravitationalPull.direction (StructuralFeatures.gammaPull features);
      GravitationalPull.magnitude (StructuralFeatures.gammaPull features);
      LiquidityMap.imbalance (StructuralFeatures.liquidityMap features);
      LiquidityMap.absorptionRate (StructuralFeatures.liquidityMap features);
      DealerPositioning.hedgingPressure (StructuralFeatures.dealerPositioning features);
      DealerPositioning.confidence (StructuralFeatures.dealerPositioning features);
      Regime.confidence regime;
      Regime.transitionProbability regime ] in
  (* Normalize the vector *)
  let normalized := normalize featureVector in
  {| PatternFingerprint.features := normalized;
     PatternFingerprint.timestamp := now;
     PatternFingerprint.regime := Regime.type regime |}.

Definition outcomeTypeOf (pattern : HistoricalPattern.t) : OutcomeType :=
  if TradeOutcome.pnl (HistoricalPattern.outcome pattern) >=? $0
  then positive else negative.

(** [Math.floor(timestamp / 3600000)] on an integer timestamp. *)
Definition timeframeOf (fingerprint : PatternFingerprint.t) : Z :=
  (PatternFingerprint.timestamp fingerprint / 3600000)%Z.

(** [const ids = map.get(key) ?? []; ids.push(id); map.set(key, ids)] *)
Definition pushTo {K : Type} `{EqDecision K} (m : JSMap.t K (list string))
    (key : K) (patternId : string) : JSMap.t K (list string) :=
  JSMap.set m key (default [] (JSMap.get m key) ++ [patternId]).

Definition updateIndices (idx : MemoryIndex.t) (patternId : string)
    (pattern : HistoricalPattern.t) (fingerprint : PatternFingerprint.t)
  : MemoryIndex.t :=
  {| (* Index by regime *)
     MemoryIndex.byRegime :=
       pushTo (MemoryIndex.byRegime idx) (PatternFingerprint.regime fingerprint) patternId;
     (* Index by outcome *)
     MemoryIndex.byOutcome :=
       pushTo (MemoryIndex.byOutcome idx) (outcomeTypeOf pattern) patternId;
     (* Index by timeframe (round to nearest hour) *)
     MemoryIndex.byTimeframe :=
       pushTo (MemoryIndex.byTimeframe idx) (timeframeOf fingerprint) patternId |}.

(** [const idx = ids.indexOf(id); if (idx > -1) ids.splice(idx, 1)] *)
Fixpoint removeFirst (patternId : string) (ids : list string) : list string :=
  match ids with
  | [] => []
  | id :: ids' =>
      if decide (id = patternId) then ids' else id :: removeFirst patternId ids'
  end.

(** The same on the array stored under [key], which is changed in place
    when the key is present. *)
Definition spliceFrom {K : Type} `{EqDecision K} (m : JSMap.t K (list string))
    (key : K) (patternId : string) : JSMap.t K (list string) :=
  match JSMap.get m key with
  | Some ids => JSMap.set m key (removeFirst patternId ids)
  | None => m
  end.

Definition removePattern (mem : t) (patternId : string) : t :=
  match JSMap.get (patterns mem) patternId, JSMap.get (fingerprints mem) patternId with
  | Some pattern, Some fingerprint =>
      (* Remove from pattern store *)
      let patterns' := JSMap.delete (patterns mem) patternId in
      let fingerprints' := JSMap.delete (fingerprints mem) patternId in
      (* Remove from indices *)
      let idx := index mem in
      let idx' :=
        {| MemoryIndex.byRegime :=
             spliceFrom (MemoryIndex.byRegime idx)
               (PatternFingerprint.regime fingerprint) patternId;
           MemoryIndex.byOutcome :=
             spliceFrom (MemoryIndex.byOutcome idx) (outcomeTypeOf pattern) patternId;
           MemoryIndex.byTimeframe := MemoryIndex.byTimeframe idx |} in
      mk patterns' fingerprints' (recentPatterns mem) idx' (maxPatterns mem)
  | _, _ => mem
  end.

Definition cleanup (mem : t) : t :=
  (* Remove oldest patterns beyond capacity *)
  let sortedPatterns :=
    sort (λ a b, Num.of_Z (HistoricalPattern.timestamp a.2
                           - HistoricalPattern.timestamp b.2))
         (JSMap.entries (patterns mem)) in
  let toRemove :=
    slice_to (JSMap.size (patterns mem) - maxPatterns mem) sortedPatterns in
  fold_left (λ mem' entry, removePattern mem' entry.1) toRemove mem.

Definition storePattern (mem : t) (features : StructuralFeatures.t)
    (outcome : TradeOutcome.t) (regime : Regime.t)
    (patternId : string) (fingerprintNow patternNow : Z) : t * string :=
  let fingerprint := createFingerprint features regime fingerprintNow in
  let pattern :=
    {| HistoricalPattern.id := patternId;
       HistoricalPattern.timestamp := patternNow;
       HistoricalPattern.structuralFingerprint := PatternFingerprint.features fingerprint;
       HistoricalPattern.outcome := outcome;
       HistoricalPattern.regime := regime;
       HistoricalPattern.similarity := $1 |} in
  (* Store pattern and fingerprint *)
  let mem1 :=
    mk (JSMap.set (patterns mem) patternId pattern)
       (JSMap.set (fingerprints mem) patternId fingerprint)
       (CircularBuffer.add (recentPatterns mem) patternId)
       (* Update indices *)
       (updateIndices (index mem) patternId pattern fingerprint)
       (maxPatterns mem) in
  (* Cleanup if over capacity *)
  let mem2 :=
    if decide (maxPatterns mem1 < JSMap.size (patterns mem1))%nat
    then cleanup mem1 else mem1 in
  (mem2, patternId).

Definition getPattern (mem : t) (patternId : string) : option HistoricalPattern.t :=
  JSMap.get (patterns mem) patternId.

(** *** Vocabulary of the properties *)

(** Every id listed in a bucket of the index [m] is the id of a stored
    pattern. *)
Definition bucketsSound {K : Type} `{EqDecision K}
    (m : JSMap.t K (list string)) (mem : t) : Prop :=
  ∀ key ids id,
    JSMap.get m key = Some ids → id ∈ ids → is_Some (getPattern mem id).

(** Every stored pattern is listed in the bucket of its regime, of its
    outcome sign and of its hour. *)
Definition indicesComplete (mem : t) : Prop :=
  ∀ id pattern fingerprint,
    JSMap.get (patterns mem) id = Some pattern →
    JSMap.get (fingerprints mem) id = Some fingerprint →
    id ∈ default [] (JSMap.get (MemoryIndex.byRegime (index mem))
                       (PatternFingerprint.regime fingerprint)) ∧
    id ∈ default [] (JSMap.get (MemoryIndex.byOutcome (index mem))
                       (outcomeTypeOf pattern)) ∧
    id ∈ default [] (JSMap.get (MemoryIndex.byTimeframe (index mem))
                       (timeframeOf fingerprint)).

Definition indicesConsistent (mem : t) : Prop :=
  bucketsSound (MemoryIndex.byRegime (index mem)) mem ∧
  bucketsSound (MemoryIndex.byOutcome (index mem)) mem ∧
  bucketsSound (MemoryIndex.byTimeframe (index mem)) mem ∧
  indicesComplete mem.

End FractalMemory.

(** ** Concrete scenarios

    Inputs on which the properties below are evaluated: a quiet market
    snapshot, a long signal at 100 with stop 99 and target 103, and
    portfolios of 100,000 with 50,000 of margin available. *)

Module Scenario.
Local Open Scope num_scope.

Definition quietFeatures : StructuralFeatures.t :=
  {| StructuralFeatures.gammaSurface :=
       {| GammaSurface.strikes := [$100];
          GammaSurface.expiries := [$30];
          GammaSurface.values := [[$0]];
          GammaSurface.maxGamma := $0;
          GammaSurface.minGamma := $0;
          GammaSurface.netGamma := $0 |};
     StructuralFeatures.gammaFlips := [];
     StructuralFeatures.gammaPull :=
       {| GravitationalPull.direction := $0;
          GravitationalPull.magnitude := $0;
          GravitationalPull.attractors := [] |};
     StructuralFeatures.liquidityMap :=
       {| LiquidityMap.levels := [];
          LiquidityMap.imbalance := $0;
          LiquidityMap.depth := $1000;
          LiquidityMap.absorptionRate := $0 |};
     StructuralFeatures.volatilityRegime :=
       {| VolatilityState.regime := normal;
          VolatilityState.historicalVol := $18;
          VolatilityState.impliedVol := $20;
          VolatilityState.volSpread := $2;
          VolatilityState.volOfVol := $0;
          VolatilityState.skew := $0;
          VolatilityState.term := $0 |};
     StructuralFeatures.dealerPositioning :=
       {| DealerPositioning.netGammaExposure := $0;
          DealerPositioning.netDeltaExposure := $0;
          DealerPositioning.hedgingPressure := $0;
          DealerPositioning.flowDirection := neutral_flow;
          DealerPositioning.confidence := $0 |};
     StructuralFeatures.priceHistory :=
       {| PriceHistory.prices := [$100; $100];
          PriceHistory.timestamps := [0%Z; 1000%Z];
          PriceHistory.momentum := $0;
          PriceHistory.trend := sideways;
          PriceHistory.trendStrength := $0 |};
     StructuralFeatures.timestamp := 2000%Z |}.

Definition longSignal : Signal.t :=
  {| Signal.id := "sig-1";
     Signal.strategyId := "momentum_follow_v1";
     Signal.timestamp := 2000%Z;
     Signal.direction := long;
     Signal.strength := $0.6;
     Signal.confidence := $0.6;
     Signal.entryPrice := $100;
     Signal.stopLoss := $99;
     Signal.targets := [$103];
     Signal.timeframe := $15;
     Signal.rationale := "Momentum Follow signal: long with strength 0.60";
     Signal.structuralContext :=
       {| StructuralContext.gammaLevel := $0;
          StructuralContext.liquiditySupport := $1000;
          StructuralContext.volatilityState := normal;
          StructuralContext.dealerFlow := neutral_flow |} |}.


(** A flat portfolio of 100,000 whose daily P&L is [pnl]. *)
Definition portfolioWithDailyPnL (pnl : num) : Portfolio.t :=
  {| Portfolio.positions := [];
     Portfolio.totalValue := $100000;
     Portfolio.cashBalance := $100000;
     Portfolio.marginUsed := $0;
     Portfolio.marginAvailable := $50000;
     Portfolio.unrealizedPnL := $0;
     Portfolio.realizedPnL := $0;
     Portfolio.dailyPnL := pnl;
     Portfolio.maxDrawdown := $0;
     Portfolio.currentDrawdown := $0 |}.

(** A call expiring at 30 with gamma 0.01, so that its weighted gamma
    [gamma · openInterest · 100] equals its open interest. *)
Definition callAt (strike openInterest : num) : OptionData.t :=
  {| OptionData.strike := strike;
     OptionData.expiry := $30;
     OptionData.type := call;
     OptionData.bid := $1;
     OptionData.ask := $1.1;
     OptionData.last := $1;
     OptionData.volume := $10;
     OptionData.openInterest := openInterest;
     OptionData.impliedVolatility := $0.2;
     OptionData.delta := $0.5;
     OptionData.gamma := $0.01;
     OptionData.theta := $0;
     OptionData.vega := $0;
     OptionData.rho := $0 |}.

(** Eleven strikes 100..110: open interest 1 on the first ten, 5 on the
    last. *)
Definition skewedChain : list OptionData.t :=
  map (λ k, callAt (Num.of_nat (100 + k)) $1) (seq 0 10) ++ [callAt $110 $5].

(** A regime whose volatility characteristic is [volatility]. *)
Definition regimeWithVolatility (volatility : VolatilityRegime) : Regime.t :=
  {| Regime.type := range_bound;
     Regime.confidence := $0.8;
     Regime.duration := 3;
     Regime.transitionProbability := $0.1;
     Regime.characteristics :=
       {| RegimeCharacteristics.volatility := volatility;
          RegimeCharacteristics.trend := sideways;
          RegimeCharacteristics.momentum := $0;
          RegimeCharacteristics.marketPhase := accumulation |} |}.

(** A closed trade with profit [pnl], seen in the quiet market. *)
Definition outcomeWithPnl (tradeId : string) (pnl : num) : TradeOutcome.t :=
  {| TradeOutcome.tradeId := tradeId;
     TradeOutcome.signalId := "sig-1";
     TradeOutcome.strategyId := "momentum_follow_v1";
     TradeOutcome.entryPrice := $100;
     TradeOutcome.exitPrice := $101;
     TradeOutcome.size := $10;
     TradeOutcome.pnl := pnl;
     TradeOutcome.pnlPercent := pnl / $1000;
     TradeOutcome.holdingPeriod := $60000;
     TradeOutcome.maxDrawdown := $0;
     TradeOutcome.maxRunup := $0.01;
     TradeOutcome.structuralFeaturesAtEntry := quietFeatures;
     TradeOutcome.structuralFeaturesAtExit := quietFeatures;
     TradeOutcome.wasCorrectDirection := true;
     TradeOutcome.executionQuality := $0.9;
     TradeOutcome.timestamp := 2000%Z |}.

(** Storing a profitable pattern under [patternId] at clock reading [now]. *)
Definition storeAt (mem : FractalMemory.t) (patternId : string) (now : Z)
  : FractalMemory.t :=
  (FractalMemory.storePattern mem quietFeatures (outcomeWithPnl patternId $10)
     (regimeWithVolatility normal) patternId now now).1.

(** A memory of capacity 3 after five stores with ascending timestamps,
    all within the first hour. *)
Definition memoryAfterFiveStores : FractalMemory.t :=
  storeAt (storeAt (storeAt (storeAt (storeAt (FractalMemory.new 3)
    "p1" 1000) "p2" 2000) "p3" 3000) "p4" 4000) "p5" 5000.








Definition freshGovernance : RiskGovernance.t :=
  RiskGovernance.new RiskGovernance.defaultLimits.

Definition trippedGovernance : RiskGovernance.t :=
  RiskGovernance.activateKillSwitch freshGovernance "manual stop".

(** The long signal as [filterSignals] approves it for a flat portfolio. *)
Definition approvedLongSignal : ApprovedSignal.t :=
  {| ApprovedSignal.originalSignal := longSignal;
     ApprovedSignal.approvedSize :=
       RiskGovernance.calculatePositionSize freshGovernance longSignal
         (portfolioWithDailyPnL $0) quietFeatures;
     ApprovedSignal.riskMetrics :=
       RiskGovernance.calculateRiskMetrics longSignal (portfolioWithDailyPnL $0);
     ApprovedSignal.executionConstraints :=
       RiskGovernance.determineExecutionConstraints longSignal quietFeatures;
     ApprovedSignal.approvalTimestamp := 2000%Z;
     ApprovedSignal.riskScore :=
       RiskGovernance.calculateRiskScore
         (RiskGovernance.calculateRiskMetrics longSignal (portfolioWithDailyPnL $0))
         quietFeatures |}.

(** The quiet market with an upward gamma pull of magnitude 0.5. *)
Definition pulledFeatures : StructuralFeatures.t :=
  {| StructuralFeatures.gammaSurface := StructuralFeatures.gammaSurface quietFeatures;
     StructuralFeatures.gammaFlips := StructuralFeatures.gammaFlips quietFeatures;
     StructuralFeatures.gammaPull :=
       {| GravitationalPull.direction := $1;
          GravitationalPull.magnitude := $0.5;
          GravitationalPull.attractors := [] |};
     StructuralFeatures.liquidityMap := StructuralFeatures.liquidityMap quietFeatures;
     StructuralFeatures.volatilityRegime := StructuralFeatures.volatilityRegime quietFeatures;
     StructuralFeatures.dealerPositioning :=
       StructuralFeatures.dealerPositioning quietFeatures;
     StructuralFeatures.priceHistory := StructuralFeatures.priceHistory quietFeatures;
     StructuralFeatures.timestamp := StructuralFeatures.timestamp quietFeatures |}.

(** A coherence score of 0.8 on every layer. *)
Definition steadyCoherence : CoherenceScore.t :=
  {| CoherenceScore.total := $0.8;
     CoherenceScore.confidence := $0.8;
     CoherenceScore.structural := $0.8;
     CoherenceScore.regime := $0.8;
     CoherenceScore.temporal := $0.8;
     CoherenceScore.fractal := $0.8;
     CoherenceScore.convergence := $0.8;
     CoherenceScore.components :=
       {| CoherenceComponents.marketSystemAlignment := $0.8;
          CoherenceComponents.signalConsistency := $0.8;
          CoherenceComponents.timeframeHarmony := $0.8;
          CoherenceComponents.patternRecognition := $0.8 |} |}.

(** A pool holding the gamma scalp and the momentum templates, with no
    performance recorded. *)
Definition twoTemplatePool : StrategyPool.t :=
  StrategyPool.addTemplate
    (StrategyPool.addTemplate (StrategyPool.mk JSMap.empty JSMap.empty JSMap.empty)
       StrategyPool.gamma_scalp_v1)
    StrategyPool.momentum_follow_v1.

(** The gamma scalp as [activateStrategies] builds it in the pulled market,
    before its signal is generated. *)
Definition gammaScalpStrategy : ActiveStrategy.t :=
  {| ActiveStrategy.template := StrategyPool.gamma_scalp_v1;
     ActiveStrategy.activationScore :=
       StrategyPool.calculateActivationScore twoTemplatePool StrategyPool.gamma_scalp_v1
         pulledFeatures (regimeWithVolatility normal) steadyCoherence;
     ActiveStrategy.parameters :=
       StrategyPool.adaptParameters StrategyPool.gamma_scalp_v1 (regimeWithVolatility normal);
     ActiveStrategy.context :=
       {| StrategyContext.structuralFeatures := pulledFeatures;
          StrategyContext.regime := regimeWithVolatility normal;
          StrategyContext.coherence := steadyCoherence |};
     ActiveStrategy.currentSignal := None;
     ActiveStrategy.performance :=
       StrategyPool.getLatestPerformance twoTemplatePool "gamma_scalp_v1";
     ActiveStrategy.isActive := true |}.

End Scenario.

(** * Part II: properties *)

(** ** Order facts on numbers *)

Module NumFacts.
Import Num.

Lemma Qltb_spec (a b : Q) : reflect (a < b)%Q (Qltb a b).
Proof.
  unfold Qltb. destruct (a ?= b)%Q eqn:E; constructor.
  - apply Qeq_alt in E. lra.
  - by apply Qlt_alt.
  - apply Qgt_alt in E. lra.
Qed.

Lemma Qltb_true (a b : Q) : Qltb a b = true ↔ (a < b)%Q.
Proof. destruct (Qltb_spec a b); split; (done || congruence). Qed.

Lemma Qltb_false (a b : Q) : Qltb a b = false ↔ (b <= a)%Q.
Proof.
  destruct (Qltb_spec a b) as [Hlt | Hge]; split; try done.
  - lra.
  - intros _. lra.
Qed.

Lemma Qeq_bool_false (a b : Q) : Qeq_bool a b = false ↔ ¬ (a == b)%Q.
Proof.
  split.
  - intros Hf Heq. apply Qeq_bool_iff in Heq. congruence.
  - intros Hne. destruct (Qeq_bool a b) eqn:E; [| done].
    by apply Qeq_bool_iff in E.
Qed.

(** Turn the boolean tests on rationals of the context and the goal into
    propositions. *)
Ltac qbool :=
  repeat match goal with
  | H : Qltb _ _ = true |- _ => apply Qltb_true in H
  | H : Qltb _ _ = false |- _ => apply Qltb_false in H
  | H : Qeq_bool _ _ = true |- _ => apply Qeq_bool_iff in H
  | H : Qeq_bool _ _ = false |- _ => apply Qeq_bool_false in H
  | |- Qltb _ _ = true => apply Qltb_true
  | |- Qltb _ _ = false => apply Qltb_false
  | |- Qeq_bool _ _ = true => apply Qeq_bool_iff
  | |- Qeq_bool _ _ = false => apply Qeq_bool_false
  end.


Lemma ltb_irrefl (x : num) : ltb x x = false.
Proof. destruct x; simpl; try done. qbool. lra. Qed.

Lemma ltb_asym (x y : num) : ltb x y = true → ltb y x = false.
Proof.
  destruct x, y; simpl; try done. intros Hlt. qbool. lra.
Qed.

Lemma leb_refl (x : num) : is_nan x = false → leb x x = true.
Proof.
  intros Hx. unfold leb. rewrite Hx, ltb_irrefl. done.
Qed.

Lemma leb_trans (x y z : num) : leb x y = true → leb y z = true → leb x z = true.
Proof.
  unfold leb. destruct x, y, z; simpl; try done.
  intros Hxy Hyz. apply negb_true_iff in Hxy, Hyz.
  apply negb_true_iff. qbool. lra.
Qed.

Lemma ltb_leb (x y : num) : ltb x y = true → leb x y = true.
Proof.
  intros Hlt. unfold leb. rewrite (ltb_asym _ _ Hlt).
  destruct x, y; done.
Qed.

Lemma leb_not_gtb (x y : num) : leb x y = true → gtb x y = false.
Proof.
  unfold leb, gtb. intros Hle.
  apply andb_true_iff in Hle as [_ Hle]. by apply negb_true_iff.
Qed.

Lemma not_ltb_leb (x y : num) :
  is_nan x = false → is_nan y = false → ltb y x = false → leb x y = true.
Proof. intros Hx Hy Hlt. unfold leb. by rewrite Hx, Hy, Hlt. Qed.


Lemma max2_nan (x y : num) :
  is_nan (max2 x y) = is_nan x || is_nan y.
Proof. destruct x, y; simpl; try done; by destruct (Qltb _ _). Qed.

Lemma min2_cases (x y : num) :
  is_nan x = false → is_nan y = false →
  (min2 x y = x ∧ leb x y = true) ∨ (min2 x y = y ∧ ltb y x = true).
Proof.
  intros Hx Hy.
  destruct (ltb y x) eqn:E.
  - right. split; [| done]. destruct x, y; simpl in *; try done; by rewrite E.
  - left. split; [| by apply not_ltb_leb].
    destruct x, y; simpl in *; try done; by rewrite E.
Qed.

Lemma max2_cases (x y : num) :
  is_nan x = false → is_nan y = false →
  (max2 x y = x ∧ leb y x = true) ∨ (max2 x y = y ∧ ltb x y = true).
Proof.
  intros Hx Hy.
  destruct (ltb x y) eqn:E.
  - right. split; [| done]. destruct x, y; simpl in *; try done; by rewrite E.
  - left. split; [| by apply not_ltb_leb].
    destruct x, y; simpl in *; try done; by rewrite E.
Qed.



Lemma max2_leb_l (x y : num) :
  is_nan (max2 x y) = false → leb x (max2 x y) = true.
Proof.
  rewrite max2_nan. intros [Hx Hy]%orb_false_iff.
  destruct (max2_cases x y Hx Hy) as [[-> _] | [-> Hlt]].
  - by apply leb_refl.
  - by apply ltb_leb.
Qed.

Lemma max2_leb_r (x y : num) :
  is_nan (max2 x y) = false → leb y (max2 x y) = true.
Proof.
  rewrite max2_nan. intros [Hx Hy]%orb_false_iff.
  destruct (max2_cases x y Hx Hy) as [[-> Hle] | [-> _]].
  - done.
  - by apply leb_refl.
Qed.



(** *** The unit interval *)

Lemma inUnit_spec (x : num) :
  inUnit x = true ↔ ∃ q, x = Fin q ∧ (0 <= q)%Q ∧ (q <= 1)%Q.
Proof.
  unfold inUnit, leb. split.
  - destruct x as [q | | |]; simpl; try done.
    intros [H0 H1]%andb_true_iff. apply negb_true_iff in H0, H1. qbool.
    exists q. done.
  - intros (q & -> & H0 & H1). simpl.
    apply andb_true_iff. split; apply negb_true_iff; qbool; lra.
Qed.

Lemma inUnit_Fin (q : Q) : (0 <= q)%Q → (q <= 1)%Q → inUnit (Fin q) = true.
Proof. intros. apply inUnit_spec. eauto. Qed.

Lemma min2_max2_unit (x : num) :
  is_nan x = false → inUnit (min2 (max2 x (Fin 0)) (Fin 1)) = true.
Proof.
  intros Hx. destruct x as [q | | |]; simpl in *; try done.
  destruct (Qltb q 0) eqn:E0; simpl.
  - reflexivity.
  - destruct (Qltb 1 q) eqn:E1; [reflexivity |].
    qbool. by apply inUnit_Fin.
Qed.



Lemma inject_Z_of_nat_pos (n : nat) : (0 < n)%nat → (0 < inject_Z (Z.of_nat n))%Q.
Proof.
  intros Hn. change 0%Q with (inject_Z 0). rewrite <- Zlt_Qlt. lia.
Qed.


End NumFacts.

(** ** Circular buffer *)

Module CircularBufferFacts.
Import CircularBuffer.

Section Facts.
Context {T : Type}.
Implicit Types (b : t T) (x : T).

Lemma tabulate_S {A : Type} (n : nat) (f : nat → A) :
  tabulate n f ++ [f n] = tabulate (S n) f.
Proof.
  unfold tabulate. rewrite seq_S, map_app. reflexivity.
Qed.

Lemma tabulate_ext {A : Type} (n : nat) (f g : nat → A) :
  (∀ i, i < n → f i = g i) → tabulate n f = tabulate n g.
Proof.
  intros H. unfold tabulate. apply map_ext_in.
  intros i Hi. apply in_seq in Hi. apply H. lia.
Qed.

Lemma tabulate_shift {A : Type} (n : nat) (f : nat → A) :
  tabulate (S n) f = f 0 :: tabulate n (λ i, f (S i)).
Proof.
  unfold tabulate. simpl. f_equal. rewrite <- seq_shift, map_map. reflexivity.
Qed.

Lemma tabulate_last {A : Type} (n : nat) (f : nat → A) :
  0 < n → tabulate n f = tabulate (n - 1) f ++ [f (n - 1)].
Proof.
  intros Hn. rewrite tabulate_S. f_equal. lia.
Qed.

Lemma tabulate_drop1 {A : Type} (n : nat) (f : nat → A) :
  drop 1 (tabulate n f) = tabulate (n - 1) (λ i, f (S i)).
Proof.
  destruct n as [| n]; [reflexivity |].
  rewrite tabulate_shift. simpl. by rewrite Nat.sub_0_r.
Qed.

Lemma mod_window_inj (c h i j : nat) :
  0 < c → i < c → j < c → (h + i) mod c = (h + j) mod c → i = j.
Proof.
  intros Hc Hi Hj Heq.
  assert (Hi' := Nat.div_mod_eq (h + i) c).
  assert (Hj' := Nat.div_mod_eq (h + j) c).
  assert (Hlt := Nat.mod_upper_bound (h + i) c ltac:(lia)).
  rewrite Heq in Hi'.
  set (qi := (h + i) / c) in *. set (qj := (h + j) / c) in *.
  set (r := (h + j) mod c) in *.
  destruct (Nat.lt_trichotomy qi qj) as [Hq | [Hq | Hq]]; nia.
Qed.

Lemma array_get_set_eq (l : list (option T)) i x :
  i < length l → array_get (array_set l i x) i = Some x.
Proof.
  intros Hi. unfold array_get, array_set.
  rewrite decide_True by done.
  by rewrite list_lookup_insert_eq.
Qed.

Lemma array_get_set_ne (l : list (option T)) i j x :
  i < length l → i ≠ j → array_get (array_set l i x) j = array_get l j.
Proof.
  intros Hi Hne. unfold array_get, array_set.
  rewrite decide_True by done.
  by rewrite list_lookup_insert_ne.
Qed.

Lemma array_set_length (l : list (option T)) i x :
  i < length l → length (array_set l i x) = length l.
Proof.
  intros Hi. unfold array_set. rewrite decide_True by done.
  apply length_insert.
Qed.

Lemma wf_new (c : nat) : 0 < c → wf (new (T := T) c).
Proof.
  intros Hc. unfold wf, new; simpl.
  rewrite length_replicate, Nat.Div0.mod_0_l.
  repeat split; try lia.
Qed.

(** One [add] on a buffer that is not full appends the item. *)
Lemma toArray_add_room b x :
  wf b → count b < capacity b →
  wf (add b x) ∧ toArray (add b x) = toArray b ++ [Some x].
Proof.
  intros (Hc & Hlen & Hh & Hcnt & Htl & Hfill) Hroom.
  assert (Htlt : tail b < length (items b)).
  { rewrite Hlen, Htl. apply Nat.mod_upper_bound. lia. }
  unfold add. rewrite decide_True by done.
  split.
  - unfold wf; simpl. rewrite array_set_length by done.
    repeat split; try lia.
    + rewrite Htl, Nat.Div0.add_mod_idemp_l. f_equal. lia.
    + intros i Hi. destruct (decide (i = count b)) as [-> | Hne].
      * rewrite <- Htl, array_get_set_eq by done. eauto.
      * rewrite array_get_set_ne; [apply Hfill; lia | done |].
        rewrite Htl. intros Heq. apply mod_window_inj in Heq; lia.
  - unfold toArray; simpl.
    replace (count b + 1) with (S (count b)) by lia.
    rewrite <- tabulate_S. f_equal.
    + apply tabulate_ext. intros i Hi.
      apply array_get_set_ne; [done |].
      rewrite Htl. intros Heq. apply mod_window_inj in Heq; lia.
    + by rewrite <- Htl, array_get_set_eq.
Qed.

(** One [add] on a full buffer overwrites the oldest item. *)
Lemma toArray_add_full b x :
  wf b → count b = capacity b →
  wf (add b x) ∧ toArray (add b x) = drop 1 (toArray b) ++ [Some x].
Proof.
  intros (Hc & Hlen & Hh & Hcnt & Htl & Hfill) Hfull.
  assert (Hlast : (head b + capacity b) mod capacity b = head b).
  { rewrite <- Nat.Div0.add_mod_idemp_r, Nat.Div0.mod_same, Nat.add_0_r.
    by apply Nat.mod_small. }
  assert (Hfirst : (head b + 0) mod capacity b = head b).
  { rewrite Nat.add_0_r. by apply Nat.mod_small. }
  assert (Hth : tail b = head b) by (by rewrite Htl, Hfull).
  assert (Htlt : tail b < length (items b)) by lia.
  assert (Hidx : ∀ i, ((head b + 1) mod capacity b + i) mod capacity b
                      = (head b + S i) mod capacity b).
  { intros i. rewrite Nat.Div0.add_mod_idemp_l. f_equal. lia. }
  assert (Hother : ∀ i, S i < capacity b →
            array_get (array_set (items b) (tail b) x) ((head b + S i) mod capacity b)
            = array_get (items b) ((head b + S i) mod capacity b)).
  { intros i Hi. apply array_get_set_ne; [done |].
    rewrite Hth. rewrite <- Hfirst at 1.
    intros Heq. apply mod_window_inj in Heq; lia. }
  unfold add. rewrite decide_False by lia.
  split.
  - unfold wf; simpl. rewrite array_set_length by done.
    repeat split; try lia.
    + apply Nat.mod_upper_bound. lia.
    + rewrite Hfull, Hidx, Hth.
      replace (head b + S (capacity b)) with (head b + 1 + capacity b) by lia.
      rewrite <- (Nat.Div0.add_mod_idemp_r (head b + 1)), Nat.Div0.mod_same.
      f_equal. lia.
    + intros i Hi. rewrite Hidx.
      destruct (decide (S i = capacity b)) as [Heq | Hne].
      * rewrite Heq, Hlast, <- Hth, array_get_set_eq by lia. eauto.
      * rewrite Hother by lia. apply Hfill. lia.
  - unfold toArray; simpl. rewrite Hfull.
    rewrite tabulate_drop1, (tabulate_last (capacity b)) by done.
    f_equal.
    + apply tabulate_ext. intros i Hi. cbv beta. rewrite Hidx.
      apply Hother. lia.
    + rewrite Hidx. replace (S (capacity b - 1)) with (capacity b) by lia.
      rewrite Hlast, <- Hth. f_equal. apply array_get_set_eq. lia.
Qed.

Lemma add_all_snoc b (xs : list T) x :
  add_all b (xs ++ [x]) = add (add_all b xs) x.
Proof. unfold add_all. by rewrite fold_left_app. Qed.

(** After any sequence of appends the buffer holds the last [capacity]
    items, oldest first. *)
Lemma toArray_add_all (c : nat) (xs : list T) :
  0 < c →
  wf (add_all (new c) xs) ∧
  capacity (add_all (new c) xs) = c ∧
  count (add_all (new c) xs) = Nat.min (length xs) c ∧
  toArray (add_all (new c) xs) = Some <$> drop (length xs - c) xs.
Proof.
  intros Hc. induction xs as [| x xs IH] using rev_ind.
  - split; [by apply wf_new |]. split; [done |]. split; [simpl; lia | done].
  - destruct IH as (Hwf & Hcap & Hcnt & Harr).
    rewrite add_all_snoc, length_app. simpl.
    destruct (decide (count (add_all (new c) xs) < c)) as [Hroom | Hfull].
    + destruct (toArray_add_room _ x Hwf) as [Hwf' Harr']; [by rewrite Hcap |].
      split; [done |].
      split; [unfold add; rewrite decide_True by (by rewrite Hcap); done |].
      split; [unfold add; rewrite decide_True by (by rewrite Hcap); simpl; lia |].
      rewrite Harr', Harr.
      replace (length xs - c) with 0 by lia.
      replace (length xs + 1 - c) with 0 by lia.
      by rewrite !drop_0, fmap_app.
    + assert (Hcount : count (add_all (new c) xs) = c).
      { destruct Hwf as (_ & _ & _ & Hle & _). lia. }
      destruct (toArray_add_full _ x Hwf) as [Hwf' Harr']; [by rewrite Hcap |].
      split; [done |].
      split; [unfold add; rewrite decide_False by (rewrite Hcap; lia); done |].
      split; [unfold add; rewrite decide_False by (rewrite Hcap; lia); simpl; lia |].
      rewrite Harr', Harr.
      rewrite <- fmap_drop, drop_drop, drop_app_le by lia.
      rewrite fmap_app. do 3 f_equal. lia.
Qed.

End Facts.

(** C9. For every capacity [c ≥ 1] and every [N ≥ c], after appending
    [0, 1, …, N−1] in order to a circular buffer of capacity [c],
    [toArray()] is [[N−c, …, N−1]], oldest first; and one more append
    overwrites the oldest element: the array loses its first entry and gains
    the new value at the end. *)
Theorem toArray_after_appends (c N : nat) :
  1 ≤ c → c ≤ N →
  toArray (add_all (new c) (seq 0 N)) = Some <$> seq (N - c) c ∧
  toArray (add (add_all (new c) (seq 0 N)) N)
  = drop 1 (toArray (add_all (new c) (seq 0 N))) ++ [Some N].
Proof.
  intros Hc HN.
  destruct (toArray_add_all c (seq 0 N)) as (Hwf & Hcap & Hcnt & Harr); [lia |].
  rewrite length_seq in *. split.
  - rewrite Harr. f_equal.
    replace (seq 0 N) with (seq 0 (N - c) ++ seq (N - c) c).
    + rewrite drop_app_length'; [done | by rewrite length_seq].
    + rewrite <- seq_app. f_equal. lia.
  - apply toArray_add_full; [done |]. rewrite Hcap, Hcnt. lia.
Qed.

Lemma toArray_after_appends_witness :
  toArray (add_all (new 3) (seq 0 5)) = [Some 2; Some 3; Some 4] ∧
  toArray (add (add_all (new 3) (seq 0 5)) 5) = [Some 3; Some 4; Some 5].
Proof.
  destruct (toArray_after_appends 3 5) as [H1 H2]; [lia | lia |].
  split; [exact H1 | exact H2].
Defined.

End CircularBufferFacts.

(** ** Risk governance *)

Module RiskGovernanceFacts.
Import RiskGovernance NumFacts.
Local Open Scope num_scope.

Lemma activateKillSwitch_active g reason :
  killSwitchActive (activateKillSwitch g reason) = true.
Proof. reflexivity. Qed.

Lemma updateRiskState_limits g portfolio :
  limits (updateRiskState g portfolio) = limits g.
Proof.
  unfold updateRiskState.
  repeat match goal with |- context [if ?c then _ else _] => destruct c end;
    reflexivity.
Qed.

(** When the kill switch is set by [updateRiskState]. *)
Lemma updateRiskState_killSwitch g portfolio :
  killSwitchActive (updateRiskState g portfolio)
  = killSwitchActive g || drawdownBreached g portfolio || dailyLossBreached g portfolio.
Proof.
  unfold updateRiskState, drawdownBreached, dailyLossBreached, drawdownSeen.
  destruct (Portfolio.totalValue portfolio >? peakEquity g); simpl;
    repeat (match goal with
            | |- context [if ?c then _ else _] =>
                lazymatch c with
                | context [if _ then _ else _] => fail
                | _ => destruct c eqn:?
                end
            end; simpl);
    rewrite ?orb_true_r, ?orb_false_r; reflexivity.
Qed.

(** C1. For every list of signals, every portfolio and every
    structural-features snapshot, if the kill switch is active when
    [filterSignals] is called, then [filterSignals] returns the empty list
    (and leaves the risk state as it was). *)
Theorem filterSignals_kill_switch_active g signals portfolio structuralFeatures now :
  killSwitchActive g = true →
  filterSignals g signals portfolio structuralFeatures now = (g, []).
Proof.
  intros Hactive. unfold filterSignals. by rewrite Hactive.
Qed.

Lemma filterSignals_kill_switch_active_witness :
  filterSignals Scenario.trippedGovernance [Scenario.longSignal]
    (Scenario.portfolioWithDailyPnL $0) Scenario.quietFeatures 2000%Z
  = (Scenario.trippedGovernance, []).
Proof.
  apply filterSignals_kill_switch_active. reflexivity.
Defined.

(** The same signal is approved when the kill switch is off, so the empty
    result above is the kill switch's doing. *)
Example filterSignals_kill_switch_off :
  length (snd (filterSignals Scenario.freshGovernance [Scenario.longSignal]
    (Scenario.portfolioWithDailyPnL $0) Scenario.quietFeatures 2000%Z)) = 1%nat.
Proof. vm_compute. reflexivity. Qed.

(** C2, as stated, fails: a portfolio of 100,000 with a daily gain of 6,000
    has [|dailyPnL| > maxDailyLoss · totalValue] (6,000 > 5,000), and
    [updateRiskState] leaves the kill switch off. *)
Lemma updateRiskState_daily_gain_keeps_switch_off :
  let portfolio := Scenario.portfolioWithDailyPnL $6000 in
  let g := Scenario.freshGovernance in
  (Num.abs (Portfolio.dailyPnL portfolio)
   >? RiskLimits.maxDailyLoss (limits g) * Portfolio.totalValue portfolio) = true ∧
  killSwitchActive (updateRiskState g portfolio) = false.
Proof. vm_compute. split; reflexivity. Qed.

(** C2, amended. The daily-loss check looks at the signed P&L: whenever
    [dailyPnL < −maxDailyLoss · totalValue] the kill switch is active after
    [updateRiskState]; and the switch is active afterwards only if it was
    active before, or the drawdown from the peak exceeds [maxDrawdown], or
    that signed daily-loss test holds. *)
Theorem updateRiskState_daily_loss g portfolio :
  ((Portfolio.dailyPnL portfolio
    <? - RiskLimits.maxDailyLoss (limits g) * Portfolio.totalValue portfolio) = true →
   killSwitchActive (updateRiskState g portfolio) = true) ∧
  (killSwitchActive (updateRiskState g portfolio) = true →
   killSwitchActive g = true ∨
   drawdownBreached g portfolio = true ∨
   (Portfolio.dailyPnL portfolio
    <? - RiskLimits.maxDailyLoss (limits g) * Portfolio.totalValue portfolio) = true).
Proof.
  rewrite updateRiskState_killSwitch. unfold dailyLossBreached. split.
  - intros ->. by rewrite orb_true_r.
  - intros Hk. apply orb_true_iff in Hk as [Hk | Hk]; [| by right; right].
    apply orb_true_iff in Hk as [Hk | Hk]; [by left | by right; left].
Qed.

Lemma updateRiskState_daily_loss_witness :
  killSwitchActive
    (updateRiskState Scenario.freshGovernance (Scenario.portfolioWithDailyPnL $(-6000)))
  = true.
Proof.
  apply (updateRiskState_daily_loss Scenario.freshGovernance
           (Scenario.portfolioWithDailyPnL $(-6000))).
  vm_compute. reflexivity.
Defined.

(** *** Position sizing *)







(** *** What [filterSignals] returns comes from [approveSignal] *)

Section SortElems.
Context {A : Type} (cmp : A → A → num).

Lemma sort_insert_elem (x a : A) (l : list A) :
  a ∈ MathUtil.sort_insert cmp x l ↔ a = x ∨ a ∈ l.
Proof.
  induction l as [| y l IH]; cbn [MathUtil.sort_insert].
  - rewrite list_elem_of_singleton, elem_of_nil. tauto.
  - destruct (Num.gtb (cmp y x) (Fin 0)).
    + rewrite !elem_of_cons. tauto.
    + rewrite !elem_of_cons, IH. tauto.
Qed.

Lemma sort_elem (a : A) (l : list A) : a ∈ MathUtil.sort cmp l ↔ a ∈ l.
Proof.
  unfold MathUtil.sort.
  assert (Hgen : ∀ acc, a ∈ fold_left (λ acc x, MathUtil.sort_insert cmp x acc) l acc
                        ↔ a ∈ acc ∨ a ∈ l).
  { induction l as [| x l IH]; intros acc; simpl.
    - rewrite elem_of_nil. tauto.
    - rewrite IH, sort_insert_elem, elem_of_cons. tauto. }
  rewrite Hgen, elem_of_nil. tauto.
Qed.

End SortElems.

Lemma applyPortfolioConstraints_loop_elem g portfolio signals totalRisk totalMargin a :
  a ∈ applyPortfolioConstraints_loop g portfolio signals totalRisk totalMargin →
  a ∈ signals.
Proof.
  revert totalRisk totalMargin.
  induction signals as [| s rest IH]; intros totalRisk totalMargin; simpl.
  - done.
  - repeat match goal with |- context [if ?c then _ else _] => destruct c end;
      intros Ha.
    + right. by eapply IH.
    + right. by eapply IH.
    + apply elem_of_cons in Ha as [-> | Ha]; [left | right; by eapply IH].
Qed.

Lemma applyPortfolioConstraints_elem g signals portfolio a :
  a ∈ applyPortfolioConstraints g signals portfolio → a ∈ signals.
Proof.
  unfold applyPortfolioConstraints. case_decide; [by intros ?%elem_of_nil |].
  intros Ha. apply applyPortfolioConstraints_loop_elem in Ha.
  by apply sort_elem in Ha.
Qed.

Lemma approveSignal_Some g portfolio structuralFeatures now signal a :
  approveSignal g portfolio structuralFeatures now signal = Some a →
  ApprovedSignal.originalSignal a = signal ∧
  ApprovedSignal.approvedSize a
  = calculatePositionSize g signal portfolio structuralFeatures ∧
  (ApprovedSignal.approvedSize a <=? $0) = false.
Proof.
  unfold approveSignal.
  destruct (calculatePositionSize g signal portfolio structuralFeatures <=? $0) eqn:Hpos;
    [done |].
  repeat match goal with |- context [if ?c then _ else _] => destruct c end;
    try done.
  intros [= <-]. simpl. by rewrite Hpos.
Qed.

Lemma filterSignals_elem g signals portfolio structuralFeatures now a :
  a ∈ (filterSignals g signals portfolio structuralFeatures now).2 →
  ∃ signal, signal ∈ signals ∧
    approveSignal (updateRiskState g portfolio) portfolio structuralFeatures now signal
    = Some a.
Proof.
  unfold filterSignals.
  destruct (killSwitchActive g); [by intros ?%elem_of_nil |].
  destruct (checkGlobalRiskLimits _ _); simpl; [| by intros ?%elem_of_nil].
  intros Ha. apply applyPortfolioConstraints_elem in Ha.
  apply list_elem_of_omap in Ha as (signal & Hin & Hsome). eauto.
Qed.




(** *** A breach seen during the call *)

(** C10. If the kill switch is inactive when [filterSignals] is entered and
    the supplied portfolio breaches the drawdown or daily-loss limit, the
    call activates the kill switch in its risk-state update and does not look
    at it again: what it returns is what the rest of the pipeline approves
    for the same inputs, and every later call returns the empty list.  There
    are such calls that return a non-empty list: with the default limits, a
    portfolio of 100,000 with a daily loss of 6,000 and one long signal has
    the signal approved in the very call that trips the switch. *)
Theorem filterSignals_breach_takes_effect_next_call :
  (∀ g signals portfolio structuralFeatures now,
     killSwitchActive g = false →
     drawdownBreached g portfolio = true ∨ dailyLossBreached g portfolio = true →
     let g' := (filterSignals g signals portfolio structuralFeatures now).1 in
     let approved := (filterSignals g signals portfolio structuralFeatures now).2 in
     killSwitchActive g' = true ∧
     approved
     = (if checkGlobalRiskLimits g' portfolio
        then applyPortfolioConstraints g'
               (omap (approveSignal g' portfolio structuralFeatures now) signals)
               portfolio
        else []) ∧
     ∀ signals' portfolio' structuralFeatures' now',
       (filterSignals g' signals' portfolio' structuralFeatures' now').2 = []) ∧
  (∃ g signals portfolio structuralFeatures now,
     killSwitchActive g = false ∧
     dailyLossBreached g portfolio = true ∧
     killSwitchActive (filterSignals g signals portfolio structuralFeatures now).1 = true ∧
     length (filterSignals g signals portfolio structuralFeatures now).2 = 1%nat).
Proof.
  split.
  - intros g signals portfolio structuralFeatures now Hoff Hbreach.
    assert (Hon : killSwitchActive (updateRiskState g portfolio) = true).
    { rewrite updateRiskState_killSwitch.
      destruct Hbreach as [-> | ->]; by rewrite ?orb_true_r. }
    unfold filterSignals at 1 2. rewrite Hoff.
    destruct (checkGlobalRiskLimits (updateRiskState g portfolio) portfolio) eqn:Hglobal;
      simpl; rewrite ?Hglobal.
    + split; [done |]. split; [done |].
      intros. unfold filterSignals. by rewrite Hon.
    + split; [done |]. split; [done |].
      intros. unfold filterSignals. by rewrite Hon.
  - exists Scenario.freshGovernance, [Scenario.longSignal],
      (Scenario.portfolioWithDailyPnL $(-6000)), Scenario.quietFeatures, 2000%Z.
    vm_compute. repeat split.
Qed.

End RiskGovernanceFacts.

(** ** Strategy pool *)

Module StrategyPoolFacts.
Import StrategyPool.
Local Open Scope num_scope.

(** C6, as stated, fails: for the default gamma-scalp template in a
    low-volatility regime the adapted [stopLoss] is [0.003 · 0.7], not
    [0.003 · 1.2]; and in a high-volatility regime the stops are widened
    ([· 1.5]), not tightened ([· 0.5]). *)
Lemma adaptParameters_not_claimed_multiplier :
  let adapted volatility :=
    adaptParameters gamma_scalp_v1 (Scenario.regimeWithVolatility volatility) in
  (∃ v, adapted low !! "stopLoss" = Some v ∧
        (v === $0.003 * $0.7) = true ∧
        (v === $0.003 * claimedMultiplier low) = false) ∧
  (∃ v, adapted high !! "stopLoss" = Some v ∧
        (v === $0.003 * $1.5) = true ∧
        (v === $0.003 * claimedMultiplier high) = false).
Proof.
  split; eexists; (split; [vm_compute; reflexivity |]); vm_compute; done.
Qed.

Lemma scaleParameter_lookup key volMultiplier (params : gmap string num) k :
  scaleParameter key volMultiplier params !! k
  = if decide (k = key)
    then (λ v, if Num.truthy v then v * volMultiplier else v) <$> params !! k
    else params !! k.
Proof.
  unfold scaleParameter. case_decide as Hk.
  - subst k. destruct (params !! key) as [v |] eqn:Hv; [| by rewrite Hv].
    destruct (Num.truthy v) eqn:Ht.
    + by rewrite lookup_insert_eq; simpl; rewrite Ht.
    + by rewrite Hv; simpl; rewrite Ht.
  - destruct (params !! key) as [v |]; [| done].
    destruct (Num.truthy v); [| done]. by rewrite lookup_insert_ne.
Qed.

(** C6, amended. For every strategy template and every regime, the
    parameter map of an activated strategy is the template's map with
    [stopLoss], [trailingStop] and [targetProfit] (where present and neither
    zero nor [NaN]) multiplied by 1.5 when the regime's volatility is high or
    extreme, by 0.7 when it is low, and by 1.0 when it is normal or elevated;
    every other entry is unchanged. *)
Theorem adaptParameters_lookup template regime key :
  adaptParameters template regime !! key
  = if decide (key ∈ adaptedKeys)
    then (λ v,
           if Num.truthy v
           then v * stopMultiplier
                      (RegimeCharacteristics.volatility (Regime.characteristics regime))
           else v)
         <$> StrategyTemplate.parameters template !! key
    else StrategyTemplate.parameters template !! key.
Proof.
  unfold adaptParameters, adaptedKeys. cbv zeta.
  match goal with
  | |- context [scaleParameter "stopLoss" ?m _] =>
      replace m with
        (stopMultiplier
           (RegimeCharacteristics.volatility (Regime.characteristics regime)))
        by (by destruct (RegimeCharacteristics.volatility _))
  end.
  rewrite !scaleParameter_lookup.
  repeat case_decide; subst; try done.
  - exfalso. rewrite !elem_of_cons, elem_of_nil in *. tauto.
  - exfalso. rewrite !elem_of_cons, elem_of_nil in *. tauto.
  - exfalso. rewrite !elem_of_cons, elem_of_nil in *. tauto.
  - exfalso. rewrite !elem_of_cons, elem_of_nil in *. tauto.
Qed.

End StrategyPoolFacts.

(** ** Perception *)

Module PerceptionMatrixFacts.
Import PerceptionMatrix.
Local Open Scope num_scope.

(** C8, at the failing input. With an empty options chain the two loops of
    [calculateGammaSurface] never run and the initial values of the running
    maximum and minimum are returned: [maxGamma = -Infinity] and
    [minGamma = Infinity], neither of which is finite. *)
Theorem calculateGammaSurface_empty_chain (spotPrice : num) :
  let gammaSurface := calculateGammaSurface [] spotPrice in
  GammaSurface.strikes gammaSurface = [] ∧
  GammaSurface.values gammaSurface = [] ∧
  GammaSurface.maxGamma gammaSurface = NInf ∧
  GammaSurface.minGamma gammaSurface = PInf ∧
  Num.is_finite (GammaSurface.maxGamma gammaSurface) = false ∧
  Num.is_finite (GammaSurface.minGamma gammaSurface) = false.
Proof. repeat split. Qed.

(** On a chain that has options the two aggregates are cell values. *)
Example calculateGammaSurface_skewed_chain :
  let gammaSurface := calculateGammaSurface Scenario.skewedChain $99 in
  length (GammaSurface.strikes gammaSurface) = 11%nat ∧
  (GammaSurface.maxGamma gammaSurface === $5) = true ∧
  (GammaSurface.minGamma gammaSurface === $1) = true ∧
  (GammaSurface.netGamma gammaSurface === $15) = true.
Proof. vm_compute. repeat split. Qed.

(** C7, at the failing input. On the surface of the skewed chain (one
    expiry, strikes 100..110, gammas 1,…,1,5) all eleven cells are
    attractors; the pull keeps the first ten in scan order, all of strength
    1, and drops the strongest one (strength 5 at strike 110).  The kept
    attractors are therefore not the ten strongest. *)
Theorem calculateGravitationalPull_keeps_first_ten :
  let gammaSurface := calculateGammaSurface Scenario.skewedChain $99 in
  ∃ pull found,
    calculateGravitationalPull gammaSurface $99 = Some pull ∧
    attractorsFound gammaSurface = Some found ∧
    length found = 11%nat ∧
    length (GravitationalPull.attractors pull) = 10%nat ∧
    Forall (λ a, (Attractor.strength a === $1) = true)
           (GravitationalPull.attractors pull) ∧
    Exists (λ b, (Attractor.strength b === $5) = true ∧
                 (Attractor.price b === $110) = true) found ∧
    ¬ keepsStrongest found (GravitationalPull.attractors pull).
Proof.
  eexists _, _.
  split; [vm_compute; reflexivity |].
  split; [vm_compute; reflexivity |].
  split; [reflexivity |].
  split; [reflexivity |].
  split; [repeat constructor |].
  split.
  - do 10 apply Exists_cons_tl. apply Exists_cons_hd. split; reflexivity.
  - intros Hkeep. cbn [GravitationalPull.attractors] in Hkeep.
    match type of Hkeep with
    | keepsStrongest ?found (?k0 :: _) =>
        match found with
        | context [?b :: []] => specialize (Hkeep k0 b)
        end
    end.
    cbn [Attractor.strength] in Hkeep.
    match type of Hkeep with
    | _ → _ → _ → ?cmp = false => assert (Hgt : cmp = true) by reflexivity
    end.
    rewrite Hkeep in Hgt; [done | | |].
    + left.
    + do 10 right. left.
    + rewrite !elem_of_cons, elem_of_nil.
      intros Hin. repeat destruct Hin as [Hin | Hin]; discriminate Hin || done.
Qed.

(** *** What does hold of the gravitational pull *)

(** The values [totalPull] can take: a non-negative number, [Infinity] or
    [NaN]. *)
Lemma netPull_totalPull attractors spotPrice :
  let totalPull := (netPull attractors spotPrice).1 in
  totalPull = NaN ∨ totalPull = PInf ∨ ∃ q, totalPull = Fin q ∧ (0 <= q)%Q.
Proof.
  unfold netPull.
  assert (Hgen : ∀ (acc : num * num),
    (acc.1 = NaN ∨ acc.1 = PInf ∨ ∃ q, acc.1 = Fin q ∧ (0 <= q)%Q) →
    let totalPull :=
      (fold_left (λ '(totalPull, weightedSum) attractor,
         let distance := Attractor.price attractor - spotPrice in
         if distance !== $0 then
           let pull := Attractor.strength attractor / (distance * distance) in
           (totalPull + Num.abs pull, weightedSum + pull * Num.sign distance)
         else (totalPull, weightedSum)) attractors acc).1 in
    totalPull = NaN ∨ totalPull = PInf ∨ ∃ q, totalPull = Fin q ∧ (0 <= q)%Q).
  { induction attractors as [| a attractors IH]; intros [t w] Ht; simpl; [done |].
    apply IH. destruct (_ !== _); [| done]. simpl in *.
    destruct (Attractor.strength a / _) as [p | | |];
      destruct Ht as [-> | [-> | (q & -> & Hq)]]; simpl; eauto.
    right; right. eexists. split; [done |].
    pose proof (Qabs_nonneg p). lra. }
  apply Hgen. right; right. exists 0%Q. split; [done | lra].
Qed.

Lemma magnitude_shape (totalPull weightedSum : num) :
  totalPull = NaN ∨ totalPull = PInf ∨ (∃ q, totalPull = Fin q ∧ (0 <= q)%Q) →
  let magnitude := Num.min2 (Num.abs weightedSum / Num.or_else totalPull $1) $1 in
  Num.is_nan magnitude = true ∨ Num.inUnit magnitude = true.
Proof.
  intros Ht.
  assert (Hden : Num.or_else totalPull $1 = PInf ∨
                 ∃ d, Num.or_else totalPull $1 = Fin d ∧ (0 < d)%Q).
  { destruct Ht as [-> | [-> | (q & -> & Hq)]]; unfold Num.or_else; simpl.
    - right. exists 1%Q. split; [done | lra].
    - by left.
    - destruct (Qeq_bool q 0) eqn:E; simpl; right.
      + exists 1%Q. split; [done | lra].
      + exists q. split; [done |]. NumFacts.qbool. lra. }
  destruct Hden as [-> | (d & -> & Hd)];
    destruct weightedSum as [a | | |]; simpl;
    try (left; reflexivity); try (right; reflexivity).
  - pose proof (Qabs_nonneg a) as Ha.
    destruct (Qeq_bool d 0) eqn:E; [NumFacts.qbool; lra |]. simpl.
    assert (Hx : (0 <= Qabs a / d)%Q) by (apply Qle_shift_div_l; lra).
    right. destruct (Num.Qltb 1 (Qabs a / d)) eqn:E1; [reflexivity |].
    NumFacts.qbool. by apply NumFacts.inUnit_Fin.
  - destruct (d ?= 0)%Q eqn:E; simpl;
      [right; reflexivity | apply Qlt_alt in E; lra | right; reflexivity].
  - destruct (d ?= 0)%Q eqn:E; simpl;
      [right; reflexivity | apply Qlt_alt in E; lra | right; reflexivity].
Qed.

(** Whenever [calculateGravitationalPull] returns, it returns at most ten
    attractors, a direction that is −1, 0 or +1, and a magnitude that lies in
    [0,1] unless it is [NaN]. *)
Theorem calculateGravitationalPull_bounds gammaSurface spotPrice pull :
  calculateGravitationalPull gammaSurface spotPrice = Some pull →
  (length (GravitationalPull.attractors pull) ≤ 10)%nat ∧
  (GravitationalPull.direction pull = $1 ∨
   GravitationalPull.direction pull = $(-1) ∨
   GravitationalPull.direction pull = $0) ∧
  (Num.is_nan (GravitationalPull.magnitude pull) = true ∨
   Num.inUnit (GravitationalPull.magnitude pull) = true).
Proof.
  unfold calculateGravitationalPull.
  destruct (surfaceRows gammaSurface) as [rows |]; [| done]. cbn [mbind option_bind].
  pose proof (netPull_totalPull
                (concat (map (attractorsOfRow gammaSurface) rows)) spotPrice) as Ht.
  destruct (netPull _ spotPrice) as [totalPull weightedSum].
  intros Hpull. apply (inj Some) in Hpull. subst pull.
  cbn [GravitationalPull.attractors GravitationalPull.direction
       GravitationalPull.magnitude].
  split; [unfold MathUtil.slice_to; rewrite length_take; lia |].
  split; [| by apply magnitude_shape].
  destruct (weightedSum >? $0); [by left |].
  destruct (weightedSum <? $0); [by right; left | by right; right].
Qed.

Lemma calculateGravitationalPull_bounds_witness :
  ∃ pull,
    calculateGravitationalPull
      (calculateGammaSurface Scenario.skewedChain $99) $99 = Some pull ∧
    (length (GravitationalPull.attractors pull) ≤ 10)%nat ∧
    GravitationalPull.direction pull = $1 ∧
    (GravitationalPull.magnitude pull === $1) = true.
Proof.
  eexists. split; [vm_compute; reflexivity |].
  split.
  - apply (calculateGravitationalPull_bounds
             (calculateGammaSurface Scenario.skewedChain $99) $99).
    vm_compute. reflexivity.
  - split; reflexivity.
Defined.

End PerceptionMatrixFacts.

(** ** Fractal memory *)

Module FractalMemoryFacts.
Import FractalMemory.

(** C5, at the failing input. A memory of capacity 3 receives five
    patterns with ascending timestamps.  The store then holds the three most
    recent ones and the by-regime and by-outcome buckets list exactly those,
    but the by-timeframe bucket still lists the two evicted ids:
    [removePattern] never touches [byTimeframe].  The indices are not
    consistent with the store. *)
Theorem storePattern_eviction_leaves_timeframe_index :
  let mem := Scenario.memoryAfterFiveStores in
  JSMap.keys (patterns mem) = ["p3"; "p4"; "p5"] ∧
  JSMap.get (MemoryIndex.byRegime (index mem)) range_bound = Some ["p3"; "p4"; "p5"] ∧
  JSMap.get (MemoryIndex.byOutcome (index mem)) positive = Some ["p3"; "p4"; "p5"] ∧
  JSMap.get (MemoryIndex.byTimeframe (index mem)) 0%Z
  = Some ["p1"; "p2"; "p3"; "p4"; "p5"] ∧
  getPattern mem "p1" = None ∧
  ¬ bucketsSound (MemoryIndex.byTimeframe (index mem)) mem ∧
  ¬ indicesConsistent mem.
Proof.
  assert (Htf : JSMap.get (MemoryIndex.byTimeframe (index Scenario.memoryAfterFiveStores)) 0%Z
                = Some ["p1"; "p2"; "p3"; "p4"; "p5"]) by (vm_compute; reflexivity).
  assert (Hgone : getPattern Scenario.memoryAfterFiveStores "p1" = None)
    by (vm_compute; reflexivity).
  assert (Hunsound : ¬ bucketsSound
            (MemoryIndex.byTimeframe (index Scenario.memoryAfterFiveStores))
            Scenario.memoryAfterFiveStores).
  { intros Hsound. specialize (Hsound 0%Z _ "p1" Htf).
    rewrite Hgone in Hsound. destruct Hsound as [x Hx]; [left | discriminate Hx]. }
  cbv zeta.
  split; [vm_compute; reflexivity |].
  split; [vm_compute; reflexivity |].
  split; [vm_compute; reflexivity |].
  split; [exact Htf |].
  split; [exact Hgone |].
  split; [exact Hunsound |].
  intros (_ & _ & Hsound & _). by apply Hunsound.
Qed.

(** Before any eviction the indices are consistent: three stores into the
    same memory. *)
Example storePattern_without_eviction :
  let mem := Scenario.storeAt (Scenario.storeAt (Scenario.storeAt (new 3)
               "p1" 1000) "p2" 2000) "p3" 3000 in
  JSMap.keys (patterns mem) = ["p1"; "p2"; "p3"] ∧
  JSMap.get (MemoryIndex.byRegime (index mem)) range_bound = Some ["p1"; "p2"; "p3"] ∧
  JSMap.get (MemoryIndex.byOutcome (index mem)) positive = Some ["p1"; "p2"; "p3"] ∧
  JSMap.get (MemoryIndex.byTimeframe (index mem)) 0%Z = Some ["p1"; "p2"; "p3"].
Proof. vm_compute. repeat split. Qed.

End FractalMemoryFacts.

(** ** Math utilities on finite numbers *)

Module MathUtilFacts.
Import Num NumFacts MathUtil.

Lemma clamp_unit (x : num) :
  is_nan x = false → inUnit (clamp x (Fin 0) (Fin 1)) = true.
Proof. apply min2_max2_unit. Qed.







End MathUtilFacts.

(** ** JavaScript maps *)

Module JSMapFacts.
Section Facts.
Context {K V : Type} `{EqDecision K}.

Lemma get_set (m : JSMap.t K V) (k k' : K) (v : V) :
  JSMap.get (JSMap.set m k v) k'
  = if decide (k' = k) then Some v else JSMap.get m k'.
Proof.
  induction m as [| [k0 v0] m IH]; simpl.
  - done.
  - destruct (decide (k = k0)) as [-> | Hne]; simpl.
    + by destruct (decide (k' = k0)).
    + rewrite IH. destruct (decide (k' = k0)) as [-> | Hne'];
        [by rewrite decide_False by done | done].
Qed.

End Facts.
End JSMapFacts.

(** ** Meta-controller *)

Module MetaControllerFacts.
Import Num NumFacts MathUtil MathUtilFacts CircularBuffer CircularBufferFacts.
Import MetaController.
Local Open Scope num_scope.


Lemma bufferOk_new {T : Type} (ok : option T → bool) (c : nat) :
  (0 < c)%nat → bufferOk ok (CircularBuffer.new c).
Proof. intros Hc. split; [by apply wf_new | done]. Qed.


Section WithBuiltins.
Context `{Builtins}.

Lemma stateOk_new : stateOk MetaController.new.
Proof.
  split; [by apply bufferOk_new; lia |].
  intros name buffer. unfold MetaController.new, featureNames; simpl.
  repeat (case_decide; [intros [= <-]; by apply bufferOk_new; lia |]).
  done.
Qed.








(** *** The five sub-scores *)














End WithBuiltins.

(** *** The binary64 runtime *)







End MetaControllerFacts.

(** ** Sorting *)

Module SortFacts.
Import Num NumFacts MathUtil.

Section Facts.
Context {A : Type} (cmp : A → A → num).

Lemma sort_insert_perm (x : A) (l : list A) : sort_insert cmp x l ≡ₚ x :: l.
Proof.
  induction l as [| y l IH]; cbn [sort_insert]; [done |].
  destruct (gtb (cmp y x) (Fin 0)); [done |].
  rewrite IH. apply Permutation_swap.
Qed.

Lemma sort_perm (l : list A) : sort cmp l ≡ₚ l.
Proof.
  unfold sort.
  assert (Hgen : ∀ acc, fold_left (λ acc x, sort_insert cmp x acc) l acc ≡ₚ acc ++ l).
  { induction l as [| x l IH]; intros acc; simpl; [by rewrite app_nil_r |].
    rewrite IH, sort_insert_perm. simpl. apply Permutation_middle. }
  by rewrite Hgen.
Qed.

Lemma sort_length (l : list A) : length (sort cmp l) = length l.
Proof. by rewrite sort_perm. Qed.

Section Sorted.
Context (P : A → Prop).
Hypothesis antisym : ∀ a b, P a → P b →
  gtb (cmp a b) (Fin 0) = true → gtb (cmp b a) (Fin 0) = false.
Hypothesis trans : ∀ a b c, P a → P b → P c →
  stays_before cmp a b → stays_before cmp b c → stays_before cmp a c.

Lemma sort_insert_sorted (x : A) (l : list A) :
  P x → Forall P l → StronglySorted (stays_before cmp) l →
  StronglySorted (stays_before cmp) (sort_insert cmp x l).
Proof using antisym trans.
  intros Hx Hl Hs. induction Hs as [| y l Hs IH Hy]; cbn [sort_insert].
  - repeat constructor.
  - apply Forall_cons in Hl as [HPy HPl].
    destruct (gtb (cmp y x) (Fin 0)) eqn:E.
    + assert (Hxy : stays_before cmp x y) by (by apply antisym).
      constructor; [by constructor |].
      constructor; [done |].
      rewrite Forall_forall in Hy, HPl. apply Forall_forall. intros z Hz.
      apply (trans x y z); auto.
    + constructor; [by apply IH |].
      apply Forall_forall. intros z Hz.
      rewrite sort_insert_perm in Hz. apply elem_of_cons in Hz.
      destruct Hz as [-> | Hz]; [done |].
      rewrite Forall_forall in Hy. by apply Hy.
Qed.

Lemma sort_sorted (l : list A) :
  Forall P l → StronglySorted (stays_before cmp) (sort cmp l).
Proof using antisym trans.
  unfold sort.
  assert (Hgen : ∀ acc, Forall P acc → Forall P l →
            StronglySorted (stays_before cmp) acc →
            StronglySorted (stays_before cmp)
              (fold_left (λ acc x, sort_insert cmp x acc) l acc)).
  { induction l as [| x l IH]; intros acc Hacc Hl Hs; simpl; [done |].
    apply Forall_cons in Hl as [Hx Hl].
    apply IH; [| done | by apply sort_insert_sorted].
    rewrite sort_insert_perm. by constructor. }
  intros Hl. apply Hgen; [constructor | done | constructor].
Qed.

End Sorted.
End Facts.

(** [x - y > 0] says [y < x] as soon as neither is [NaN]. *)
Lemma sub_gtb_0 (x y : num) :
  is_nan x = false → is_nan y = false →
  gtb (sub x y) (Fin 0) = ltb y x.
Proof.
  destruct x as [a | | |], y as [b | | |]; try done; intros _ _;
    unfold gtb, sub; simpl.
  destruct (Qltb 0 (a + - b)) eqn:E1, (Qltb b a) eqn:E2; try done; qbool; lra.
Qed.

Lemma StronglySorted_weaken {A : Type} (P : A → Prop) (R R' : A → A → Prop)
    (l : list A) :
  (∀ a b, P a → P b → R a b → R' a b) →
  Forall P l → StronglySorted R l → StronglySorted R' l.
Proof.
  intros Himpl Hl Hs. induction Hs as [| x l Hs IH Hx]; [constructor |].
  apply Forall_cons in Hl as [HPx HPl].
  constructor; [by apply IH |].
  rewrite Forall_forall in Hx, HPl. apply Forall_forall.
  intros y Hy. apply Himpl; auto.
Qed.

Section ByKey.
Context {A : Type} (key : A → num).

(** Sorting with [(a, b) => key(a) - key(b)] gives ascending keys. *)
Lemma sort_ascending (l : list A) :
  Forall (λ a, is_nan (key a) = false) l →
  StronglySorted (λ a b, leb (key a) (key b) = true)
    (sort (λ a b, sub (key a) (key b)) l).
Proof.
  intros Hl.
  apply (StronglySorted_weaken (λ a, is_nan (key a) = false)
           (stays_before (λ a b, sub (key a) (key b)))).
  - intros a b Ha Hb. unfold stays_before. rewrite sub_gtb_0 by done.
    by apply not_ltb_leb.
  - by rewrite sort_perm.
  - apply (sort_sorted _ (λ a, is_nan (key a) = false)); [| | done].
    + intros a b Ha Hb. rewrite !sub_gtb_0 by done. apply ltb_asym.
    + intros a b c Ha Hb Hc. unfold stays_before. rewrite !sub_gtb_0 by done.
      intros H1 H2.
      apply not_ltb_leb in H1; [| done | done].
      apply not_ltb_leb in H2; [| done | done].
      apply (leb_not_gtb (key a) (key c)). by apply (leb_trans _ (key b)).
Qed.

(** Sorting with [(a, b) => key(b) - key(a)] gives descending keys. *)
Lemma sort_descending (l : list A) :
  Forall (λ a, is_nan (key a) = false) l →
  StronglySorted (λ a b, leb (key b) (key a) = true)
    (sort (λ a b, sub (key b) (key a)) l).
Proof.
  intros Hl.
  apply (StronglySorted_weaken (λ a, is_nan (key a) = false)
           (stays_before (λ a b, sub (key b) (key a)))).
  - intros a b Ha Hb. unfold stays_before. rewrite sub_gtb_0 by done.
    by apply not_ltb_leb.
  - by rewrite sort_perm.
  - apply (sort_sorted _ (λ a, is_nan (key a) = false)); [| | done].
    + intros a b Ha Hb. rewrite !sub_gtb_0 by done. apply ltb_asym.
    + intros a b c Ha Hb Hc. unfold stays_before. rewrite !sub_gtb_0 by done.
      intros H1 H2.
      apply not_ltb_leb in H1; [| done | done].
      apply not_ltb_leb in H2; [| done | done].
      apply (leb_not_gtb (key c) (key a)). by apply (leb_trans _ (key b)).
Qed.

End ByKey.
End SortFacts.

(** ** Circular buffer: reading back what was appended *)

Module CircularBufferReads.
Import CircularBuffer CircularBufferFacts.

Lemma tabulate_length {A : Type} (n : nat) (f : nat → A) : length (tabulate n f) = n.
Proof. unfold tabulate. by rewrite length_map, length_seq. Qed.

Lemma tabulate_lookup {A : Type} (n : nat) (f : nat → A) (i : nat) :
  i < n → tabulate n f !! i = Some (f i).
Proof.
  intros Hi. unfold tabulate. rewrite list_lookup_fmap, lookup_seq_lt by done.
  reflexivity.
Qed.

Lemma tabulate_take {A : Type} (n k : nat) (f : nat → A) :
  take k (tabulate n f) = tabulate (Nat.min k n) f.
Proof.
  unfold tabulate. rewrite <- fmap_take, take_seq. reflexivity.
Qed.

Lemma tabulate_reverse {A : Type} (n : nat) (f : nat → A) :
  reverse (tabulate n f) = tabulate n (λ i, f (n - 1 - i)).
Proof.
  induction n as [| n IH]; [done |].
  rewrite <- tabulate_S, reverse_snoc, tabulate_shift, IH.
  f_equal; [f_equal; lia |].
  apply tabulate_ext. intros i Hi. f_equal. lia.
Qed.

Section Reads.
Context {T : Type}.
Implicit Types (b : t T).

(** On a well-formed buffer [getRecent] reads the live window backwards. *)
Lemma getRecent_toArray b (n : nat) :
  wf b → getRecent b n = take n (reverse (toArray b)).
Proof.
  intros (Hc & Hlen & Hh & Hcnt & Htl & Hfill).
  unfold getRecent, toArray.
  rewrite tabulate_reverse, tabulate_take.
  apply tabulate_ext. intros i Hi. cbv zeta.
  assert (Htail : tail b < capacity b).
  { rewrite Htl. apply Nat.mod_upper_bound. lia. }
  set (z := (Z.of_nat (tail b) - 1 - Z.of_nat i + Z.of_nat (capacity b))%Z).
  assert (Hz : z = Z.of_nat (tail b + capacity b - 1 - i)) by (unfold z; lia).
  rewrite Hz, Z.rem_mod_nonneg by lia.
  rewrite <- Nat2Z.inj_mod.
  rewrite decide_False by lia. rewrite Nat2Z.id.
  f_equal.
  replace (tail b + capacity b - 1 - i)
    with ((capacity b - 1 - i) + tail b) by lia.
  rewrite Htl, Nat.Div0.add_mod_idemp_r.
  replace (capacity b - 1 - i + (head b + count b))
    with (head b + (count b - 1 - i) + 1 * capacity b) by lia.
  by rewrite Nat.Div0.mod_add.
Qed.

Lemma get_toArray b (i : nat) : get b i = mjoin (toArray b !! i).
Proof.
  unfold get, toArray. destruct (decide (count b ≤ i)) as [Hout | Hin].
  - rewrite lookup_ge_None_2; [done |]. by rewrite tabulate_length.
  - rewrite tabulate_lookup by lia. reflexivity.
Qed.

Lemma getOldest_toArray b (n : nat) : getOldest b n = take n (toArray b).
Proof. unfold getOldest, toArray. by rewrite tabulate_take. Qed.

End Reads.

Lemma take_min_length {A : Type} (l : list A) (n c : nat) :
  take n (take (length l - (length l - c)) l) = take (Nat.min n c) l.
Proof.
  rewrite take_take.
  destruct (decide (c ≤ length l)) as [Hle | Hgt].
  - f_equal. lia.
  - destruct (decide (n ≤ length l)) as [Hn | Hn].
    + f_equal. lia.
    + rewrite !take_ge by lia. reflexivity.
Qed.

(** After any sequence of appends to a new buffer of capacity [c ≥ 1],
    [getRecent(n)] returns the last [min(n, c)] appended items, newest
    first (all of them when fewer were appended). *)
Theorem getRecent_after_appends {T : Type} (c : nat) (xs : list T) (n : nat) :
  0 < c →
  getRecent (add_all (new c) xs) n = Some <$> take (Nat.min n c) (reverse xs).
Proof.
  intros Hc.
  destruct (toArray_add_all c xs Hc) as (Hwf & _ & _ & Harr).
  rewrite getRecent_toArray, Harr by done.
  rewrite <- fmap_reverse, <- fmap_take. f_equal.
  rewrite reverse_drop, <- (length_reverse xs).
  apply take_min_length.
Qed.

Lemma getRecent_after_appends_witness :
  getRecent (add_all (new 3) [10; 20; 30; 40; 50]) 2 = [Some 50; Some 40].
Proof.
  rewrite (getRecent_after_appends 3 [10; 20; 30; 40; 50] 2) by lia.
  reflexivity.
Defined.

(** After any sequence of appends to a new buffer of capacity [c ≥ 1], the
    buffer keeps the last [c] items: [size] is their number, [isFull] holds
    once [c] items were appended, [get(i)] is the [i]-th oldest kept item and
    [undefined] from [size] on, and [getOldest(n)] is the first [n] kept
    items. *)
Theorem get_after_appends {T : Type} (c : nat) (xs : list T) :
  0 < c →
  let b := add_all (new c) xs in
  let kept := drop (length xs - c) xs in
  size b = length kept ∧
  isFull b = bool_decide (c ≤ length xs) ∧
  isEmpty b = bool_decide (xs = []) ∧
  (∀ i, get b i = kept !! i) ∧
  (∀ n, getOldest b n = Some <$> take n kept).
Proof.
  intros Hc b kept.
  destruct (toArray_add_all c xs Hc) as (Hwf & Hcap & Hcnt & Harr).
  fold b in Hwf, Hcap, Hcnt, Harr. fold kept in Harr.
  split; [unfold size, kept; rewrite Hcnt, length_drop; lia |].
  split; [unfold isFull; rewrite Hcap, Hcnt; apply bool_decide_ext; lia |].
  split.
  { unfold isEmpty. rewrite Hcnt. apply bool_decide_ext.
    destruct xs as [| x xs']; [done |]. cbn [length]. split; [lia | done]. }
  split.
  - intros i. rewrite get_toArray, Harr, list_lookup_fmap.
    by destruct (kept !! i).
  - intros n. by rewrite getOldest_toArray, Harr, fmap_take.
Qed.

Lemma get_after_appends_witness :
  let b := add_all (new 3) [10; 20; 30; 40; 50] in
  size b = 3 ∧ isFull b = true ∧ get b 0 = Some 30 ∧ get b 3 = None.
Proof.
  destruct (get_after_appends 3 [10; 20; 30; 40; 50]) as (H1 & H2 & _ & H3 & _);
    [lia |].
  split; [exact H1 |]. split; [exact H2 |].
  split; [exact (H3 0) | exact (H3 3)].
Defined.

End CircularBufferReads.

(** ** Buffers of numbers *)

Module NumberBufferFacts.
Import Num NumFacts CircularBuffer CircularBufferFacts.
Local Open Scope num_scope.

Lemma fold_cells {B : Type} (b : CircularBuffer.t num) (f : B → num → B)
    (kept : list num) (acc : B) :
  toArray b = Some <$> kept →
  fold_left (λ acc i,
    match NumberBuffer.cell b i with
    | Some value => f acc value
    | None => acc
    end) (seq 0 (count b)) acc
  = fold_left f kept acc.
Proof.
  unfold toArray, tabulate. fold (NumberBuffer.cell b).
  generalize (seq 0 (count b)). intros idxs. revert kept acc.
  induction idxs as [| i idxs IH]; intros [| x kept] acc Heq; try done.
  simpl in *. injection Heq as Hi His. rewrite Hi. by apply IH.
Qed.

(** The running minimum of the [min] loop: it is never [NaN], never rises,
    and ends at or below every item that is not [NaN]. *)
Lemma running_min (kept : list num) (acc : num) :
  is_nan acc = false →
  let m := fold_left (λ minVal value, if value <? minVal then value else minVal)
             kept acc in
  is_nan m = false ∧ (m <=? acc) = true ∧
  ∀ x, x ∈ kept → is_nan x = false → (m <=? x) = true.
Proof.
  revert acc. induction kept as [| v kept IH]; intros acc Hacc; simpl.
  - split; [done |]. split; [by apply leb_refl |]. intros x Hx. by apply elem_of_nil in Hx.
  - destruct (v <? acc) eqn:E.
    + assert (Hv : is_nan v = false) by (by destruct v, acc).
      destruct (IH v Hv) as (Hm & Hle & Hall).
      split; [done |].
      split; [apply (leb_trans _ v); [done | by apply ltb_leb] |].
      intros x Hx Hnx. apply elem_of_cons in Hx as [-> | Hx]; auto.
    + destruct (IH acc Hacc) as (Hm & Hle & Hall).
      split; [done |]. split; [done |].
      intros x Hx Hnx. apply elem_of_cons in Hx as [-> | Hx]; auto.
      apply (leb_trans _ acc); [done |]. by apply not_ltb_leb.
Qed.

Lemma running_max (kept : list num) (acc : num) :
  is_nan acc = false →
  let m := fold_left (λ maxVal value, if value >? maxVal then value else maxVal)
             kept acc in
  is_nan m = false ∧ (acc <=? m) = true ∧
  ∀ x, x ∈ kept → is_nan x = false → (x <=? m) = true.
Proof.
  revert acc. induction kept as [| v kept IH]; intros acc Hacc; simpl.
  - split; [done |]. split; [by apply leb_refl |]. intros x Hx. by apply elem_of_nil in Hx.
  - destruct (v >? acc) eqn:E.
    + assert (Hv : is_nan v = false) by (by destruct v, acc).
      destruct (IH v Hv) as (Hm & Hle & Hall).
      split; [done |].
      split; [apply (leb_trans _ v); [by apply ltb_leb | done] |].
      intros x Hx Hnx. apply elem_of_cons in Hx as [-> | Hx]; auto.
    + destruct (IH acc Hacc) as (Hm & Hle & Hall).
      split; [done |]. split; [done |].
      intros x Hx Hnx. apply elem_of_cons in Hx as [-> | Hx]; auto.
      apply (leb_trans _ acc); [| done]. by apply not_ltb_leb.
Qed.

(** On a buffer of numbers filled by appends, [average()] is the mean of
    the kept items as [utils/math] computes it, and [min()] and [max()] bound
    every kept item that is not [NaN]; they are never [NaN] themselves, and
    on an empty buffer they are [Infinity] and [-Infinity] while the average
    is 0. *)
Theorem average_min_max_after_appends (c : nat) (xs : list num) :
  (0 < c)%nat →
  let b := add_all (new c) xs in
  let kept := drop (length xs - c) xs in
  NumberBuffer.average b = MathUtil.mean kept ∧
  is_nan (NumberBuffer.min b) = false ∧
  is_nan (NumberBuffer.max b) = false ∧
  (∀ x, x ∈ kept → is_nan x = false →
        (NumberBuffer.min b <=? x) = true ∧ (x <=? NumberBuffer.max b) = true) ∧
  (xs = [] →
   NumberBuffer.average b = $0 ∧ NumberBuffer.min b = PInf ∧ NumberBuffer.max b = NInf).
Proof.
  intros Hc b kept.
  destruct (toArray_add_all c xs Hc) as (Hwf & Hcap & Hcnt & Harr).
  fold b in Hwf, Hcap, Hcnt, Harr. fold kept in Harr.
  assert (Hlen : count b = length kept).
  { unfold kept. rewrite Hcnt, length_drop. lia. }
  assert (Hmin : NumberBuffer.min b
                 = fold_left (λ minVal value, if value <? minVal then value else minVal)
                     kept PInf).
  { unfold NumberBuffer.min. rewrite (fold_cells b _ kept) by done.
    destruct (decide (count b = 0%nat)) as [H0 | _]; [| done].
    rewrite H0 in Hlen. by destruct kept. }
  assert (Hmax : NumberBuffer.max b
                 = fold_left (λ maxVal value, if value >? maxVal then value else maxVal)
                     kept NInf).
  { unfold NumberBuffer.max. rewrite (fold_cells b _ kept) by done.
    destruct (decide (count b = 0%nat)) as [H0 | _]; [| done].
    rewrite H0 in Hlen. by destruct kept. }
  destruct (running_min kept PInf eq_refl) as (Hn1 & _ & Hall1).
  destruct (running_max kept NInf eq_refl) as (Hn2 & _ & Hall2).
  rewrite <- Hmin in Hn1, Hall1. rewrite <- Hmax in Hn2, Hall2.
  split.
  { unfold NumberBuffer.average, MathUtil.mean, MathUtil.length_num.
    rewrite (fold_cells b _ kept) by done. rewrite Hlen.
    by destruct (decide (length kept = 0%nat)). }
  split; [done |]. split; [done |].
  split; [intros x Hx Hnx; split; auto |].
  intros ->. by vm_compute.
Qed.

Lemma average_min_max_after_appends_witness :
  let b := add_all (new 3) [$4; $9; $1; $2; $6] in
  NumberBuffer.average b = MathUtil.mean [$1; $2; $6] ∧
  (NumberBuffer.min b <=? $1) = true ∧ ($6 <=? NumberBuffer.max b) = true.
Proof.
  destruct (average_min_max_after_appends 3 [$4; $9; $1; $2; $6])
    as (H1 & _ & _ & H2 & _); [lia |].
  split; [exact H1 |].
  split.
  - apply (H2 $1); [| reflexivity]. simpl. repeat constructor.
  - apply (H2 $6); [| reflexivity]. simpl. repeat constructor.
Defined.

End NumberBufferFacts.

(** ** [utils/math.ts]: series and interpolation helpers *)

Module MathSeriesFacts.
Import Num NumFacts MathUtil MathUtilFacts SortFacts.
Local Open Scope num_scope.

(** [clamp] keeps a number inside the bounds it is given. *)
Theorem clamp_within (value lo hi : num) :
  is_nan value = false → (lo <=? hi) = true →
  (lo <=? clamp value lo hi) = true ∧
  (clamp value lo hi <=? hi) = true ∧
  ((lo <=? value) = true → (value <=? hi) = true → clamp value lo hi = value).
Proof.
  intros Hv Hle. unfold clamp.
  assert (Hlo : is_nan lo = false) by (by destruct lo, hi).
  assert (Hhi : is_nan hi = false) by (by destruct lo, hi).
  destruct (max2_cases value lo Hv Hlo) as [[-> Hmax] | [-> Hmax]].
  - destruct (min2_cases value hi Hv Hhi) as [[-> Hmin] | [-> Hmin]].
    + repeat split; auto.
    + split; [done |]. split; [by apply leb_refl |].
      intros _ Hvh. apply leb_not_gtb in Hvh. unfold gtb in Hvh. congruence.
  - destruct (min2_cases lo hi Hlo Hhi) as [[-> Hmin] | [-> Hmin]].
    + split; [by apply leb_refl |]. split; [done |].
      intros Hlv _. apply leb_not_gtb in Hlv. unfold gtb in Hlv. congruence.
    + apply leb_not_gtb in Hle. unfold gtb in Hle. congruence.
Qed.

Lemma clamp_within_witness :
  (clamp $7 $0 $5 <=? $5) = true ∧ clamp $3 $0 $5 = $3.
Proof.
  destruct (clamp_within $7 $0 $5) as (_ & H1 & _); [done | done |].
  destruct (clamp_within $3 $0 $5) as (_ & _ & H2); [done | done |].
  split; [exact H1 | by apply H2].
Defined.

(** *** [Math.min(...xs)] and [Math.max(...xs)] *)

Lemma min2_bounds (xs : list num) (acc : num) :
  is_nan acc = false → Forall (λ x, is_nan x = false) xs →
  let m := fold_left min2 xs acc in
  is_nan m = false ∧ (m <=? acc) = true ∧ ∀ x, x ∈ xs → (m <=? x) = true.
Proof.
  intros Hacc Hall. revert acc Hacc.
  induction Hall as [| v xs Hv _ IH]; intros acc Hacc; cbn [fold_left].
  - split; [done |]. split; [by apply leb_refl |]. intros x Hx. by apply elem_of_nil in Hx.
  - assert (Hmin : min2 acc v = if v <? acc then v else acc) by (by destruct acc, v).
    rewrite Hmin. destruct (v <? acc) eqn:E.
    + destruct (IH v Hv) as (Hm & Hle & Hin).
      split; [done |].
      split; [apply (leb_trans _ v); [done | by apply ltb_leb] |].
      intros x Hx. apply elem_of_cons in Hx as [-> | Hx]; auto.
    + destruct (IH acc Hacc) as (Hm & Hle & Hin).
      split; [done |]. split; [done |].
      intros x Hx. apply elem_of_cons in Hx as [-> | Hx]; auto.
      apply (leb_trans _ acc); [done |]. by apply not_ltb_leb.
Qed.

Lemma max2_bounds (xs : list num) (acc : num) :
  is_nan acc = false → Forall (λ x, is_nan x = false) xs →
  let m := fold_left max2 xs acc in
  is_nan m = false ∧ (acc <=? m) = true ∧ ∀ x, x ∈ xs → (x <=? m) = true.
Proof.
  intros Hacc Hall. revert acc Hacc.
  induction Hall as [| v xs Hv _ IH]; intros acc Hacc; cbn [fold_left].
  - split; [done |]. split; [by apply leb_refl |]. intros x Hx. by apply elem_of_nil in Hx.
  - assert (Hmax : max2 acc v = if acc <? v then v else acc) by (by destruct acc, v).
    rewrite Hmax. destruct (acc <? v) eqn:E.
    + destruct (IH v Hv) as (Hm & Hle & Hin).
      split; [done |].
      split; [apply (leb_trans _ v); [by apply ltb_leb | done] |].
      intros x Hx. apply elem_of_cons in Hx as [-> | Hx]; auto.
    + destruct (IH acc Hacc) as (Hm & Hle & Hin).
      split; [done |]. split; [done |].
      intros x Hx. apply elem_of_cons in Hx as [-> | Hx]; auto.
      apply (leb_trans _ acc); [| done]. by apply not_ltb_leb.
Qed.

(** [(x - lo) / (hi - lo)] for [lo <= x <= hi]. *)
Lemma rescaled_unit (x lo hi : num) :
  (lo <=? x) = true → (x <=? hi) = true →
  is_nan ((x - lo) / (hi - lo)) = true ∨ inUnit ((x - lo) / (hi - lo)) = true.
Proof.
  destruct x as [x | | |], lo as [lo | | |], hi as [hi | | |]; try done;
    try (by left); try (by right).
  unfold leb. cbn [is_nan negb andb ltb sub neg add].
  rewrite !negb_true_iff. intros Hlo Hhi. qbool.
  cbn [div]. destruct (Qeq_bool (hi + - lo) 0) eqn:E; qbool.
  - destruct (x + - lo ?= 0)%Q eqn:C; [by left | |].
    + apply Qlt_alt in C. lra.
    + apply Qgt_alt in C. lra.
  - right. apply inUnit_Fin.
    + apply Qle_shift_div_l; lra.
    + apply Qle_shift_div_r; lra.
Qed.

(** [normalize] keeps the length of its argument, and maps numbers none of
    which is [NaN] into the unit interval, to 0.5 each when the range is 0
    and to [(x - min) / (max - min)] otherwise, except where that quotient
    is [NaN], as it is for an infinite range. *)
Theorem normalize_unit_interval (arr : list num) :
  Forall (λ x, is_nan x = false) arr →
  length (normalize arr) = length arr ∧
  Forall (λ y, is_nan y = true ∨ inUnit y = true) (normalize arr).
Proof.
  intros Hall.
  split; [unfold normalize; destruct (_ === _); by rewrite length_map |].
  unfold normalize. cbv zeta.
  destruct (min2_bounds arr PInf eq_refl Hall) as (_ & _ & Hlo).
  destruct (max2_bounds arr NInf eq_refl Hall) as (_ & _ & Hhi).
  fold (min_list arr) in Hlo. fold (max_list arr) in Hhi.
  destruct (_ === _).
  - apply Forall_forall. intros y (x & -> & _)%list_elem_of_fmap. by right.
  - apply Forall_forall. intros y (x & -> & Hx)%list_elem_of_fmap.
    apply rescaled_unit; auto.
Qed.

Lemma normalize_unit_interval_witness :
  length (normalize [$2; $4; $10]) = 3%nat ∧
  Forall (λ y, is_nan y = true ∨ inUnit y = true) (normalize [$2; $4; $10]).
Proof. apply (normalize_unit_interval [$2; $4; $10]). by repeat constructor. Defined.

(** *** Maximum drawdown *)

Lemma drawdown_step_finite (M D v : Q) :
  (0 < M)%Q → (0 <= D)%Q → (D < 1)%Q → (0 < v)%Q →
  ∃ M' D', drawdown_step (Fin M, Fin D) (Fin v) = (Fin M', Fin D') ∧
           (0 < M')%Q ∧ (v <= M')%Q ∧ (M' = v ∨ M' = M) ∧ (D <= D')%Q ∧ (D' < 1)%Q ∧
           ((v == M')%Q → D' = D).
Proof.
  intros HM HD0 HD1 Hv. unfold drawdown_step. cbn [gtb ltb].
  assert (Hdd : ∀ M', (0 < M')%Q → (v <= M')%Q →
            ∃ dd, (Fin M' - Fin v) / Fin M' = Fin dd ∧ (0 <= dd)%Q ∧ (dd < 1)%Q ∧
                  ((v == M')%Q → (dd == 0)%Q)).
  { intros M' HM' HvM. cbn [sub neg add div].
    destruct (Qeq_bool M' 0) eqn:E; qbool; [lra |].
    eexists. split; [done |]. split; [apply Qle_shift_div_l; lra |].
    split; [apply Qlt_shift_div_r; lra |].
    intros Heq. rewrite Heq. field. lra. }
  destruct (Qltb M v) eqn:E; qbool.
  - destruct (Hdd v Hv) as (dd & -> & Hd0 & Hd1 & Hz); [lra |].
    cbn [gtb ltb]. destruct (Qltb D dd) eqn:E'; qbool.
    + exists v, dd. repeat split; try done; try lra; try (by left);
        try (intros Heq; assert (dd == 0)%Q by (apply Hz; lra); lra).
    + exists v, D. repeat split; try done; try lra; by left.
  - destruct (Hdd M HM) as (dd & -> & Hd0 & Hd1 & Hz); [lra |].
    cbn [gtb ltb]. destruct (Qltb D dd) eqn:E'; qbool.
    + exists M, dd. repeat split; try done; try lra; try (by right);
        try (intros Heq; assert (dd == 0)%Q by (by apply Hz); lra).
    + exists M, D. repeat split; try done; try lra; by right.
Qed.

Lemma drawdown_fold_finite (qs : list Q) (M D : Q) :
  (0 < M)%Q → (0 <= D)%Q → (D < 1)%Q → Forall (λ q, 0 < q)%Q qs →
  ∃ M' D', fold_left drawdown_step (map Fin qs) (Fin M, Fin D) = (Fin M', Fin D') ∧
           (D <= D')%Q ∧ (D' < 1)%Q ∧
           (StronglySorted Qle qs → Forall (λ q, M <= q)%Q qs → D' = D).
Proof.
  revert M D. induction qs as [| q qs IH]; intros M D HM HD0 HD1 Hall.
  - exists M, D. repeat split; try done; lra.
  - apply Forall_cons in Hall as [Hq Hall]. cbn [map fold_left].
    destruct (drawdown_step_finite M D q)
      as (M1 & D1 & -> & HM1 & HqM & HMM & HDD & HD1' & Hsame); try done.
    destruct (IH M1 D1) as (M' & D' & -> & HD & HD' & Hmono); try done; [lra |].
    exists M', D'. split; [done |]. split; [lra |]. split; [done |].
    intros Hs HMq. apply StronglySorted_inv in Hs as [Hs Hhd].
    apply Forall_cons in HMq as [HMq HMqs].
    assert (Heq : (q == M1)%Q) by (destruct HMM as [-> | ->]; lra).
    rewrite <- (Hsame Heq). apply Hmono; [done |].
    eapply Forall_impl; [exact Hhd |]. intros p Hp. cbv beta in Hp. lra.
Qed.

(** On an equity curve of positive finite numbers, [maxDrawdown] is a
    finite number in [0, 1]; it is exactly 0 when the curve never falls, and
    0 on the empty curve. *)
Theorem maxDrawdown_unit (qs : list Q) :
  Forall (λ q, 0 < q)%Q qs →
  ∃ d, maxDrawdown (map Fin qs) = Fin d ∧ (0 <= d)%Q ∧ (d <= 1)%Q ∧
       (StronglySorted Qle qs → d = 0%Q).
Proof.
  intros Hall. destruct qs as [| q qs].
  - exists 0%Q. repeat split; try done; lra.
  - unfold maxDrawdown. cbn [map].
    pose proof Hall as Hq. apply Forall_cons in Hq as [Hq _].
    destruct (drawdown_fold_finite (q :: qs) q 0) as (M' & D' & HF & HD & HD' & Hmono);
      try done; try lra.
    cbn [map] in HF. rewrite HF. exists D'.
    split; [done |]. split; [done |]. split; [lra |].
    intros Hs. apply Hmono; [done |].
    pose proof Hs as Hs'. apply StronglySorted_inv in Hs' as [_ Hhd].
    constructor; [lra | done].
Qed.

Lemma maxDrawdown_unit_witness :
  ∃ d, maxDrawdown [$100; $120; $90; $130] = Fin d ∧ (0 <= d)%Q ∧ (d <= 1)%Q.
Proof.
  destruct (maxDrawdown_unit [100; 120; 90; 130]%Q) as (d & H1 & H2 & H3 & _).
  - repeat constructor.
  - exists d. split; [exact H1 |]. split; [exact H2 | exact H3].
Defined.

End MathSeriesFacts.

(** ** Risk governance: what an approved signal satisfies *)

Module RiskGovernanceLimits.
Import RiskGovernance NumFacts RiskGovernanceFacts SortFacts.
Local Open Scope num_scope.

Lemma approveSignal_checks g portfolio structuralFeatures now signal a :
  approveSignal g portfolio structuralFeatures now signal = Some a →
  (RiskMetrics.correlation (ApprovedSignal.riskMetrics a)
   >? RiskLimits.maxCorrelation (limits g)) = false ∧
  (Num.abs (RiskMetrics.gammaExposure (ApprovedSignal.riskMetrics a))
   >? Portfolio.totalValue portfolio * $0.01) = false ∧
  ApprovedSignal.riskMetrics a = calculateRiskMetrics signal portfolio ∧
  ApprovedSignal.executionConstraints a
  = determineExecutionConstraints signal structuralFeatures ∧
  ApprovedSignal.riskScore a
  = calculateRiskScore (calculateRiskMetrics signal portfolio) structuralFeatures.
Proof.
  unfold approveSignal.
  destruct (_ <=? $0); [done |].
  destruct (RiskMetrics.correlation _ >? _) eqn:Hcorr; [done |].
  destruct (Num.abs _ >? _) eqn:Hgamma; [done |].
  intros [= <-]. by cbn.
Qed.

Lemma calculateRiskScore_unit riskMetrics structuralFeatures :
  let score := calculateRiskScore riskMetrics structuralFeatures in
  Num.is_nan score = true ∨ Num.inUnit score = true.
Proof.
  unfold calculateRiskScore. cbv zeta.
  match goal with |- context [MathUtil.clamp ?x _ _] => generalize x end.
  intros x. destruct (Num.is_nan x) eqn:E.
  - left. by destruct x.
  - right. by apply MathUtilFacts.clamp_unit.
Qed.

(** Every signal that [filterSignals] returns stems from a submitted
    signal and passed each per-signal check: its size is not zero or
    negative, its correlation with the book is not above [maxCorrelation],
    its gamma exposure is not above 1% of the portfolio value, and its risk
    score is a number in [0, 1] unless it is [NaN]. *)
Theorem filterSignals_respects_signal_limits
    g signals portfolio structuralFeatures now a :
  a ∈ (filterSignals g signals portfolio structuralFeatures now).2 →
  ApprovedSignal.originalSignal a ∈ signals ∧
  (ApprovedSignal.approvedSize a <=? $0) = false ∧
  (RiskMetrics.correlation (ApprovedSignal.riskMetrics a)
   >? RiskLimits.maxCorrelation (limits g)) = false ∧
  (Num.abs (RiskMetrics.gammaExposure (ApprovedSignal.riskMetrics a))
   >? Portfolio.totalValue portfolio * $0.01) = false ∧
  (Num.is_nan (ApprovedSignal.riskScore a) = true ∨
   Num.inUnit (ApprovedSignal.riskScore a) = true).
Proof.
  intros Ha. apply filterSignals_elem in Ha as (signal & Hin & Happ).
  destruct (approveSignal_Some _ _ _ _ _ _ Happ) as (Horig & _ & Hsize).
  destruct (approveSignal_checks _ _ _ _ _ _ Happ) as (Hcorr & Hgamma & _ & _ & Hscore).
  rewrite updateRiskState_limits in Hcorr.
  split; [by rewrite Horig |]. split; [done |]. split; [done |]. split; [done |].
  rewrite Hscore. apply calculateRiskScore_unit.
Qed.

Lemma filterSignals_respects_signal_limits_witness :
  ∃ a, a ∈ (filterSignals Scenario.freshGovernance [Scenario.longSignal]
              (Scenario.portfolioWithDailyPnL $0) Scenario.quietFeatures 2000%Z).2 ∧
       (ApprovedSignal.approvedSize a <=? $0) = false ∧
       ApprovedSignal.originalSignal a ∈ [Scenario.longSignal].
Proof.
  exists Scenario.approvedLongSignal.
  assert (Hin : Scenario.approvedLongSignal
                ∈ (filterSignals Scenario.freshGovernance [Scenario.longSignal]
                     (Scenario.portfolioWithDailyPnL $0) Scenario.quietFeatures 2000%Z).2).
  { vm_compute. left. }
  split; [exact Hin |].
  destruct (filterSignals_respects_signal_limits _ _ _ _ _ _ Hin)
    as (H2 & H1 & _).
  split; [exact H1 | exact H2].
Defined.

(** *** Portfolio-level constraints *)

(** The loop stops with totals that passed both checks, whenever it
    approved anything. *)
Lemma applyPortfolioConstraints_loop_totals g portfolio signals totalRisk totalMargin :
  let approved := applyPortfolioConstraints_loop g portfolio signals totalRisk totalMargin in
  approved ≠ [] →
  (fold_left (λ totalRisk signal,
     totalRisk + RiskMetrics.varContribution (ApprovedSignal.riskMetrics signal))
     approved totalRisk >? RiskLimits.maxPortfolioRisk (limits g)) = false ∧
  (fold_left (λ totalMargin signal,
     totalMargin + RiskMetrics.marginRequired (ApprovedSignal.riskMetrics signal))
     approved totalMargin
   >? Portfolio.marginAvailable portfolio + Portfolio.marginUsed portfolio) = false.
Proof.
  revert totalRisk totalMargin.
  induction signals as [| signal rest IH]; intros totalRisk totalMargin; [done |].
  cbn [applyPortfolioConstraints_loop]. cbv zeta.
  destruct (_ >? RiskLimits.maxPortfolioRisk _) eqn:Hrisk; [apply IH |].
  destruct (_ >? Portfolio.marginAvailable _ + _) eqn:Hmargin; [apply IH |].
  intros _. cbn [fold_left].
  destruct (applyPortfolioConstraints_loop g portfolio rest _ _) as [| b approved] eqn:Hrest.
  - done.
  - rewrite <- Hrest. apply IH. by rewrite Hrest.
Qed.

(** When [filterSignals] approves anything, the approved signals together
    stay within the portfolio limits the loop checks: their summed VaR
    contributions are not above [maxPortfolioRisk], and the margin in use
    plus their summed margin requirements is not above the portfolio's total
    margin. *)
Theorem filterSignals_within_portfolio_budget
    g signals portfolio structuralFeatures now :
  let approved := (filterSignals g signals portfolio structuralFeatures now).2 in
  approved ≠ [] →
  (riskTaken approved >? RiskLimits.maxPortfolioRisk (limits g)) = false ∧
  (marginTaken portfolio approved
   >? Portfolio.marginAvailable portfolio + Portfolio.marginUsed portfolio) = false.
Proof.
  unfold filterSignals.
  destruct (killSwitchActive g); [done |].
  destruct (negb _); [done |]. cbn [snd].
  unfold applyPortfolioConstraints. case_decide; [done |].
  intros Hne.
  destruct (applyPortfolioConstraints_loop_totals _ _ _ _ _ Hne) as [Hrisk Hmargin].
  rewrite updateRiskState_limits in Hrisk. by split.
Qed.

Lemma filterSignals_within_portfolio_budget_witness :
  let approved :=
    (filterSignals Scenario.freshGovernance [Scenario.longSignal]
       (Scenario.portfolioWithDailyPnL $0) Scenario.quietFeatures 2000%Z).2 in
  (riskTaken approved >? $0.02) = false ∧
  (marginTaken (Scenario.portfolioWithDailyPnL $0) approved >? $50000 + $0) = false.
Proof.
  apply (filterSignals_within_portfolio_budget Scenario.freshGovernance
           [Scenario.longSignal] (Scenario.portfolioWithDailyPnL $0)
           Scenario.quietFeatures 2000%Z).
  by vm_compute.
Defined.

Lemma applyPortfolioConstraints_loop_sorted (R : relation ApprovedSignal.t)
    g portfolio signals totalRisk totalMargin :
  StronglySorted R signals →
  StronglySorted R (applyPortfolioConstraints_loop g portfolio signals totalRisk totalMargin).
Proof.
  intros Hs. revert totalRisk totalMargin.
  induction Hs as [| signal rest Hs IH Hhd]; intros totalRisk totalMargin; [constructor |].
  cbn [applyPortfolioConstraints_loop]. cbv zeta.
  destruct (_ >? RiskLimits.maxPortfolioRisk _); [apply IH |].
  destruct (_ >? Portfolio.marginAvailable _ + _); [apply IH |].
  constructor; [apply IH |].
  rewrite Forall_forall in Hhd. apply Forall_forall. intros b Hb.
  apply Hhd. by apply applyPortfolioConstraints_loop_elem in Hb.
Qed.

(** [filterSignals] returns the approved signals in ascending order of risk
    score, provided the risk score of every submitted signal is a number. *)
Theorem filterSignals_ascending_risk
    g signals portfolio structuralFeatures now :
  (∀ signal, signal ∈ signals →
     Num.is_nan (calculateRiskScore (calculateRiskMetrics signal portfolio)
                   structuralFeatures) = false) →
  StronglySorted
    (λ a b, (ApprovedSignal.riskScore a <=? ApprovedSignal.riskScore b) = true)
    (filterSignals g signals portfolio structuralFeatures now).2.
Proof.
  intros Hscores. unfold filterSignals.
  destruct (killSwitchActive g); [constructor |].
  destruct (negb _); [constructor |]. cbn [snd].
  unfold applyPortfolioConstraints. case_decide; [constructor |].
  apply applyPortfolioConstraints_loop_sorted.
  apply (sort_ascending ApprovedSignal.riskScore).
  apply Forall_forall. intros a Ha.
  apply list_elem_of_omap in Ha as (signal & Hin & Happ).
  destruct (approveSignal_checks _ _ _ _ _ _ Happ) as (_ & _ & _ & _ & ->).
  by apply Hscores.
Qed.

Lemma filterSignals_ascending_risk_witness :
  StronglySorted
    (λ a b, (ApprovedSignal.riskScore a <=? ApprovedSignal.riskScore b) = true)
    (filterSignals Scenario.freshGovernance [Scenario.longSignal; Scenario.longSignal]
       (Scenario.portfolioWithDailyPnL $0) Scenario.quietFeatures 2000%Z).2.
Proof.
  apply filterSignals_ascending_risk.
  intros signal Hin.
  assert (signal = Scenario.longSignal) as ->.
  { rewrite !elem_of_cons, elem_of_nil in Hin. tauto. }
  reflexivity.
Defined.

(** *** The daily reset *)

Lemma daily_loss_reason (amount : string) :
  MathUtil.string_includes ("Max daily loss exceeded: " +:+ amount) "daily loss" = true.
Proof. reflexivity. Qed.

(** A risk-state update that sees the daily loss limit breached leaves a
    kill switch that the next [resetDailyRisk] lifts: the reason recorded
    last is the daily loss, also when the drawdown limit was breached in the
    same update or the switch was already active. *)
Theorem resetDailyRisk_lifts_daily_loss_switch g portfolio :
  dailyLossBreached g portfolio = true →
  killSwitchActive (updateRiskState g portfolio) = true ∧
  let g' := resetDailyRisk (updateRiskState g portfolio) in
  killSwitchActive g' = false ∧
  getKillSwitchReason g' = "" ∧
  dailyPnL g' = $0 ∧
  limits g' = limits g.
Proof.
  intros Hloss.
  split; [rewrite updateRiskState_killSwitch, Hloss; apply orb_true_r |].
  unfold dailyLossBreached in Hloss.
  unfold updateRiskState. cbv zeta.
  set (g1 := if _ >? peakEquity g then _ else g).
  assert (Hl1 : limits g1 = limits g) by (unfold g1; by destruct (_ >? _)).
  set (g2 := if _ >? RiskLimits.maxDrawdown (limits g1) then _ else g1).
  assert (Hl2 : limits g2 = limits g).
  { unfold g2. by destruct (_ >? RiskLimits.maxDrawdown _). }
  cbn [dailyPnL limits]. rewrite Hl2, Hloss.
  unfold resetDailyRisk, activateKillSwitch. cbn [killSwitchReason limits peakEquity
    killSwitchActive dailyPnL].
  rewrite daily_loss_reason. by cbn.
Qed.

Lemma resetDailyRisk_lifts_daily_loss_switch_witness :
  killSwitchActive
    (resetDailyRisk
       (updateRiskState Scenario.freshGovernance
          (Scenario.portfolioWithDailyPnL $(-6000)))) = false.
Proof.
  apply (resetDailyRisk_lifts_daily_loss_switch Scenario.freshGovernance
           (Scenario.portfolioWithDailyPnL $(-6000))).
  reflexivity.
Defined.

(** *** The risk summary *)

Lemma updateRiskState_peakEquity g portfolio :
  peakEquity (updateRiskState g portfolio)
  = if Portfolio.totalValue portfolio >? peakEquity g
    then Portfolio.totalValue portfolio else peakEquity g.
Proof.
  unfold updateRiskState.
  destruct (Portfolio.totalValue portfolio >? peakEquity g); simpl;
    repeat (match goal with
            | |- context [if ?c then _ else _] =>
                lazymatch c with
                | context [if _ then _ else _] => fail
                | _ => destruct c eqn:?
                end
            end; simpl);
    reflexivity.
Qed.

Lemma updateRiskState_dailyPnL g portfolio :
  dailyPnL (updateRiskState g portfolio) = Portfolio.dailyPnL portfolio.
Proof.
  unfold updateRiskState.
  repeat match goal with |- context [if ?c then _ else _] => destruct c end;
    reflexivity.
Qed.

(** After a risk-state update on a portfolio of positive finite value, with
    a recorded peak that is a non-negative finite number, the summary for
    that portfolio reports a drawdown in [0, 1] and the portfolio's daily
    P&L; and as long as the drawdown limit (positive, finite) is not
    breached, the remaining risk capacity lies in [0, 1]. *)
Theorem getRiskSummary_after_update g portfolio (value peak limit : Q) :
  Portfolio.totalValue portfolio = Fin value → (0 < value)%Q →
  peakEquity g = Fin peak → (0 <= peak)%Q →
  RiskLimits.maxDrawdown (limits g) = Fin limit → (0 < limit)%Q →
  let summary := getRiskSummary (updateRiskState g portfolio) portfolio in
  (∃ drawdown, RiskSummary.currentDrawdown summary = Fin drawdown ∧
               (0 <= drawdown)%Q ∧ (drawdown <= 1)%Q) ∧
  RiskSummary.dailyPnL summary = Portfolio.dailyPnL portfolio ∧
  (drawdownBreached g portfolio = false →
   Num.inUnit (RiskSummary.riskCapacity summary) = true).
Proof.
  intros Hvalue Hpos Hpeak Hpk Hlimit Hlim summary.
  unfold summary, getRiskSummary, drawdownBreached, drawdownSeen.
  cbn [RiskSummary.currentDrawdown RiskSummary.dailyPnL RiskSummary.riskCapacity].
  rewrite updateRiskState_peakEquity, updateRiskState_dailyPnL, updateRiskState_limits.
  rewrite Hvalue, Hpeak, Hlimit. cbn [Num.gtb Num.ltb].
  set (top := if Num.Qltb peak value then value else peak).
  assert (Htop : (0 < top)%Q ∧ (value <= top)%Q).
  { unfold top. destruct (Num.Qltb peak value) eqn:E; qbool; split; lra. }
  destruct Htop as [Htop0 Htop1].
  replace (if Num.Qltb peak value then Fin value else Fin peak) with (Fin top)
    by (unfold top; by destruct (Num.Qltb peak value)).
  cbn [Num.ltb Num.sub Num.neg Num.add Num.div].
  destruct (Num.Qltb 0 top) eqn:E0; qbool; [| lra].
  destruct (Qeq_bool top 0) eqn:E1; qbool; [lra |].
  set (drawdown := ((top + - value) / top)%Q).
  assert (Hd0 : (0 <= drawdown)%Q) by (apply Qle_shift_div_l; lra).
  assert (Hd1 : (drawdown < 1)%Q) by (apply Qlt_shift_div_r; lra).
  split; [exists drawdown; split; [done |]; split; [done | lra] |]. split; [done |].
  cbn [Num.ltb Num.div]. intros Hnot. qbool.
  destruct (Qeq_bool limit 0) eqn:E2; qbool; [lra |].
  cbn [Num.neg Num.add]. apply inUnit_Fin.
  - assert (drawdown / limit <= 1)%Q by (apply Qle_shift_div_r; lra). lra.
  - assert (0 <= drawdown / limit)%Q by (apply Qle_shift_div_l; lra). lra.
Qed.

Lemma getRiskSummary_after_update_witness :
  let summary :=
    getRiskSummary
      (updateRiskState Scenario.freshGovernance (Scenario.portfolioWithDailyPnL $(-100)))
      (Scenario.portfolioWithDailyPnL $(-100)) in
  RiskSummary.dailyPnL summary = $(-100) ∧
  Num.inUnit (RiskSummary.riskCapacity summary) = true.
Proof.
  destruct (getRiskSummary_after_update Scenario.freshGovernance
              (Scenario.portfolioWithDailyPnL $(-100)) 100000 0 0.15)
    as (_ & H1 & H2); [reflexivity | lra | reflexivity | lra | reflexivity | lra |].
  split; [exact H1 | apply H2; reflexivity].
Defined.

End RiskGovernanceLimits.

(** ** Meta-controller: what a classified regime reports *)

Module MetaControllerRegimes.
Import Num NumFacts MathUtil MathUtilFacts CircularBuffer CircularBufferFacts.
Import MetaController MetaControllerFacts.
Local Open Scope num_scope.

Lemma clamp_Fin (q lo hi : Q) :
  (lo <= hi)%Q →
  ∃ r, clamp (Fin q) (Fin lo) (Fin hi) = Fin r ∧ (lo <= r)%Q ∧ (r <= hi)%Q.
Proof.
  intros Hle. unfold clamp. cbn [max2 ltb].
  destruct (Qltb q lo) eqn:E1; qbool; cbn [min2 ltb].
  - destruct (Qltb hi lo) eqn:E2; qbool; eexists; (split; [done | lra]).
  - destruct (Qltb hi q) eqn:E2; qbool; eexists; (split; [done | lra]).
Qed.

Lemma features_Fin structuralFeatures :
  featuresFinite structuralFeatures = true →
  ∃ momentum trendStrength volatility volOfVol gammaMagnitude,
    RegimeFeatures.momentum (extractRegimeFeatures structuralFeatures) = Fin momentum ∧
    RegimeFeatures.trendStrength (extractRegimeFeatures structuralFeatures) = Fin trendStrength ∧
    RegimeFeatures.volatility (extractRegimeFeatures structuralFeatures) = Fin volatility ∧
    RegimeFeatures.volOfVol (extractRegimeFeatures structuralFeatures) = Fin volOfVol ∧
    RegimeFeatures.gammaMagnitude (extractRegimeFeatures structuralFeatures) = Fin gammaMagnitude.
Proof.
  unfold featuresFinite, RegimeFeatures.values.
  generalize (extractRegimeFeatures structuralFeatures). intros features.
  cbn [forallb]. rewrite !andb_true_iff.
  intros (Hm & Ht & Hv & Hvv & _ & _ & _ & Hg & _).
  destruct (RegimeFeatures.momentum features); try done.
  destruct (RegimeFeatures.trendStrength features); try done.
  destruct (RegimeFeatures.volatility features); try done.
  destruct (RegimeFeatures.volOfVol features); try done.
  destruct (RegimeFeatures.gammaMagnitude features); try done.
  eauto 10.
Qed.

Lemma calculateRegimeConfidence_unit structuralFeatures regimeType :
  featuresFinite structuralFeatures = true →
  inUnit (calculateRegimeConfidence (extractRegimeFeatures structuralFeatures) regimeType)
  = true.
Proof.
  intros (m & t & v & vv & g & Hm & Ht & Hv & Hvv & Hg)%features_Fin.
  unfold calculateRegimeConfidence. rewrite Hm, Ht, Hv, Hg.
  apply clamp_unit.
  assert (Hclamp : ∀ x, is_finite x = true → ∃ r, clamp x $0 $1 = Fin r).
  { intros [q | | |] Hx; try done.
    destruct (clamp_Fin q 0 1 ltac:(lra)) as (r & -> & _). eauto. }
  destruct regimeType;
    repeat match goal with
    | |- context [clamp ?x (Fin 0) (Fin 1)] =>
        let r := fresh "r" in
        destruct (Hclamp x eq_refl) as (r & ->)
    end; reflexivity.
Qed.

Lemma durationFrom_le history regimeType duration :
  durationFrom history regimeType = Some duration → (duration ≤ length history)%nat.
Proof.
  revert duration. induction history as [| [h |] history IH]; intros duration; simpl.
  - intros [= <-]. lia.
  - case_decide; [| intros [= <-]; lia].
    destruct (durationFrom history regimeType) as [d |]; [| done].
    intros [= <-]. specialize (IH d eq_refl). lia.
  - done.
Qed.

Lemma calculateTransitionProbability_range c currentRegime structuralFeatures p :
  featuresFinite structuralFeatures = true →
  calculateTransitionProbability c currentRegime
    (extractRegimeFeatures structuralFeatures) = Some p →
  ∃ q, p = Fin q ∧ (0 <= q)%Q ∧ (q <= 0.9)%Q.
Proof.
  intros (m & t & v & vv & g & Hm & Ht & Hv & Hvv & Hg)%features_Fin.
  unfold calculateTransitionProbability. case_decide.
  { intros [= <-]. exists 0.1%Q. split; [done | lra]. }
  destruct (match toArray (regimeHistory c) with [] => _ | _ => _ end)
    as [[transitions sameRegimeCount] |]; [| done].
  cbn [mbind option_bind]. rewrite Hvv.
  intros Heq. apply (inj Some) in Heq. subst p. cbv zeta.
  assert (Hbase : ∃ b, (if decide (0 < sameRegimeCount)%nat
                        then of_nat transitions / of_nat sameRegimeCount
                        else $0.1) = Fin b).
  { case_decide as Hpos; [| by eexists].
    unfold of_nat, of_Z. cbn [div].
    pose proof (inject_Z_of_nat_pos sameRegimeCount Hpos).
    destruct (Qeq_bool _ 0) eqn:E; qbool; [lra | by eexists]. }
  destruct Hbase as (b & ->). cbn [Num.mul Num.add].
  destruct (clamp_Fin (b + vv * 0.5) 0 0.9 ltac:(lra)) as (r & -> & Hr0 & Hr1).
  by exists r.
Qed.

(** What one [classifyRegime] call does to the controller: the feature
    buffers aside, it appends the returned regime to the regime history, and
    the returned duration is the run of that regime type at the end of the
    history it found. *)
Lemma classifyRegime_inv c structuralFeatures now regime c' :
  classifyRegime c structuralFeatures now = Some (regime, c') →
  Regime.type regime
  = determineRegimeType (extractRegimeFeatures structuralFeatures) structuralFeatures ∧
  Regime.confidence regime
  = calculateRegimeConfidence (extractRegimeFeatures structuralFeatures)
      (Regime.type regime) ∧
  durationFrom (reverse (toArray (regimeHistory c))) (Regime.type regime)
  = Some (Regime.duration regime) ∧
  calculateTransitionProbability (updateFeatureHistory c (extractRegimeFeatures structuralFeatures))
    (Regime.type regime) (extractRegimeFeatures structuralFeatures)
  = Some (Regime.transitionProbability regime) ∧
  regimeHistory c'
  = CircularBuffer.add (regimeHistory c)
      {| RegimeHistory.regime := regime;
         RegimeHistory.timestamp := now;
         RegimeHistory.features :=
           RegimeFeatures.values (extractRegimeFeatures structuralFeatures) |} ∧
  coherenceHistory c' = coherenceHistory c.
Proof.
  unfold classifyRegime, calculateRegimeDuration. cbv zeta. cbn [regimeHistory updateFeatureHistory].
  destruct (durationFrom _ _) as [duration |] eqn:Hdur; [| done]. cbn [mbind option_bind].
  destruct (calculateTransitionProbability _ _ _) as [p |] eqn:Hp; [| done].
  cbn [mbind option_bind]. intros [= <- <-]. by cbn.
Qed.

(** On a controller in a sound state, the regime that [classifyRegime]
    returns for a finite snapshot has a confidence in [0, 1], a transition
    probability in [0, 0.9] and a duration no longer than the history, and
    it is the newest entry of the regime history afterwards. *)
Theorem classifyRegime_bounds c structuralFeatures now regime c' :
  stateOk c → featuresFinite structuralFeatures = true →
  classifyRegime c structuralFeatures now = Some (regime, c') →
  inUnit (Regime.confidence regime) = true ∧
  ($0 <=? Regime.transitionProbability regime) = true ∧
  (Regime.transitionProbability regime <=? $0.9) = true ∧
  (Regime.duration regime ≤ CircularBuffer.size (regimeHistory c))%nat ∧
  RegimeHistory.regime <$> mjoin (last (toArray (regimeHistory c'))) = Some regime.
Proof.
  intros Hok Hfin Hclass.
  destruct (classifyRegime_inv _ _ _ _ _ Hclass) as (Htype & Hconf & Hdur & Hp & Hhist & _).
  split; [rewrite Hconf; by apply calculateRegimeConfidence_unit |].
  destruct (calculateTransitionProbability_range _ _ _ _ Hfin Hp) as (q & -> & Hq0 & Hq1).
  split; [unfold leb; simpl; apply negb_true_iff; by qbool |].
  split; [unfold leb; simpl; apply negb_true_iff; by qbool |].
  split.
  - apply durationFrom_le in Hdur.
    rewrite length_reverse in Hdur. unfold toArray in Hdur.
    by rewrite CircularBufferReads.tabulate_length in Hdur.
  - rewrite Hhist. destruct Hok as [[Hwf _] _].
    destruct (decide (count (regimeHistory c) < capacity (regimeHistory c))%nat)
      as [Hroom | Hfull].
    + match goal with |- context [CircularBuffer.add _ ?entry] =>
        destruct (toArray_add_room _ entry Hwf Hroom) as [_ ->]
      end.
      by rewrite last_snoc.
    + assert (Hcount : count (regimeHistory c) = capacity (regimeHistory c)).
      { destruct Hwf as (_ & _ & _ & Hle & _). lia. }
      match goal with |- context [CircularBuffer.add _ ?entry] =>
        destruct (toArray_add_full _ entry Hwf Hcount) as [_ ->]
      end.
      by rewrite last_snoc.
Qed.

Lemma classifyRegime_bounds_witness :
  ∃ regime c',
    classifyRegime MetaController.new Scenario.quietFeatures 2000%Z = Some (regime, c') ∧
    inUnit (Regime.confidence regime) = true ∧
    Regime.duration regime = 0%nat.
Proof.
  destruct (classifyRegime MetaController.new Scenario.quietFeatures 2000%Z)
    as [[regime c'] |] eqn:Hclass; [| by vm_compute in Hclass].
  exists regime, c'. split; [done |].
  destruct (classifyRegime_bounds MetaController.new Scenario.quietFeatures 2000%Z
              regime c' stateOk_new eq_refl Hclass) as (H1 & _ & _ & H2 & _).
  split; [exact H1 |]. change (CircularBuffer.size _) with 0%nat in H2. lia.
Defined.

Lemma durationFrom_take history regimeType duration (k : nat) :
  durationFrom history regimeType = Some duration →
  durationFrom (take k history) regimeType = Some (Nat.min k duration).
Proof.
  revert duration k. induction history as [| [h |] history IH]; intros duration k; simpl.
  - intros [= <-]. by destruct k.
  - destruct k as [| k]; [by intros _ |]. simpl.
    case_decide; [| by intros [= <-]].
    destruct (durationFrom history regimeType) as [d |] eqn:Hd; [| done].
    intros [= <-]. by rewrite (IH d k eq_refl).
  - done.
Qed.

(** Consecutive classifications count the run of a regime type: when the
    next [classifyRegime] call returns the same type as the previous one,
    its duration is the previous duration plus one, capped at the capacity
    of the regime history (100 for a controller made by the constructor);
    when it returns another type, its duration is 0. *)
Theorem classifyRegime_duration_counts_run
    c structuralFeatures1 now1 regime1 c1 structuralFeatures2 now2 regime2 c2 :
  stateOk c →
  classifyRegime c structuralFeatures1 now1 = Some (regime1, c1) →
  classifyRegime c1 structuralFeatures2 now2 = Some (regime2, c2) →
  Regime.duration regime2
  = if decide (Regime.type regime2 = Regime.type regime1)
    then Nat.min (S (Regime.duration regime1)) (capacity (regimeHistory c))
    else 0%nat.
Proof.
  intros [[Hwf _] _] Hclass1 Hclass2.
  destruct (classifyRegime_inv _ _ _ _ _ Hclass1) as (_ & _ & Hdur1 & _ & Hhist1 & _).
  destruct (classifyRegime_inv _ _ _ _ _ Hclass2) as (_ & _ & Hdur2 & _ & _ & _).
  rewrite Hhist1 in Hdur2.
  set (entry := {| RegimeHistory.regime := regime1 |}) in *.
  assert (Hlen : length (toArray (regimeHistory c)) = count (regimeHistory c)).
  { unfold toArray. by rewrite CircularBufferReads.tabulate_length. }
  pose proof Hwf as (Hc & _ & _ & Hcnt & _).
  destruct (decide (count (regimeHistory c) < capacity (regimeHistory c))%nat)
    as [Hroom | Hfull].
  - destruct (toArray_add_room _ entry Hwf Hroom) as [_ Harr].
    rewrite Harr, reverse_snoc in Hdur2. cbn [durationFrom] in Hdur2.
    unfold entry in Hdur2 at 1. cbn [RegimeHistory.regime] in Hdur2.
    destruct (decide (Regime.type regime1 = Regime.type regime2)) as [Heq | Hne].
    + rewrite decide_True by done. rewrite <- Heq, Hdur1 in Hdur2.
      injection Hdur2 as <-.
      apply durationFrom_le in Hdur1. rewrite length_reverse, Hlen in Hdur1. lia.
    + rewrite decide_False by done. by injection Hdur2 as <-.
  - assert (Hcount : count (regimeHistory c) = capacity (regimeHistory c)) by lia.
    destruct (toArray_add_full _ entry Hwf Hcount) as [_ Harr].
    rewrite Harr, reverse_snoc, reverse_drop in Hdur2. cbn [durationFrom] in Hdur2.
    unfold entry in Hdur2 at 1. cbn [RegimeHistory.regime] in Hdur2.
    destruct (decide (Regime.type regime1 = Regime.type regime2)) as [Heq | Hne].
    + rewrite decide_True by done. rewrite <- Heq in Hdur2.
      rewrite (durationFrom_take _ _ _ _ Hdur1) in Hdur2.
      injection Hdur2 as <-. rewrite Hlen. lia.
    + rewrite decide_False by done. by injection Hdur2 as <-.
Qed.

Lemma classifyRegime_duration_counts_run_witness :
  ∃ regime1 c1 regime2 c2,
    classifyRegime MetaController.new Scenario.quietFeatures 2000%Z = Some (regime1, c1) ∧
    classifyRegime c1 Scenario.quietFeatures 3000%Z = Some (regime2, c2) ∧
    Regime.duration regime1 = 0%nat ∧
    Regime.duration regime2 = 1%nat.
Proof.
  destruct (classifyRegime MetaController.new Scenario.quietFeatures 2000%Z)
    as [[regime1 c1] |] eqn:Hclass1; [| by vm_compute in Hclass1].
  destruct (classifyRegime c1 Scenario.quietFeatures 3000%Z)
    as [[regime2 c2] |] eqn:Hclass2.
  2: { vm_compute in Hclass1. injection Hclass1 as <- <-. by vm_compute in Hclass2. }
  exists regime1, c1, regime2, c2. split; [done |]. split; [done |].
  assert (Hrun := classifyRegime_duration_counts_run _ _ _ _ _ _ _ _ _
                    stateOk_new Hclass1 Hclass2).
  vm_compute in Hclass1. injection Hclass1 as <- <-.
  vm_compute in Hclass2. injection Hclass2 as <- <-.
  split; [reflexivity | exact Hrun].
Defined.

End MetaControllerRegimes.

(** ** Perception: the gamma surface *)

Module PerceptionMatrixSurface.
Import Num NumFacts MathUtil MathUtilFacts SortFacts PerceptionMatrix.
Local Open Scope num_scope.

Lemma surfaceRow_spec optionsChain strikes expiry agg :
  surfaceRow optionsChain strikes expiry agg
  = (map (λ strike, cellGamma optionsChain strike expiry) strikes,
     fold_left aggregate_step
       (map (λ strike, cellGamma optionsChain strike expiry) strikes) agg).
Proof.
  unfold surfaceRow.
  match goal with |- fold_left ?F _ _ = _ => set (step := F) end.
  assert (Hgen : ∀ row0 agg,
            fold_left step strikes (row0, agg)
            = (row0 ++ map (λ strike, cellGamma optionsChain strike expiry) strikes,
               fold_left aggregate_step
                 (map (λ strike, cellGamma optionsChain strike expiry) strikes) agg)).
  { clear agg. induction strikes as [| strike strikes IH]; intros row0 agg.
    - simpl. by rewrite app_nil_r.
    - cbn [fold_left map]. destruct agg as [[maxGamma minGamma] netGamma].
      unfold step at 2. cbv beta iota zeta. rewrite IH. by rewrite <- app_assoc. }
  apply Hgen.
Qed.

Lemma calculateGammaSurface_spec optionsChain spotPrice :
  let strikes := sort (λ a b, a - b) (unique (map OptionData.strike optionsChain)) in
  let expiries := sort (λ a b, a - b) (unique (map OptionData.expiry optionsChain)) in
  let agg :=
    fold_left aggregate_step (concat (cells optionsChain strikes expiries))
      (NInf, PInf, $0) in
  calculateGammaSurface optionsChain spotPrice
  = {| GammaSurface.strikes := strikes;
       GammaSurface.expiries := expiries;
       GammaSurface.values := cells optionsChain strikes expiries;
       GammaSurface.maxGamma := agg.1.1;
       GammaSurface.minGamma := agg.1.2;
       GammaSurface.netGamma := agg.2 |}.
Proof.
  unfold calculateGammaSurface. cbv zeta.
  set (strikes := sort _ (unique (map OptionData.strike optionsChain))).
  set (expiries := sort _ (unique (map OptionData.expiry optionsChain))).
  match goal with |- context [fold_left ?F expiries _] => set (step := F) end.
  assert (Hgen : ∀ values0 agg,
            fold_left step expiries (values0, agg)
            = (values0 ++ cells optionsChain strikes expiries,
               fold_left aggregate_step (concat (cells optionsChain strikes expiries)) agg)).
  { generalize expiries. intros es.
    induction es as [| expiry es IH]; intros values0 agg.
    - simpl. by rewrite app_nil_r.
    - cbn [fold_left]. unfold step at 2. cbv beta iota. rewrite surfaceRow_spec.
      rewrite IH. cbn [cells map concat]. fold (cells optionsChain strikes es).
      by rewrite <- app_assoc, fold_left_app. }
  rewrite Hgen.
  destruct (fold_left aggregate_step _ _) as [[maxGamma minGamma] netGamma].
  reflexivity.
Qed.

Lemma mapM_lookup_seq {A : Type} (l : list A) (n : nat) :
  n = length l → mapM (λ i, l !! i) (seq 0 n) = Some l.
Proof.
  intros ->. apply mapM_Some.
  apply Forall2_same_length_lookup_2; [by rewrite length_seq |].
  intros i x y Hx Hy. apply lookup_seq in Hx as [-> _]. done.
Qed.

Lemma elem_of_concat {A : Type} (x : A) (ls : list (list A)) :
  x ∈ concat ls ↔ ∃ l, l ∈ ls ∧ x ∈ l.
Proof.
  rewrite list_elem_of_In, in_concat. split.
  - intros (l & Hl & Hx). exists l. by rewrite !list_elem_of_In.
  - intros (l & Hl & Hx). exists l. by rewrite <- !list_elem_of_In.
Qed.

Lemma cells_length optionsChain strikes expiries :
  length (cells optionsChain strikes expiries) = length expiries ∧
  Forall (λ row, length row = length strikes) (cells optionsChain strikes expiries).
Proof.
  unfold cells. split; [by rewrite length_map |].
  apply Forall_forall. intros row (expiry & -> & _)%list_elem_of_fmap.
  by rewrite length_map.
Qed.

(** The surface that [calculateGammaSurface] builds is a full matrix, one
    row per expiry and one cell per strike, so that [findGammaFlips] and
    [calculateGravitationalPull] find every row they read and return a
    result. *)
Theorem calculateGammaSurface_shape optionsChain spotPrice :
  let gammaSurface := calculateGammaSurface optionsChain spotPrice in
  length (GammaSurface.values gammaSurface)
  = length (GammaSurface.expiries gammaSurface) ∧
  Forall (λ row, length row = length (GammaSurface.strikes gammaSurface))
    (GammaSurface.values gammaSurface) ∧
  is_Some (findGammaFlips gammaSurface) ∧
  ∀ spot, is_Some (calculateGravitationalPull gammaSurface spot).
Proof.
  intros gammaSurface. unfold gammaSurface.
  rewrite calculateGammaSurface_spec. cbv zeta.
  set (strikes := sort _ (unique (map OptionData.strike optionsChain))).
  set (expiries := sort _ (unique (map OptionData.expiry optionsChain))).
  cbn [GammaSurface.values GammaSurface.expiries GammaSurface.strikes].
  destruct (cells_length optionsChain strikes expiries) as [Hlen Hrows].
  split; [done |]. split; [done |].
  assert (Hsurf : ∀ g, GammaSurface.values g = cells optionsChain strikes expiries →
            GammaSurface.expiries g = expiries →
            surfaceRows g = Some (cells optionsChain strikes expiries)).
  { intros g Hv He. unfold surfaceRows. rewrite Hv, He. by apply mapM_lookup_seq. }
  split.
  - unfold findGammaFlips. rewrite Hsurf by done. by eexists.
  - intros spot. unfold calculateGravitationalPull. rewrite Hsurf by done.
    cbn [mbind option_bind]. destruct (netPull _ _). by eexists.
Qed.

(** *** The aggregates *)

Lemma aggregate_fold (values : list num) (maxGamma minGamma netGamma : num) :
  fold_left aggregate_step values (maxGamma, minGamma, netGamma)
  = (fold_left (λ maxVal value, if value >? maxVal then value else maxVal) values maxGamma,
     fold_left (λ minVal value, if value <? minVal then value else minVal) values minGamma,
     fold_left add values netGamma).
Proof.
  revert maxGamma minGamma netGamma.
  induction values as [| v values IH]; intros maxGamma minGamma netGamma; [done |].
  cbn [fold_left aggregate_step]. apply IH.
Qed.

Lemma running_pick (better : num → num → bool) (values : list num) (acc : num) :
  let m := fold_left (λ best value, if better value best then value else best) values acc in
  m = acc ∨ m ∈ values.
Proof.
  revert acc. induction values as [| v values IH]; intros acc; [by left |].
  cbn [fold_left]. destruct (better v acc).
  - destruct (IH v) as [-> | Hin]; right; [left | by right].
  - destruct (IH acc) as [-> | Hin]; [by left | right; by right].
Qed.

(** The aggregates of the surface: [maxGamma] and [minGamma] are never
    [NaN] and bound every cell of the matrix that is not [NaN]; each is a
    cell of the matrix unless it is still its initial [-Infinity] or
    [Infinity]; [netGamma] is the sum of the cells, row after row. For an
    empty options chain the three are [-Infinity], [Infinity] and 0. *)
Theorem calculateGammaSurface_aggregates optionsChain spotPrice :
  let gammaSurface := calculateGammaSurface optionsChain spotPrice in
  is_nan (GammaSurface.maxGamma gammaSurface) = false ∧
  is_nan (GammaSurface.minGamma gammaSurface) = false ∧
  (∀ row cell, row ∈ GammaSurface.values gammaSurface → cell ∈ row →
     is_nan cell = false →
     (GammaSurface.minGamma gammaSurface <=? cell) = true ∧
     (cell <=? GammaSurface.maxGamma gammaSurface) = true) ∧
  (GammaSurface.maxGamma gammaSurface = NInf ∨
   GammaSurface.maxGamma gammaSurface ∈ concat (GammaSurface.values gammaSurface)) ∧
  (GammaSurface.minGamma gammaSurface = PInf ∨
   GammaSurface.minGamma gammaSurface ∈ concat (GammaSurface.values gammaSurface)) ∧
  GammaSurface.netGamma gammaSurface
  = Num.sum (concat (GammaSurface.values gammaSurface)) ∧
  (optionsChain = [] →
   GammaSurface.maxGamma gammaSurface = NInf ∧
   GammaSurface.minGamma gammaSurface = PInf ∧
   GammaSurface.netGamma gammaSurface = $0).
Proof.
  intros gammaSurface. unfold gammaSurface.
  split; [| split; [| split; [| split; [| split; [| split]]]]];
    try (intros ->; by vm_compute).
  all: rewrite calculateGammaSurface_spec; cbv zeta.
  all: set (strikes := sort _ (unique (map OptionData.strike optionsChain))).
  all: set (expiries := sort _ (unique (map OptionData.expiry optionsChain))).
  all: cbn [GammaSurface.values GammaSurface.maxGamma GammaSurface.minGamma
            GammaSurface.netGamma].
  all: rewrite aggregate_fold; cbn [fst snd].
  all: set (all := concat (cells optionsChain strikes expiries)).
  - by destruct (NumberBufferFacts.running_max all NInf eq_refl) as (Hnan & _ & _).
  - by destruct (NumberBufferFacts.running_min all PInf eq_refl) as (Hnan & _ & _).
  - intros row cell Hrow Hcell Hc.
    assert (Hin : cell ∈ all) by (apply elem_of_concat; eauto).
    destruct (NumberBufferFacts.running_max all NInf eq_refl) as (_ & _ & Hmax).
    destruct (NumberBufferFacts.running_min all PInf eq_refl) as (_ & _ & Hmin).
    split; auto.
  - apply (running_pick (λ value best, value >? best) all NInf).
  - apply (running_pick (λ value best, value <? best) all PInf).
  - done.
Qed.

(** *** Gamma flips *)

Lemma ifilter_map_elem {A B : Type} (f : nat → A → option B) (l : list A) (b : B) :
  b ∈ ifilter_map f l ↔ ∃ i x, l !! i = Some x ∧ f i x = Some b.
Proof.
  unfold ifilter_map. rewrite list_elem_of_omap. split.
  - intros ([i x] & Hin & Hf).
    apply list_elem_of_lookup_1 in Hin as (j & Hj).
    rewrite list_lookup_imap in Hj.
    destruct (l !! j) as [y |] eqn:Hy; [| done].
    injection Hj as <- <-. eauto.
  - intros (i & x & Hx & Hf). exists (i, x). split; [| done].
    apply (list_elem_of_lookup_2 _ i). by rewrite list_lookup_imap, Hx.
Qed.

Lemma flip_strength_positive (prev curr : Q) :
  (Fin prev * Fin curr <? $0) = true →
  ($0 <? Num.abs (Fin curr - Fin prev)) = true.
Proof.
  cbn [mul sub neg add abs ltb]. intros Hneg. qbool.
  destruct (Qlt_le_dec 0 prev) as [Hp | Hp].
  - assert (curr < 0)%Q by nra.
    rewrite Qabs_neg by lra. lra.
  - destruct (Qlt_le_dec prev 0) as [Hp' | Hp'].
    + assert (0 < curr)%Q by nra. rewrite Qabs_pos by lra. lra.
    + assert (prev == 0)%Q by lra. nra.
Qed.

Lemma flipsOfRow_strength gammaSurface e row flip :
  forallb is_finite row = true →
  flip ∈ flipsOfRow gammaSurface e row →
  ($0 <? GammaFlip.strength flip) = true.
Proof.
  intros Hfin Hin. unfold flipsOfRow in Hin.
  apply ifilter_map_elem in Hin as (s & currGamma & Hs & Hf).
  case_decide as Hs0; [done |].
  destruct (row !! (s - 1)%nat) as [prevGamma |] eqn:Hprev.
  2: { apply lookup_ge_None in Hprev. apply lookup_lt_Some in Hs. lia. }
  assert (Hn : nth_num row (s - 1) = prevGamma) by (unfold nth_num; by rewrite Hprev).
  cbv zeta in Hf. rewrite !Hn in Hf.
  rewrite forallb_forall in Hfin.
  assert (Hc : is_finite currGamma = true).
  { apply Hfin, list_elem_of_In. by eapply list_elem_of_lookup_2. }
  assert (Hp : is_finite prevGamma = true).
  { apply Hfin, list_elem_of_In. by eapply list_elem_of_lookup_2. }
  destruct currGamma as [c | | |], prevGamma as [p | | |]; try done.
  destruct (Fin p * Fin c <? $0) eqn:Hneg; [| done].
  injection Hf as <-. cbn [GammaFlip.strength].
  by apply flip_strength_positive.
Qed.

(** On a surface whose cells are finite numbers, [findGammaFlips] returns
    the sign changes strongest first, and every flip has a strength above
    zero. *)
Theorem findGammaFlips_strongest_first gammaSurface flips :
  Forall (λ row, forallb is_finite row = true) (GammaSurface.values gammaSurface) →
  findGammaFlips gammaSurface = Some flips →
  Forall (λ flip, ($0 <? GammaFlip.strength flip) = true) flips ∧
  StronglySorted
    (λ a b, (GammaFlip.strength b <=? GammaFlip.strength a) = true) flips.
Proof.
  intros Hfin. unfold findGammaFlips.
  destruct (surfaceRows gammaSurface) as [rows |] eqn:Hrows; [| done].
  cbn [mbind option_bind]. intros Heq. apply (inj Some) in Heq. subst flips.
  assert (Hrowsfin : Forall (λ row, forallb is_finite row = true) rows).
  { apply mapM_Some in Hrows. apply Forall_forall. intros row Hrow.
    apply list_elem_of_lookup_1 in Hrow as (i & Hi).
    destruct (Forall2_lookup_r _ _ _ _ _ Hrows Hi) as (e & _ & He).
    rewrite Forall_forall in Hfin. by eapply Hfin, list_elem_of_lookup_2. }
  assert (Hpos : Forall (λ flip, ($0 <? GammaFlip.strength flip) = true)
                   (concat (imap (flipsOfRow gammaSurface) rows))).
  { apply Forall_forall. intros flip Hflip.
    apply elem_of_concat in Hflip as (found & Hfound & Hflip).
    apply list_elem_of_lookup_1 in Hfound as (e & He).
    rewrite list_lookup_imap in He.
    destruct (rows !! e) as [row |] eqn:Hrow; [| done].
    injection He as <-.
    apply (flipsOfRow_strength gammaSurface e row); [| done].
    rewrite Forall_forall in Hrowsfin. by eapply Hrowsfin, list_elem_of_lookup_2. }
  split; [by rewrite sort_perm |].
  apply (sort_descending GammaFlip.strength).
  eapply Forall_impl; [exact Hpos |]. intros flip Hflip. cbv beta in Hflip.
  by destruct (GammaFlip.strength flip).
Qed.

Lemma findGammaFlips_strongest_first_witness :
  ∃ flips,
    findGammaFlips
      {| GammaSurface.strikes := [$100; $101; $102];
         GammaSurface.expiries := [$30];
         GammaSurface.values := [[$2; $(-1); $4]];
         GammaSurface.maxGamma := $4;
         GammaSurface.minGamma := $(-1);
         GammaSurface.netGamma := $5 |} = Some flips ∧
    length flips = 2%nat ∧
    Forall (λ flip, ($0 <? GammaFlip.strength flip) = true) flips.
Proof.
  eexists. split; [vm_compute; reflexivity |]. split; [reflexivity |].
  eapply (findGammaFlips_strongest_first
            {| GammaSurface.strikes := [$100; $101; $102];
               GammaSurface.expiries := [$30];
               GammaSurface.values := [[$2; $(-1); $4]];
               GammaSurface.maxGamma := $4;
               GammaSurface.minGamma := $(-1);
               GammaSurface.netGamma := $5 |}).
  - by repeat constructor.
  - vm_compute. reflexivity.
Defined.

End PerceptionMatrixSurface.

(** ** Perception: liquidity map and price history *)

Module PerceptionMatrixLiquidity.
Import Num NumFacts MathUtil MathUtilFacts PerceptionMatrix.
Local Open Scope num_scope.

Lemma add_nonneg (x y : num) :
  (Fin 0 <=? x) = true → (Fin 0 <=? y) = true → (Fin 0 <=? x + y) = true.
Proof.
  destruct x as [a | | |], y as [b | | |]; try done.
  unfold leb. cbn [is_nan negb andb ltb add].
  rewrite !negb_true_iff. intros Ha Hb. qbool. lra.
Qed.

Lemma totalSize_nonneg (levels : list OrderBookLevel.t) :
  Forall sizeOk levels → (Fin 0 <=? totalSize levels) = true.
Proof.
  intros Hall. unfold totalSize.
  assert (Hgen : ∀ acc, (Fin 0 <=? acc) = true →
            (Fin 0 <=? fold_left (λ sum l, sum + OrderBookLevel.size l) levels acc) = true).
  { induction Hall as [| level levels Hs _ IH]; intros acc Hacc; [done |].
    cbn [fold_left]. apply IH. by apply add_nonneg. }
  by apply Hgen.
Qed.

(** [(b - a) / (b + a)] for two numbers that are not negative. *)
Lemma imbalance_range (b a : num) :
  (Fin 0 <=? b) = true → (Fin 0 <=? a) = true →
  let imbalance := if b + a >? Fin 0 then (b - a) / (b + a) else Fin 0 in
  is_nan imbalance = true ∨
  ((Fin (-1) <=? imbalance) = true ∧ (imbalance <=? Fin 1) = true).
Proof.
  destruct b as [b | | |], a as [a | | |]; try done; try (by left).
  unfold leb. cbn [is_nan negb andb ltb add sub neg gtb].
  rewrite !negb_true_iff. intros Hb Ha. qbool.
  destruct (Qltb 0 (b + a)) eqn:E; qbool; [| by right].
  cbn [div]. destruct (Qeq_bool (b + a) 0) eqn:E'; qbool; [lra |].
  right. cbn [is_nan negb andb ltb]. rewrite !negb_true_iff. split; qbool.
  - apply Qle_shift_div_l; lra.
  - apply Qle_shift_div_r; lra.
Qed.

(** For an order book whose level sizes are numbers that are not negative,
    the liquidity imbalance lies in [-1, 1] unless it is [NaN] (as it is
    when a side sums to [Infinity]), and the depth is not negative; for an
    empty book imbalance, absorption rate and depth are 0; the levels are the
    bids followed by the asks. *)
Theorem buildLiquidityMap_imbalance orderBook trades :
  Forall sizeOk (OrderBook.bids orderBook) →
  Forall sizeOk (OrderBook.asks orderBook) →
  let liquidityMap := buildLiquidityMap orderBook trades in
  (is_nan (LiquidityMap.imbalance liquidityMap) = true ∨
   (($(-1) <=? LiquidityMap.imbalance liquidityMap) = true ∧
    (LiquidityMap.imbalance liquidityMap <=? $1) = true)) ∧
  ($0 <=? LiquidityMap.depth liquidityMap) = true ∧
  (OrderBook.bids orderBook = [] → OrderBook.asks orderBook = [] →
   LiquidityMap.imbalance liquidityMap = $0 ∧
   LiquidityMap.absorptionRate liquidityMap = $0 ∧
   LiquidityMap.depth liquidityMap = $0) ∧
  map LiquidityLevel.is_bid (LiquidityMap.levels liquidityMap)
  = replicate (length (OrderBook.bids orderBook)) true
    ++ replicate (length (OrderBook.asks orderBook)) false.
Proof.
  intros Hbids Hasks liquidityMap. unfold liquidityMap, buildLiquidityMap. cbv zeta.
  cbn [LiquidityMap.imbalance LiquidityMap.absorptionRate LiquidityMap.depth
       LiquidityMap.levels].
  split; [| split; [| split]].
  - apply imbalance_range; by apply totalSize_nonneg.
  - apply add_nonneg; apply totalSize_nonneg.
    + apply Forall_forall. intros level Hlevel. rewrite Forall_forall in Hbids.
      apply Hbids. apply list_elem_of_In. apply list_elem_of_In in Hlevel.
      by apply filter_In in Hlevel as [Hlevel _].
    + apply Forall_forall. intros level Hlevel. rewrite Forall_forall in Hasks.
      apply Hasks. apply list_elem_of_In. apply list_elem_of_In in Hlevel.
      by apply filter_In in Hlevel as [Hlevel _].
  - intros -> ->. done.
  - rewrite map_app, !map_map. cbn [liquidityLevel LiquidityLevel.is_bid].
    f_equal.
    + generalize (OrderBook.bids orderBook). intros l.
      induction l as [| x l IH]; [done |]. simpl. by rewrite IH.
    + generalize (OrderBook.asks orderBook). intros l.
      induction l as [| x l IH]; [done |]. simpl. by rewrite IH.
Qed.

Lemma buildLiquidityMap_imbalance_witness :
  let bid := {| OrderBookLevel.price := $99; OrderBookLevel.size := $300;
                OrderBookLevel.is_bid := true; OrderBookLevel.orders := $2 |} in
  let ask := {| OrderBookLevel.price := $101; OrderBookLevel.size := $100;
                OrderBookLevel.is_bid := false; OrderBookLevel.orders := $1 |} in
  let orderBook := {| OrderBook.timestamp := 0; OrderBook.bids := [bid];
                      OrderBook.asks := [ask]; OrderBook.spread := $2;
                      OrderBook.midPrice := $100 |} in
  ($0 <=? LiquidityMap.depth (buildLiquidityMap orderBook [])) = true.
Proof.
  intros bid ask orderBook.
  destruct (buildLiquidityMap_imbalance orderBook []) as (_ & Hdepth & _).
  - by repeat constructor.
  - by repeat constructor.
  - exact Hdepth.
Defined.

End PerceptionMatrixLiquidity.

(** ** Execution: how an approved signal is filled *)

Module ExecutionEngineFacts.
Import RiskGovernance RiskGovernanceFacts RiskGovernanceLimits ExecutionEngine.
Local Open Scope num_scope.

Lemma determineExecutionConstraints_market signal structuralFeatures :
  let constraints := determineExecutionConstraints signal structuralFeatures in
  ExecutionConstraints.urgency constraints = urgency_high →
  ExecutionConstraints.orderType constraints = order_market.
Proof.
  unfold determineExecutionConstraints. cbv zeta.
  cbn [ExecutionConstraints.urgency ExecutionConstraints.orderType].
  intros ->. by rewrite bool_decide_true.
Qed.

(** An order made from a signal that [filterSignals] approved is either
    filled completely or cancelled by the simulated execution, whatever the
    random draws: the partial fill rates 0.8, 0.7 and 0.5 are out of reach,
    and a high-urgency signal, sent as a market order, is always filled.  A
    cancelled order keeps a filled size of 0 and counts as zero slippage. *)
Theorem approved_signal_never_partially_filled
    g signals portfolio structuralFeatures now a
    id submitted predictedSlippage randomFill randomSlippage filledAt :
  a ∈ (filterSignals g signals portfolio structuralFeatures now).2 →
  let order := createOrder a id submitted in
  let executed :=
    simulateExecution order a predictedSlippage randomFill randomSlippage filledAt in
  (simulateFillRate order a randomFill = $1 ∧
   Order.status executed = status_filled ∧
   Order.filledSize executed = Order.size order * $1 ∧
   Order.filledAt executed = Some filledAt
   ∨
   simulateFillRate order a randomFill = $0 ∧
   Order.status executed = status_cancelled ∧
   Order.filledSize executed = $0 ∧
   Order.filledAt executed = None ∧
   calculateActualSlippage order executed = $0) ∧
  (ExecutionConstraints.urgency (ApprovedSignal.executionConstraints a) = urgency_high →
   Order.status executed = status_filled).
Proof.
  intros Ha order executed.
  apply filterSignals_elem in Ha as (signal & _ & Happ).
  destruct (approveSignal_checks _ _ _ _ _ _ Happ) as (_ & _ & _ & Hconstraints & _).
  assert (Hmarket :
            ExecutionConstraints.urgency (ApprovedSignal.executionConstraints a) = urgency_high →
            Order.type order = kind_market).
  { intros Hhigh. unfold order, createOrder. cbn [Order.type].
    rewrite Hconstraints in Hhigh |- *.
    by rewrite (determineExecutionConstraints_market _ _ Hhigh). }
  assert (Hrate : (simulateFillRate order a randomFill = $1 ∨
                   simulateFillRate order a randomFill = $0) ∧
                  (ExecutionConstraints.urgency (ApprovedSignal.executionConstraints a)
                   = urgency_high → simulateFillRate order a randomFill = $1)).
  { unfold simulateFillRate. cbv zeta.
    case_bool_decide as Htype; [by split; [left |] |].
    case_bool_decide as Hhigh; [by apply Hmarket in Hhigh |].
    split; [| done].
    case_bool_decide.
    - destruct (randomFill >? $0.2) eqn:E1; [by left |].
      destruct (randomFill >? $0.4) eqn:E2; [| by right].
      destruct randomFill as [r | | |]; try done.
      unfold Num.gtb in E1, E2. cbn [Num.ltb] in E1, E2. NumFacts.qbool. lra.
    - destruct (randomFill >? $0.4) eqn:E1; [by left |].
      destruct (randomFill >? $0.6) eqn:E2; [| by right].
      destruct randomFill as [r | | |]; try done.
      unfold Num.gtb in E1, E2. cbn [Num.ltb] in E1, E2. NumFacts.qbool. lra. }
  destruct Hrate as [Hrate Hhigh].
  unfold executed, simulateExecution. cbv zeta.
  split.
  - destruct Hrate as [-> | ->]; [left | right].
    + by repeat (split; [done |]).
    + by repeat (split; [done |]).
  - intros Hurgency. by rewrite (Hhigh Hurgency).
Qed.

Lemma approved_signal_never_partially_filled_witness :
  let order := createOrder Scenario.approvedLongSignal "order-1" 2001%Z in
  let executed :=
    simulateExecution order Scenario.approvedLongSignal $0.001 $0.3 $0.5 2050%Z in
  Order.status executed = status_filled ∨ Order.status executed = status_cancelled.
Proof.
  intros order executed.
  assert (Hin : Scenario.approvedLongSignal
                ∈ (filterSignals Scenario.freshGovernance [Scenario.longSignal]
                     (Scenario.portfolioWithDailyPnL $0) Scenario.quietFeatures 2000%Z).2).
  { vm_compute. left. }
  destruct (approved_signal_never_partially_filled _ _ _ _ _ _
              "order-1" 2001%Z $0.001 $0.3 $0.5 2050%Z Hin) as [[(_ & H & _) | (_ & H & _)] _].
  - left. exact H.
  - right. exact H.
Defined.

End ExecutionEngineFacts.

(** ** Fractal memory: storing while there is room *)

Module FractalMemoryStore.
Import FractalMemory JSMapFacts.

Lemma size_set {K V : Type} `{EqDecision K} (m : JSMap.t K V) (k : K) (v : V) :
  JSMap.size (JSMap.set m k v) ≤ S (JSMap.size m).
Proof.
  unfold JSMap.size. induction m as [| [k0 v0] m IH]; simpl; [lia |].
  destruct (decide (k = k0)); simpl; lia.
Qed.

Lemma pushTo_get {K : Type} `{EqDecision K} (m : JSMap.t K (list string))
    (key key' : K) (patternId : string) :
  JSMap.get (pushTo m key patternId) key'
  = if decide (key' = key)
    then Some (default [] (JSMap.get m key) ++ [patternId])
    else JSMap.get m key'.
Proof. unfold pushTo. apply get_set. Qed.

Lemma pushTo_sound {K : Type} `{EqDecision K} (m : JSMap.t K (list string))
    (key : K) (patternId : string) (mem mem' : t) :
  bucketsSound m mem →
  (∀ id, is_Some (getPattern mem id) → is_Some (getPattern mem' id)) →
  is_Some (getPattern mem' patternId) →
  bucketsSound (pushTo m key patternId) mem'.
Proof.
  intros Hsound Hkept Hnew key' ids id Hget Hin.
  rewrite pushTo_get in Hget.
  destruct (decide (key' = key)) as [-> | Hne].
  - apply (inj Some) in Hget. subst ids.
    apply elem_of_app in Hin as [Hin | Hin].
    + destruct (JSMap.get m key) as [old |] eqn:Hold; simpl in Hin.
      * apply Hkept. by apply (Hsound key old).
      * by apply elem_of_nil in Hin.
    + apply list_elem_of_singleton in Hin. by subst id.
  - apply Hkept. by apply (Hsound key' ids).
Qed.

Lemma pushTo_keeps {K : Type} `{EqDecision K} (m : JSMap.t K (list string))
    (key key' : K) (patternId id : string) :
  id ∈ default [] (JSMap.get m key') →
  id ∈ default [] (JSMap.get (pushTo m key patternId) key').
Proof.
  intros Hin. rewrite pushTo_get.
  destruct (decide (key' = key)) as [-> | Hne]; [| done].
  simpl. apply elem_of_app. by left.
Qed.

Lemma pushTo_lists {K : Type} `{EqDecision K} (m : JSMap.t K (list string))
    (key : K) (patternId : string) :
  patternId ∈ default [] (JSMap.get (pushTo m key patternId) key).
Proof.
  rewrite pushTo_get, decide_True by done.
  simpl. apply elem_of_app. right. by apply list_elem_of_singleton.
Qed.

(** While the store has room for one more pattern, [storePattern] evicts
    nothing: the new pattern is returned by [getPattern] under the returned
    id with the outcome, regime and time it was stored with, every other id
    reads as before, and indices that were consistent with the store stay
    so. *)
Theorem storePattern_with_room
    mem features outcome regime patternId fingerprintNow patternNow :
  (JSMap.size (patterns mem) < maxPatterns mem)%nat →
  let stored :=
    storePattern mem features outcome regime patternId fingerprintNow patternNow in
  stored.2 = patternId ∧
  (∃ pattern,
      getPattern stored.1 patternId = Some pattern ∧
      HistoricalPattern.id pattern = patternId ∧
      HistoricalPattern.outcome pattern = outcome ∧
      HistoricalPattern.regime pattern = regime ∧
      HistoricalPattern.timestamp pattern = patternNow) ∧
  (∀ id, id ≠ patternId → getPattern stored.1 id = getPattern mem id) ∧
  (indicesConsistent mem → indicesConsistent stored.1).
Proof.
  intros Hroom stored. unfold stored, storePattern. cbv zeta.
  cbn [maxPatterns patterns].
  match goal with
  | |- context [JSMap.set (patterns mem) patternId ?pattern] =>
      pose proof (size_set (patterns mem) patternId pattern) as Hsize
  end.
  rewrite decide_False by lia.
  cbn [fst snd].
  split; [done |].
  split.
  { eexists. split.
    - unfold getPattern. cbn [patterns].
      rewrite get_set, decide_True by done. reflexivity.
    - done. }
  split.
  { intros id Hne. unfold getPattern. cbn [patterns].
    by rewrite get_set, decide_False by done. }
  intros (HsoundR & HsoundO & HsoundT & Hcomplete).
  match goal with
  | |- indicesConsistent ?m => set (mem' := m)
  end.
  assert (Hkept : ∀ id, is_Some (getPattern mem id) → is_Some (getPattern mem' id)).
  { intros id Hid. unfold getPattern, mem'. cbn [patterns].
    rewrite get_set. by destruct (decide (id = patternId)). }
  assert (Hnew : is_Some (getPattern mem' patternId)).
  { unfold getPattern, mem'. cbn [patterns].
    by rewrite get_set, decide_True by done. }
  unfold indicesConsistent, mem'. cbn [index updateIndices
    MemoryIndex.byRegime MemoryIndex.byOutcome MemoryIndex.byTimeframe].
  fold mem'.
  split; [by apply (pushTo_sound _ _ _ mem) |].
  split; [by apply (pushTo_sound _ _ _ mem) |].
  split; [by apply (pushTo_sound _ _ _ mem) |].
  intros id pattern fingerprint Hpattern Hfingerprint.
  unfold mem' in Hpattern, Hfingerprint. cbn [patterns fingerprints] in Hpattern, Hfingerprint.
  rewrite get_set in Hpattern. rewrite get_set in Hfingerprint.
  unfold mem'. cbn [index updateIndices
    MemoryIndex.byRegime MemoryIndex.byOutcome MemoryIndex.byTimeframe].
  destruct (decide (id = patternId)) as [-> | Hne].
  - apply (inj Some) in Hpattern, Hfingerprint. subst pattern fingerprint.
    repeat split; apply pushTo_lists.
  - destruct (Hcomplete id pattern fingerprint Hpattern Hfingerprint) as (HR & HO & HT).
    repeat split; by apply pushTo_keeps.
Qed.

Lemma indicesConsistent_new maxPatterns : indicesConsistent (new maxPatterns).
Proof.
  split; [| split; [| split]].
  - intros key ids id Hget. done.
  - intros key ids id Hget Hin. unfold new, emptyIndex in Hget.
    cbn [index MemoryIndex.byOutcome] in Hget.
    destruct key; vm_compute in Hget; apply (inj Some) in Hget; subst ids;
      by apply elem_of_nil in Hin.
  - intros key ids id Hget. done.
  - intros id pattern fingerprint Hget. done.
Qed.

Lemma storePattern_with_room_witness :
  let stored :=
    storePattern (new 3) Scenario.quietFeatures (Scenario.outcomeWithPnl "p1" (Num.of_Z 10))
      (Scenario.regimeWithVolatility normal) "p1" 1000 1000 in
  getPattern stored.1 "p2" = None ∧ indicesConsistent stored.1.
Proof.
  intros stored.
  assert (Hroom : (JSMap.size (patterns (new 3)) < maxPatterns (new 3))%nat)
    by (vm_compute; lia).
  destruct (storePattern_with_room (new 3) Scenario.quietFeatures
              (Scenario.outcomeWithPnl "p1" (Num.of_Z 10)) (Scenario.regimeWithVolatility normal) "p1" 1000 1000 Hroom)
    as (_ & _ & Hothers & Hconsistent).
  unfold stored. split.
  - rewrite (Hothers "p2") by done. reflexivity.
  - apply Hconsistent, indicesConsistent_new.
Defined.

End FractalMemoryStore.

(** ** Strategy pool: generated signals and the activation round *)

Module StrategyPoolSignals.
Import Num NumFacts MathUtil StrategyPool.
Local Open Scope num_scope.

Lemma parameterOr_positive parameters key (fallback : Q) :
  positiveStops parameters → key ∈ stopParameters → (0 < fallback)%Q →
  ∃ q, parameterOr parameters key (Fin fallback) = Fin q ∧ (0 < q)%Q.
Proof.
  intros Hpos Hkey Hfallback. unfold parameterOr.
  destruct (parameters !! key) as [value |] eqn:Hget; simpl.
  - by apply (Hpos key).
  - by exists fallback.
Qed.

(** What a generated signal carries besides its levels. *)
Lemma generateSignal_fields strategy features id now signal :
  generateSignal strategy features id now = Some signal →
  Signal.id signal = id ∧
  Signal.strategyId signal = StrategyTemplate.id (ActiveStrategy.template strategy) ∧
  Signal.timestamp signal = now ∧
  Signal.confidence signal = ActiveStrategy.activationScore strategy ∧
  Signal.entryPrice signal = latestPrice features ∧
  Signal.direction signal ≠ neutral ∧
  (Signal.strength signal <? $0.3) = false ∧
  (latestPrice features === $0) = false.
Proof.
  unfold generateSignal. cbv zeta.
  destruct (latestPrice features === $0) eqn:Hzero; [done |].
  match goal with
  | |- context [match ?shape with (_, _) => _ end] =>
      destruct shape as [[[direction strength] stopLoss] targets]
  end.
  destruct (bool_decide (direction = neutral)) eqn:Hneutral; [done |].
  destruct (strength <? $0.3) eqn:Hstrength; [done |].
  cbn [orb]. intros Hsignal. apply (inj Some) in Hsignal. subst signal.
  cbn [Signal.id Signal.strategyId Signal.timestamp Signal.confidence
       Signal.entryPrice Signal.direction Signal.strength].
  apply bool_decide_eq_false in Hneutral. done.
Qed.

(** A signal generated at a positive latest price, from stop and target
    parameters that are positive, never has its stop on the winning side of
    the entry or a target on the losing side: for a long signal the stop is
    not above the entry and no target is below it, for a short signal the
    stop is not below the entry and no target is above it.  The signal is
    never neutral, has at least one target, and its strength is not below
    0.3. *)
Theorem generateSignal_stop_and_targets strategy features id now p signal :
  latestPrice features = Fin p → (0 < p)%Q →
  positiveStops (ActiveStrategy.parameters strategy) →
  generateSignal strategy features id now = Some signal →
  Signal.entryPrice signal = Fin p ∧
  Signal.targets signal ≠ [] ∧
  (Signal.strength signal <? $0.3) = false ∧
  match Signal.direction signal with
  | long =>
      (Signal.stopLoss signal <=? Signal.entryPrice signal) = true ∧
      Forall (λ target, (Signal.entryPrice signal <=? target) = true)
        (Signal.targets signal)
  | short =>
      (Signal.entryPrice signal <=? Signal.stopLoss signal) = true ∧
      Forall (λ target, (target <=? Signal.entryPrice signal) = true)
        (Signal.targets signal)
  | neutral => False
  end.
Proof.
  intros Hprice Hp Hpos Hsignal.
  destruct (generateSignal_fields _ _ _ _ _ Hsignal)
    as (_ & _ & _ & _ & Hentry & _ & Hstrength & _).
  rewrite Hprice in Hentry.
  split; [done |]. split; [| split; [done |]];
    revert Hsignal; unfold generateSignal; cbv zeta; rewrite Hprice;
    (replace (Fin p === $0) with false
       by (symmetry; cbn [eqb]; qbool; lra)).
  all: destruct (parameterOr_positive _ "stopLoss" 0.003%Q Hpos)
         as (stop & -> & Hstop); [unfold stopParameters; set_solver | lra |].
  all: destruct (parameterOr_positive _ "targetProfit" 0.005%Q Hpos)
         as (profit & -> & Hprofit); [unfold stopParameters; set_solver | lra |].
  all: destruct (parameterOr_positive _ "trailingStop" 0.02%Q Hpos)
         as (trail & -> & Htrail); [unfold stopParameters; set_solver | lra |].
  all: destruct (parameterOr_positive _ "targetMultiple" 2.5%Q Hpos)
         as (multiple & -> & Hmultiple); [unfold stopParameters; set_solver | lra |].
  all: destruct (parameterOr_positive _ "stopLossMultiple" 1.5%Q Hpos)
         as (stopMult & -> & HstopMult); [unfold stopParameters; set_solver | lra |].
  all: assert (Hdist : (0 < multiple * trail)%Q) by (by apply Qmult_lt_0_compat).
  all: destruct (StrategyTemplate.type (ActiveStrategy.template strategy)).
  all: repeat match goal with
       | |- context [if ?c then _ else _] =>
           lazymatch c with
           | context [if _ then _ else _] => fail
           | _ => destruct c eqn:?
           end
       end.
  all: cbn [orb bool_decide decide_rel]; try done.
  all: try (intros Hsome; apply (inj Some) in Hsome; subst signal;
            cbn [Signal.targets Signal.direction Signal.stopLoss Signal.entryPrice];
            try done).
  all: clear Hstrength Hentry.
  all: cbn [mul sub add neg].
  all: (split; [| repeat (apply Forall_cons; split); try apply Forall_nil]).
  all: try exact I.
  all: apply not_ltb_leb; [done | done |]; cbn [ltb]; qbool; nra.
Qed.

Lemma positiveStops_gamma_scalp :
  positiveStops (ActiveStrategy.parameters Scenario.gammaScalpStrategy).
Proof.
  intros key value Hkey Hget. unfold stopParameters in Hkey.
  rewrite !elem_of_cons, elem_of_nil in Hkey.
  destruct Hkey as [-> | [-> | [-> | [-> | [-> | []]]]]];
    vm_compute in Hget; try discriminate Hget;
    apply (inj Some) in Hget; subst value;
    eexists; (split; [reflexivity | reflexivity]).
Defined.

Lemma generateSignal_stop_and_targets_witness :
  ∃ signal,
    generateSignal Scenario.gammaScalpStrategy Scenario.pulledFeatures "sig-9" 2000
    = Some signal ∧
    Signal.entryPrice signal = $100 ∧ Signal.targets signal ≠ [].
Proof.
  destruct (generateSignal Scenario.gammaScalpStrategy Scenario.pulledFeatures
              "sig-9" 2000) as [signal |] eqn:Hsignal;
    [| vm_compute in Hsignal; discriminate Hsignal].
  exists signal. split; [reflexivity |].
  assert (Hp : (0 < 100)%Q) by reflexivity.
  destruct (generateSignal_stop_and_targets Scenario.gammaScalpStrategy
              Scenario.pulledFeatures "sig-9" 2000 100 signal eq_refl Hp
              positiveStops_gamma_scalp Hsignal) as (Hentry & Htargets & _).
  split; assumption.
Defined.

End StrategyPoolSignals.


Module StrategyPoolActivation.
Import Num NumFacts MathUtil SortFacts StrategyPool StrategyPoolSignals.
Local Open Scope num_scope.

Lemma clamp_unit_or_nan (x : num) :
  is_nan (clamp x $0 $1) = false → inUnit (clamp x $0 $1) = true.
Proof.
  intros Hnan. apply MathUtilFacts.clamp_unit.
  destruct x; done.
Qed.

Lemma geb_not_nan (x y : num) : (x >=? y) = true → is_nan x = false.
Proof. unfold geb, leb. by destruct x, y. Qed.

Lemma fold_left_invariant {A B : Type} (f : A → B → A) (I : A → Prop)
    (l : list B) (a : A) :
  I a → (∀ a b, b ∈ l → I a → I (f a b)) → I (fold_left f l a).
Proof.
  revert a. induction l as [| b l IH]; intros a Ha Hstep; simpl; [done |].
  apply IH.
  - apply Hstep; [left | done].
  - intros a' b' Hb'. apply Hstep. by right.
Qed.

Lemma StronglySorted_take {A : Type} (R : A → A → Prop) (n : nat) (l : list A) :
  StronglySorted R l → StronglySorted R (take n l).
Proof.
  intros Hs. revert n. induction Hs as [| x l Hs IH Hx]; intros [| n]; simpl;
    try constructor.
  - apply IH.
  - by apply Forall_take.
Qed.

Lemma slice_until_take {A : Type} (end_ : num) (l : list A) :
  ∃ n, slice_until end_ l = take n l.
Proof.
  destruct end_ as [q | | |]; simpl.
  - destruct (_ <? 0)%Z; eauto.
  - exists (length l). by rewrite take_ge.
  - by exists 0%nat.
  - by exists 0%nat.
Qed.

(** [Math.min(10, Math.floor(confidence * 20))] of a confidence that is not
    negative keeps at most ten entries. *)
Lemma slice_until_maxActive {A : Type} (confidence : num) (l : list A) :
  ($0 <=? confidence) = true →
  (length (slice_until (min2 $10 (Math_floor (confidence * $20))) l) ≤ 10)%nat.
Proof.
  destruct confidence as [q | | |]; try done.
  - intros Hq. unfold leb in Hq. cbn [is_nan negb andb ltb] in Hq.
    apply negb_true_iff in Hq. qbool.
    cbn [mul Math_floor min2 ltb].
    assert (Hfloor : (0 ≤ Qfloor (q * 20))%Z).
    { change 0%Z with (Qfloor 0). apply Qfloor_resp_le. lra. }
    destruct (Qltb (inject_Z (Qfloor (q * 20))) 10) eqn:Hlt.
    + qbool. unfold slice_until. cbn [inject_Z Qnum Qden].
      rewrite Z.quot_1_r.
      destruct (_ <? 0)%Z eqn:Hneg; [lia |].
      rewrite length_take.
      assert (Qfloor (q * 20) < 10)%Z; [| lia].
      rewrite Zlt_Qlt. exact Hlt.
    + replace (slice_until $10 l) with (take 10 l) by reflexivity.
      rewrite length_take. lia.
  - intros _.
    replace (min2 $10 (Math_floor (PInf * $20))) with $10 by reflexivity.
    replace (slice_until $10 l) with (take 10 l) by reflexivity.
    rewrite length_take. lia.
Qed.

Lemma calculateActivationScore_history pool pool' template features regime coherence :
  performanceHistory pool' = performanceHistory pool →
  calculateActivationScore pool' template features regime coherence
  = calculateActivationScore pool template features regime coherence.
Proof.
  intros Hhistory. unfold calculateActivationScore, getLatestPerformance.
  by rewrite Hhistory.
Qed.

Section Round.
Context (pool : t) (structuralFeatures : StructuralFeatures.t)
  (regime : Regime.t) (coherence : CoherenceScore.t)
  (uuid : nat → string) (clock : nat → Z).

Lemma activateTemplate_invariant state i template :
  template ∈ getAllTemplates pool →
  templates state.1 = templates pool ∧
  performanceHistory state.1 = performanceHistory pool ∧
  Forall (activatedBy pool structuralFeatures regime coherence uuid clock) state.2 →
  let state' :=
    activateTemplate structuralFeatures regime coherence uuid clock state (i, template) in
  templates state'.1 = templates pool ∧
  performanceHistory state'.1 = performanceHistory pool ∧
  Forall (activatedBy pool structuralFeatures regime coherence uuid clock) state'.2.
Proof.
  intros Htemplate (Htemplates & Hhistory & Hactive).
  destruct state as [pool' active]. cbn [fst snd] in *.
  unfold activateTemplate. cbv zeta.
  case_bool_decide as Hvalid; cbn [negb]; [| done].
  rewrite (calculateActivationScore_history pool pool') by done.
  destruct (_ >=? _) eqn:Hthreshold; [| done].
  cbn [fst snd templates performanceHistory ActiveStrategy.template
       ActiveStrategy.activationScore ActiveStrategy.parameters
       ActiveStrategy.context ActiveStrategy.performance ActiveStrategy.isActive].
  split; [done |]. split; [done |].
  apply Forall_app. split; [done |].
  apply Forall_singleton. unfold activatedBy. cbv zeta.
  cbn [ActiveStrategy.template ActiveStrategy.activationScore
       ActiveStrategy.parameters ActiveStrategy.context
       ActiveStrategy.performance ActiveStrategy.isActive
       ActiveStrategy.currentSignal].
  repeat (split; [done |]).
  split; [unfold getLatestPerformance; by rewrite Hhistory |].
  split; [done |].
  exists i. unfold getLatestPerformance. by rewrite Hhistory.
Qed.

Lemma activateStrategies_loop :
  let state :=
    fold_left (activateTemplate structuralFeatures regime coherence uuid clock)
      (imap pair (JSMap.values (templates pool))) (pool, []) in
  templates state.1 = templates pool ∧
  performanceHistory state.1 = performanceHistory pool ∧
  Forall (activatedBy pool structuralFeatures regime coherence uuid clock) state.2.
Proof.
  cbv zeta.
  apply (fold_left_invariant _
           (λ state, templates state.1 = templates pool ∧
                     performanceHistory state.1 = performanceHistory pool ∧
                     Forall (activatedBy pool structuralFeatures regime coherence uuid clock) state.2)).
  - by repeat split.
  - intros state [i template] Hin Hstate.
    apply elem_of_lookup_imap in Hin as (i' & template' & Heq & Hlookup).
    apply pair_equal_spec in Heq as [-> ->].
    apply (activateTemplate_invariant state i' template'); [| done].
    unfold getAllTemplates. by apply (list_elem_of_lookup_2 _ i').
Qed.

End Round.

(** The strategies [activateStrategies] returns, for a coherence confidence
    that is not negative: at most ten, in descending order of activation
    score; each one instantiates a template of the pool that is valid for
    the regime, with the parameters adapted to the regime and an activation
    score in [[0, 1]] that reaches the template's threshold; the signal it
    carries, if any, is its own, is not neutral and has the activation score
    as confidence.  The round changes neither the templates nor the
    performance history. *)
Theorem activateStrategies_selection
    pool structuralFeatures regime coherence uuid clock :
  ($0 <=? CoherenceScore.confidence coherence) = true →
  let round :=
    activateStrategies pool structuralFeatures regime coherence uuid clock in
  templates round.1 = templates pool ∧
  performanceHistory round.1 = performanceHistory pool ∧
  (length round.2 ≤ 10)%nat ∧
  StronglySorted
    (λ a b, (ActiveStrategy.activationScore b <=? ActiveStrategy.activationScore a) = true)
    round.2 ∧
  Forall
    (λ strategy,
       let template := ActiveStrategy.template strategy in
       template ∈ getAllTemplates pool ∧
       Regime.type regime ∈ StrategyTemplate.validRegimes template ∧
       ActiveStrategy.activationScore strategy
       = calculateActivationScore pool template structuralFeatures regime coherence ∧
       (ActiveStrategy.activationScore strategy
        >=? StrategyTemplate.activationThreshold template) = true ∧
       inUnit (ActiveStrategy.activationScore strategy) = true ∧
       ActiveStrategy.parameters strategy = adaptParameters template regime ∧
       ActiveStrategy.isActive strategy = true ∧
       match ActiveStrategy.currentSignal strategy with
       | Some signal =>
           Signal.strategyId signal = StrategyTemplate.id template ∧
           Signal.confidence signal = ActiveStrategy.activationScore strategy ∧
           Signal.direction signal ≠ neutral
       | None => True
       end)
    round.2.
Proof.
  intros Hconfidence round. unfold round, activateStrategies.
  pose proof (activateStrategies_loop pool structuralFeatures regime coherence
                uuid clock) as Hloop.
  cbv zeta in Hloop.
  destruct (fold_left _ _ _) as [pool' active].
  cbn [fst snd] in *. destruct Hloop as (Htemplates & Hhistory & Hactive).
  split; [done |]. split; [done |].
  split; [by apply slice_until_maxActive |].
  match goal with
  | |- context [slice_until ?e ?l] =>
      destruct (slice_until_take e l) as [n ->]
  end.
  split.
  - apply StronglySorted_take.
    apply (sort_descending ActiveStrategy.activationScore).
    eapply Forall_impl; [exact Hactive |].
    intros strategy (_ & _ & _ & Hthreshold & _). by apply geb_not_nan in Hthreshold.
  - apply Forall_take. rewrite sort_perm.
    eapply Forall_impl; [exact Hactive |].
    intros strategy (Hin & Hvalid & Hscore & Hthreshold & Hparameters & _ & Hon & i & Hsignal).
    cbv zeta.
    repeat (split; [done |]).
    split.
    { rewrite Hscore. apply clamp_unit_or_nan.
      unfold calculateActivationScore in Hscore. cbv zeta in Hscore.
      rewrite <- Hscore. by apply geb_not_nan in Hthreshold. }
    repeat (split; [done |]).
    destruct (ActiveStrategy.currentSignal strategy) as [signal |]; [| done].
    symmetry in Hsignal.
    destruct (generateSignal_fields _ _ _ _ _ Hsignal)
      as (_ & Hid & _ & Hconf & _ & Hdir & _).
    done.
Qed.

Lemma activateStrategies_selection_witness :
  let round :=
    activateStrategies Scenario.twoTemplatePool Scenario.pulledFeatures
      (Scenario.regimeWithVolatility normal) Scenario.steadyCoherence
      (λ _, "sig-9") (λ _, 2000%Z) in
  (0 < length round.2 ≤ 10)%nat ∧
  getAllTemplates round.1 = [gamma_scalp_v1; momentum_follow_v1].
Proof.
  intros round.
  destruct (activateStrategies_selection Scenario.twoTemplatePool
              Scenario.pulledFeatures (Scenario.regimeWithVolatility normal)
              Scenario.steadyCoherence (λ _, "sig-9") (λ _, 2000%Z) eq_refl)
    as (Htemplates & _ & Hlength & _).
  fold round in Htemplates, Hlength.
  split.
  - split; [vm_compute; lia | exact Hlength].
  - unfold getAllTemplates. rewrite Htemplates. reflexivity.
Defined.

End StrategyPoolActivation.


Module StrategyPoolPerformance.
Import JSMapFacts StrategyPool StrategyPoolActivation.

Section Entries.
Context {K V : Type} `{EqDecision K} (P : K * V → Prop).

Lemma Forall_set (m : JSMap.t K V) (k : K) (v : V) :
  Forall P m → P (k, v) → Forall P (JSMap.set m k v).
Proof.
  intros Hm Hv. induction m as [| [k0 v0] m IH]; simpl.
  - by apply Forall_singleton.
  - apply Forall_cons in Hm as [H0 Hm].
    destruct (decide (k = k0)); apply Forall_cons; auto.
Qed.

Lemma Forall_delete (m : JSMap.t K V) (k : K) :
  Forall P m → Forall P (JSMap.delete m k).
Proof.
  intros Hm. induction m as [| [k0 v0] m IH]; simpl; [done |].
  apply Forall_cons in Hm as [H0 Hm].
  destruct (decide (k = k0)); [done |]. apply Forall_cons; auto.
Qed.

Lemma Forall_get (m : JSMap.t K V) (k : K) (v : V) :
  Forall P m → JSMap.get m k = Some v → P (k, v).
Proof.
  intros Hm. induction m as [| [k0 v0] m IH]; simpl; [done |].
  apply Forall_cons in Hm as [H0 Hm].
  destruct (decide (k = k0)) as [-> | Hne]; [| by apply IH].
  intros Hv. apply (inj Some) in Hv. by subst v0.
Qed.

End Entries.

Lemma last_drop_1 {A : Type} (l : list A) (x : A) :
  last (drop 1 (l ++ [x])) = (if decide (length l = 0%nat) then None else Some x).
Proof.
  destruct l as [| y l]; simpl; [done |].
  rewrite drop_0. apply last_snoc.
Qed.

(** [updatePerformance] records the performance as the latest one of its
    strategy and leaves the other strategies as they are; and when no
    history is longer than 100 entries, none is after [updatePerformance],
    [addTemplate], [removeTemplate] or a round of [activateStrategies].
    [addTemplate] starts the template's history afresh. *)
Theorem updatePerformance_latest_and_cap pool strategyId performance :
  historiesBounded pool →
  let pool' := updatePerformance pool strategyId performance in
  getLatestPerformance pool' strategyId = performance ∧
  (∀ other, other ≠ strategyId →
     getLatestPerformance pool' other = getLatestPerformance pool other) ∧
  historiesBounded pool' ∧
  (∀ template,
     historiesBounded (addTemplate pool template) ∧
     JSMap.get (performanceHistory (addTemplate pool template))
       (StrategyTemplate.id template) = Some []) ∧
  (∀ id, historiesBounded (removeTemplate pool id)) ∧
  (∀ structuralFeatures regime coherence uuid clock,
     historiesBounded
       (activateStrategies pool structuralFeatures regime coherence uuid clock).1).
Proof.
  intros Hbounded pool'. unfold pool', updatePerformance. cbv zeta.
  set (history := default [] (JSMap.get (performanceHistory pool) strategyId)).
  assert (Hhistory : (length history ≤ 100)%nat).
  { unfold history. destruct (JSMap.get _ _) as [h |] eqn:Hget; simpl; [| lia].
    apply (Forall_get _ _ _ _ Hbounded Hget). }
  split.
  { unfold getLatestPerformance. cbn [performanceHistory].
    rewrite get_set, decide_True by done. cbn [default from_option id].
    case_decide as Hlong.
    - rewrite last_drop_1, decide_False; [done |].
      rewrite length_app in Hlong. simpl in Hlong. lia.
    - by rewrite last_snoc. }
  split.
  { intros other Hother. unfold getLatestPerformance. cbn [performanceHistory].
    by rewrite get_set, decide_False by done. }
  split.
  { unfold historiesBounded. cbn [performanceHistory]. apply Forall_set; [done |].
    cbn [snd]. case_decide as Hlong.
    - rewrite length_drop, length_app. simpl. lia.
    - lia. }
  split.
  { intros template. split.
    - unfold historiesBounded, addTemplate. cbn [performanceHistory].
      apply Forall_set; [done |]. simpl. lia.
    - unfold addTemplate. cbn [performanceHistory].
      by rewrite get_set, decide_True by done. }
  split.
  { intros id. unfold historiesBounded, removeTemplate. cbn [performanceHistory].
    by apply Forall_delete. }
  intros structuralFeatures regime coherence uuid clock.
  pose proof (activateStrategies_loop pool structuralFeatures regime coherence
                uuid clock) as Hloop.
  cbv zeta in Hloop. unfold historiesBounded, activateStrategies.
  destruct (fold_left _ _ _) as [pool1 active]. cbn [fst snd] in *.
  destruct Hloop as (_ & -> & _). done.
Qed.

Lemma updatePerformance_latest_and_cap_witness :
  let performance :=
    {| StrategyPerformance.totalTrades := Num.of_Z 12;
       StrategyPerformance.winRate := Fin 0.6;
       StrategyPerformance.profitFactor := Fin 1.4;
       StrategyPerformance.sharpeRatio := Fin 1.1;
       StrategyPerformance.maxDrawdown := Fin 0.05;
       StrategyPerformance.recentPerformance := Fin 0.2;
       StrategyPerformance.adaptationScore := Fin 0.5 |} in
  getLatestPerformance
    (updatePerformance Scenario.twoTemplatePool "gamma_scalp_v1" performance)
    "gamma_scalp_v1" = performance.
Proof.
  intros performance.
  assert (Hbounded : historiesBounded Scenario.twoTemplatePool).
  { unfold historiesBounded. vm_compute. repeat constructor. }
  exact (proj1 (updatePerformance_latest_and_cap Scenario.twoTemplatePool
                  "gamma_scalp_v1" performance Hbounded)).
Defined.

End StrategyPoolPerformance.
